(** * chatdigest: conversation ingestion and context-preserving compression

    A shallow embedding of the chat parser
    ([src/services/chat_parser.py]), of the map/reduce compressor
    ([src/processor/ollama_processor.py]) and of the prompt functions of
    the context preserver ([src/services/context_preserver.py]), with the
    properties of the specification stated and settled against it.

    Python strings are modelled as lists of characters; a character is a
    code point below 256.  The character tables ([isspace], [isword],
    case folding) are the ones CPython uses on that range.  A call that
    can raise returns a [res]; the external services are parameters:
    [json.loads] (it returns, raises [JSONDecodeError], or raises another
    exception, which the parser does not catch), the token estimator,
    the generation capability, and the order in which the futures of
    the map stage complete.

    The file has the definitions first (strings, regular expressions,
    exceptions, the three source modules, sample inputs and the
    vocabulary of the properties), then the lemmas and the theorems. *)

From Stdlib Require Import ZArith Ascii String List Lia Bool Permutation.
From Stdlib Require Import DecimalString QArith.
From stdpp Require Import base list.
Import ListNotations.

Local Open Scope Z_scope.
Local Open Scope list_scope.

(** ** Python strings *)

Module PyStr.

Definition str := list ascii.

(** String literals of the source are written [lit "..."]. *)
Definition lit (s : string) : str := list_ascii_of_string s.

Definition code (c : ascii) : N := N_of_ascii c.

Definition chr_eqb (a b : ascii) : bool := Ascii.eqb a b.

Fixpoint str_eqb (a b : str) : bool :=
  match a, b with
  | [], [] => true
  | x :: a', y :: b' => chr_eqb x y && str_eqb a' b'
  | _, _ => false
  end.

Definition nl : ascii := ascii_of_N 10.
Definition is_nl (c : ascii) : bool := chr_eqb c nl.

(** A newline, and a blank line. *)
Definition NL : str := [nl].
Definition NLNL : str := [nl; nl].

(** [Py_UNICODE_ISSPACE]: what [str.strip()] removes and what [\s]
    matches: TAB..CR, FS..US, space, NEL and NBSP. *)
Definition isspace (c : ascii) : bool :=
  let n := code c in
  (((9 <=? n) && (n <=? 13)) || ((28 <=? n) && (n <=? 32))
   || (n =? 133) || (n =? 160))%N.

Definition is_upper_ascii (c : ascii) : bool :=
  let n := code c in ((65 <=? n) && (n <=? 90))%N.
Definition is_lower_ascii (c : ascii) : bool :=
  let n := code c in ((97 <=? n) && (n <=? 122))%N.
Definition is_digit_ascii (c : ascii) : bool :=
  let n := code c in ((48 <=? n) && (n <=? 57))%N.

(** [\w] for a [str] pattern: alphanumeric (alphabetic, decimal, digit or
    numeric) or underscore. *)
Definition isword (c : ascii) : bool :=
  let n := code c in
  (is_upper_ascii c || is_lower_ascii c || is_digit_ascii c || (n =? 95)
   || (n =? 170) || (n =? 178) || (n =? 179) || (n =? 181) || (n =? 185)
   || (n =? 186) || ((188 <=? n) && (n <=? 190))
   || ((192 <=? n) && (n <=? 214)) || ((216 <=? n) && (n <=? 246))
   || (248 <=? n))%N.

(** [str.lower()] on one character: A-Z and the Latin-1 capitals. *)
Definition lower_chr (c : ascii) : ascii :=
  let n := code c in
  if (is_upper_ascii c
      || ((192 <=? n) && (n <=? 214)) || ((216 <=? n) && (n <=? 222)))%N
  then ascii_of_N (n + 32) else c.

Definition lower (s : str) : str := map lower_chr s.

(** Equality of characters under [re.IGNORECASE], for a pattern
    character that is an ASCII letter or a non-letter. *)
Definition chr_ieqb (p c : ascii) : bool := chr_eqb (lower_chr p) (lower_chr c).

Fixpoint lstrip (s : str) : str :=
  match s with
  | c :: s' => if isspace c then lstrip s' else s
  | [] => []
  end.

Definition rstrip (s : str) : str := rev (lstrip (rev s)).

(** [s.strip()] *)
Definition strip (s : str) : str := rstrip (lstrip s).

(** [s.split('\n')]: never empty, [''.split('\n') == ['']]. *)
Fixpoint split_nl (s : str) : list str :=
  match s with
  | [] => [[]]
  | c :: s' =>
      if is_nl c then [] :: split_nl s'
      else match split_nl s' with
           | l :: ls => (c :: l) :: ls
           | [] => [[c]]
           end
  end.

(** [sep.join(parts)] *)
Fixpoint join (sep : str) (parts : list str) : str :=
  match parts with
  | [] => []
  | [p] => p
  | p :: ps => p ++ sep ++ join sep ps
  end.

(** [s.startswith(p)] *)
Fixpoint startswith (s p : str) : bool :=
  match p, s with
  | [], _ => true
  | x :: p', y :: s' => chr_eqb x y && startswith s' p'
  | _ :: _, [] => false
  end.

(** [needle in hay] *)
Fixpoint contains (needle hay : str) : bool :=
  startswith hay needle ||
  match hay with
  | [] => false
  | _ :: hay' => contains needle hay'
  end.

(** [c in s] for a single character *)
Definition has_chr (c : ascii) (s : str) : bool := existsb (chr_eqb c) s.

(** [len(s)] *)
Definition len {A} (l : list A) : Z := Z.of_nat (length l).

(** [str(n)] for an integer *)
Definition str_of_Z (n : Z) : str :=
  if n <? 0
  then lit "-" ++ lit (NilEmpty.string_of_uint (N.to_uint (Z.to_N (- n))))
  else lit (NilEmpty.string_of_uint (N.to_uint (Z.to_N n))).

(** Python slice [l[lo:hi]] with integer bounds: a negative bound counts
    from the end, both are clamped to the list. *)
Definition clamp_index {A} (l : list A) (x : Z) : nat :=
  Z.to_nat (if x <? 0 then Z.max (x + len l) 0 else Z.min x (len l)).

Definition slice {A} (l : list A) (lo hi : Z) : list A :=
  take (clamp_index l hi - clamp_index l lo)%nat (drop (clamp_index l lo) l).

(** [l[:hi]] and [l[lo:]] *)
Definition slice_to {A} (l : list A) (hi : Z) : list A := slice l 0 hi.
Definition slice_from {A} (l : list A) (lo : Z) : list A := slice l lo (len l).

(** [range(0, stop, step)] for [step > 0]: the multiples of [step] below
    [stop]. *)
Definition range0 (stop step : Z) : list Z :=
  map (fun k => Z.of_nat k * step) (seq 0 (Z.to_nat ((stop + step - 1) / step))).

End PyStr.
Import PyStr.

(** ** Regular expressions

    A backtracking matcher with the priorities of Python's [re]: an
    alternation tries its branches left to right, a greedy repetition
    tries the longest run first and a lazy one the shortest, and the
    first complete match wins.  Repetition is over character classes,
    which is all the patterns of the source use. *)

Module Re.

Inductive re :=
| Eps
| Chr (p : ascii -> bool)          (* one character of a class *)
| Seq (a b : re)
| Alt (a b : re)                   (* a|b *)
| Star (p : ascii -> bool)         (* p*  *)
| StarLazy (p : ascii -> bool)     (* p*? *)
| Bos                              (* ^ (no MULTILINE) *)
| Eos                              (* $ (no MULTILINE) *)
| Grp (i : nat) (r : re)           (* capturing group number i *)
| Ahead (r : re).                  (* (?=r) *)

Record mstate := MState { pos : nat; rest : str; caps : list (nat * str) }.

Section Matcher.
Context {A : Type}.

Fixpoint greedy (p : ascii -> bool) (n : nat) (s : str)
    (k : nat -> str -> option A) : option A :=
  match s with
  | c :: s' =>
      if p c then
        match greedy p (S n) s' k with
        | Some x => Some x
        | None => k n s
        end
      else k n s
  | [] => k n []
  end.

Fixpoint lazy (p : ascii -> bool) (n : nat) (s : str)
    (k : nat -> str -> option A) : option A :=
  match k n s with
  | Some x => Some x
  | None =>
      match s with
      | c :: s' => if p c then lazy p (S n) s' k else None
      | [] => None
      end
  end.
End Matcher.

Fixpoint m {A : Type} (r : re) (st : mstate) (k : mstate -> option A)
    {struct r} : option A :=
  match r with
  | Eps => k st
  | Chr p =>
      match rest st with
      | c :: s' => if p c then k (MState (S (pos st)) s' (caps st)) else None
      | [] => None
      end
  | Seq a b => m a st (fun st' => m b st' k)
  | Alt a b =>
      match m a st k with
      | Some x => Some x
      | None => m b st k
      end
  | Star p => greedy p (pos st) (rest st) (fun n s => k (MState n s (caps st)))
  | StarLazy p => lazy p (pos st) (rest st) (fun n s => k (MState n s (caps st)))
  | Bos => if Nat.eqb (pos st) 0 then k st else None
  | Eos =>
      match rest st with
      | [] => k st
      | [c] => if is_nl c then k st else None
      | _ => None
      end
  | Grp i r' =>
      m r' st (fun st' =>
        k (MState (pos st') (rest st')
             ((i, take (pos st' - pos st)%nat (rest st)) :: caps st')))
  | Ahead r' =>
      match m r' st (fun _ => Some tt) with
      | Some _ => k st
      | None => None
      end
  end.

(** The match starting at position [p], where [s] is the text from [p] on. *)
Definition match_at (r : re) (p : nat) (s : str) : option mstate :=
  m r (MState p s []) Some.

(** [re.match(r, s)] *)
Definition re_match (r : re) (s : str) : option mstate := match_at r 0 s.

(** [re.search(r, s)]: the leftmost match. *)
Fixpoint search_from (r : re) (p : nat) (s : str) : option mstate :=
  match match_at r p s with
  | Some st => Some st
  | None =>
      match s with
      | _ :: s' => search_from r (S p) s'
      | [] => None
      end
  end.

Definition search (r : re) (s : str) : option mstate := search_from r 0 s.

(** [m.group(i)]; the empty string for a group that took no part. *)
Fixpoint group (i : nat) (cs : list (nat * str)) : str :=
  match cs with
  | [] => []
  | (j, t) :: cs' => if Nat.eqb i j then t else group i cs'
  end.

(** [re.findall(r, s)], as the end states of the successive matches, for
    a pattern that matches no empty string: scanning resumes where the
    previous match ended ([skip] characters further). *)
Fixpoint findall_from (r : re) (p skip : nat) (s : str) : list mstate :=
  match skip with
  | S k =>
      match s with
      | _ :: s' => findall_from r (S p) k s'
      | [] => []
      end
  | O =>
      match match_at r p s with
      | Some st =>
          st :: match s with
                | _ :: s' => findall_from r (S p) (pos st - p - 1)%nat s'
                | [] => []
                end
      | None =>
          match s with
          | _ :: s' => findall_from r (S p) 0 s'
          | [] => []
          end
      end
  end.

Definition findall (r : re) (s : str) : list mstate := findall_from r 0 0 s.

(** [re.sub(r, repl, s)] for a pattern that matches no empty string and a
    replacement without group references. *)
Fixpoint sub_from (r : re) (repl : str) (p skip : nat) (s : str) : str :=
  match skip with
  | S k =>
      match s with
      | _ :: s' => sub_from r repl (S p) k s'
      | [] => []
      end
  | O =>
      match s with
      | [] => []
      | c :: s' =>
          match match_at r p s with
          | Some st => repl ++ sub_from r repl (S p) (pos st - p - 1)%nat s'
          | None => c :: sub_from r repl (S p) 0 s'
          end
      end
  end.

Definition sub (r : re) (repl s : str) : str := sub_from r repl 0 0 s.

(** Pattern builders. *)
Definition seqs (rs : list re) : re := fold_right Seq Eps rs.

Fixpoint alts (rs : list re) : re :=
  match rs with
  | [] => Chr (fun _ => false)
  | [r] => r
  | r :: rs' => Alt r (alts rs')
  end.

(** A literal, and a literal under [re.IGNORECASE]. *)
Definition lits (s : string) : re := seqs (map (fun c => Chr (chr_eqb c)) (lit s)).
Definition ilits (s : string) : re := seqs (map (fun c => Chr (chr_ieqb c)) (lit s)).

Definition plus (p : ascii -> bool) : re := Seq (Chr p) (Star p).

(** [.] with and without [re.DOTALL] *)
Definition any : ascii -> bool := fun _ => true.
Definition dot : ascii -> bool := fun c => negb (is_nl c).

Definition is_chr (s : string) : ascii -> bool :=
  fun c => existsb (chr_eqb c) (lit s).

End Re.
Import Re.

(** ** Exceptions

    A Python call either returns a value or raises. *)

Module Py.

Inductive exn :=
| AttributeError (name : str)      (* attribute lookup on an object failed *)
| IndexError                       (* list index out of range *)
| ValueError (msg : str)
| ValidationError                  (* a pydantic model refused a field *)
| Exception_ (msg : str).          (* any other [Exception]; [str(e)] is [msg] *)

Inductive res (A : Type) :=
| Ok (a : A)
| Raise (e : exn).
Arguments Ok {A} a.
Arguments Raise {A} e.

Definition bind {A B} (x : res A) (f : A -> res B) : res B :=
  match x with
  | Ok a => f a
  | Raise e => Raise e
  end.

(** Truth value of an optional string: [None] and [''] are false. *)
Definition truthy (o : option str) : bool :=
  match o with
  | Some (_ :: _) => true
  | _ => false
  end.

Definition nonempty {A} (l : list A) : bool :=
  match l with [] => false | _ :: _ => true end.

Definition is_some {A} (o : option A) : bool :=
  match o with Some _ => true | None => false end.

End Py.
Import Py.

#[global] Instance res_ret : MRet res := @Ok.
#[global] Instance res_bind : MBind res := fun A B f x => Py.bind x f.

(** ** The data model ([src/models/chat.py]) *)

Record ChatMessage := mkMsg { role : str; content : str }.

Record ParsedChat := mkParsed {
  messages : list ChatMessage;
  format_detected : str;
  token_count : Z;
  message_count : Z;
  raw_content : str
}.

(** [ChatMessage(role=r, content=c)]: the field [role] is a [str], so the
    model refuses [None]. *)
Definition new_message (r : option str) (c : str) : res ChatMessage :=
  match r with
  | Some r' => Ok (mkMsg r' c)
  | None => Raise ValidationError
  end.

(** ** The chat parser ([src/services/chat_parser.py]) *)

Module ChatParser.

Definition said_speakers : list string :=
  ["You"; "ChatGPT"; "Claude"; "Gemini"; "Grok"; "Bard"; "AI"; "Assistant"]%string.

(** [(You|ChatGPT|...)\s+said:] under IGNORECASE *)
Definition said_pattern : re :=
  seqs [Grp 1 (alts (map ilits said_speakers)); plus isspace; ilits "said:"].

(** [(#\s+\w+\s*\n+[\s\S]*?)(?=#\s+\w+|$)] *)
Definition openai_pattern : re :=
  seqs [Grp 1 (seqs [lits "#"; plus isspace; plus isword; Star isspace;
                     plus is_nl; StarLazy any]);
        Ahead (Alt (seqs [lits "#"; plus isspace; plus isword]) Eos)].

(** [(User|Human|Person|Customer|AI|Bot|Assistant|System):\s] *)
Definition conversation_pattern : re :=
  seqs [Grp 1 (alts (map lits ["User"; "Human"; "Person"; "Customer"; "AI";
                               "Bot"; "Assistant"; "System"]%string));
        lits ":"; Chr isspace].

(** The pattern of [_parse_said_format], case sensitive, DOTALL:
    [(You|...)\s+said:(.*?)(?=(?:You|...)\s+said:|$)] *)
Definition said_block_pattern : re :=
  seqs [Grp 1 (alts (map lits said_speakers)); plus isspace; lits "said:";
        Grp 2 (StarLazy any);
        Ahead (Alt (seqs [alts (map lits said_speakers); plus isspace;
                          lits "said:"]) Eos)].

(** [^(You|...)\s+said:] under IGNORECASE *)
Definition said_first_line_pattern : re :=
  seqs [Bos; Grp 1 (alts (map ilits said_speakers)); plus isspace; ilits "said:"].

(** AI stylistic patterns, joined with [|] and compiled with IGNORECASE. *)
Definition ai_pattern : re :=
  alts
    [seqs [Bos; ilits "I'm "; alts (map ilits ["sorry"; "afraid"; "happy to"]%string)];
     seqs [Bos; ilits "As "; alts (map ilits ["an"; "a"]%string); ilits " ";
           alts (map ilits ["AI"; "assistant"; "language model"]%string)];
     seqs [Bos; ilits "Let me "; alts (map ilits ["explain"; "show"; "help"]%string)];
     seqs [Bos; ilits "Here"; alts (map ilits ["'s"; " is"]%string); ilits " ";
           alts (map ilits ["how"; "what"; "why"; "an example"]%string)];
     seqs [Bos; ilits "Certainly!"];
     seqs [Bos; ilits "Of course!"];
     seqs [Bos; ilits "Sure thing!"];
     seqs [Bos; ilits "The best way to"];
     seqs [Bos; ilits "Let's go step by step"];
     seqs [Bos; ilits "Based on ";
           alts (map ilits ["my knowledge"; "your request"; "the data"]%string)];
     seqs [Bos; ilits "To summarize"];
     seqs [Bos; ilits "Thank you for your question"]].

(** User patterns (commands, questions), joined and compiled likewise. *)
Definition user_pattern : re :=
  alts
    [seqs [ilits "?"; Eos];
     seqs [Bos; alts (map ilits ["Can"; "Could"; "How"; "What"; "Why"; "When";
                                 "Where"; "Is"; "Are"; "Do"; "Does"; "Will";
                                 "Would"; "Should"]%string); ilits " "];
     seqs [Bos; ilits "Please "];
     seqs [Bos; ilits "Tell me "];
     seqs [Bos; ilits "I ";
           alts (map ilits ["need"; "want"; "would like"; "am trying to"]%string)];
     seqs [Bos; alts (map ilits ["Write"; "Create"; "Generate"; "Explain";
                                 "Summarize"; "Analyze"]%string)];
     seqs [Bos; alts (map ilits ["Claude"; "ChatGPT"; "Gemini"; "Assistant";
                                 "AI"]%string); ilits ","]].

(** [[\s:]] *)
Definition space_or_colon (c : ascii) : bool := isspace c || is_chr ":" c.

(** [^(User|Human|Me|I)[\s:]+] and [^(AI|Assistant|Bot|ChatGPT|Claude|Gemini)[\s:]+] *)
Definition user_label_pattern : re :=
  seqs [Bos; Grp 1 (alts (map ilits ["User"; "Human"; "Me"; "I"]%string));
        plus space_or_colon].
Definition assistant_label_pattern : re :=
  seqs [Bos; Grp 1 (alts (map ilits ["AI"; "Assistant"; "Bot"; "ChatGPT";
                                     "Claude"; "Gemini"]%string));
        plus space_or_colon].

(** [^(User|Human|Me|I|AI|Assistant|Bot|ChatGPT|Claude|Gemini)[\s:]+] followed
    by a second group [.*] (no DOTALL) and [$] *)
Definition role_prefix_pattern : re :=
  seqs [Bos; Grp 1 (alts (map ilits ["User"; "Human"; "Me"; "I"; "AI";
                                     "Assistant"; "Bot"; "ChatGPT"; "Claude";
                                     "Gemini"]%string));
        plus space_or_colon; Grp 2 (Star dot); Eos].

Definition user : str := lit "user".
Definition assistant : str := lit "assistant".

(** The other role: ["assistant" if r == "user" else "user"]. *)
Definition other_role (r : str) : str :=
  if str_eqb r user then assistant else user.

(** Determines whether a role change has occurred on a line. *)
Definition detect_role_change (line : str) : option str :=
  if is_some (re_match user_label_pattern line) then Some user
  else if is_some (re_match assistant_label_pattern line) then Some assistant
  else if is_some (search ai_pattern line) then Some assistant
  else if is_some (search user_pattern line) then Some user
  else None.

(** The state of the line loop of [_parse_generic_format]. *)
Record pstate := mkState {
  st_messages : list ChatMessage;
  current_role : option str;
  current_content : list str
}.

Definition is_blank (l : str) : bool := negb (nonempty (strip l)).

(** The [while i < len(lines)] loop, on the lines from [i] on. *)
Fixpoint process_lines (lines : list str) (st : pstate) : res pstate :=
  match lines with
  | [] => Ok st
  | raw :: rest =>
      let line := strip raw in
      if negb (nonempty line) then
        (* multi-line breaks: blank lines among the next three *)
        let empty_count := length (List.filter is_blank (take 3 rest)) in
        if (2 <=? empty_count)%nat && nonempty (current_content st) then
          msg ← new_message (current_role st)
                  (strip (join NL (current_content st)));
          process_lines rest
            (mkState (st_messages st ++ [msg])
               (Some (if match current_role st with
                         | Some r => str_eqb r user
                         | None => false
                         end
                      then assistant else user))
               [])
        else process_lines rest st
      else
        let detected_role := detect_role_change line in
        st1 ← (if truthy detected_role then
                 (* save the previous message *)
                 st0 ← (if truthy (current_role st) && nonempty (current_content st) then
                          msg ← new_message (current_role st)
                                  (strip (join NL (current_content st)));
                          mret (mkState (st_messages st ++ [msg]) (current_role st) [])
                        else mret st);
                 (* remove explicit prefixes *)
                 let line' :=
                   match re_match role_prefix_pattern line with
                   | Some mt => strip (group 2 (caps mt))
                   | None => line
                   end in
                 mret (mkState (st_messages st0) detected_role (current_content st0), line')
               else mret (st, line));
        let '(st2, line2) := st1 in
        let role2 := match current_role st2 with
                     | None => Some user      (* assume user starts *)
                     | r => r
                     end in
        process_lines rest
          (mkState (st_messages st2) role2 (current_content st2 ++ [line2]))
  end.

(** The pass over [messages[1:]] that switches a message whose role equals
    its predecessor's (as already rewritten). *)
Fixpoint validate_order (prev : str) (ms : list ChatMessage) : list ChatMessage :=
  match ms with
  | [] => []
  | m :: ms' =>
      let m' := if str_eqb (role m) prev
                then mkMsg (other_role (role m)) (content m) else m in
      m' :: validate_order (role m') ms'
  end.

(** Enhanced parser with heuristics to infer user vs assistant roles. *)
Definition _parse_generic_format (content : str) : res (list ChatMessage) :=
  let lines := split_nl content in
  st ← process_lines lines (mkState [] None []);
  (* store last message *)
  msgs ← (if truthy (current_role st) && nonempty (current_content st) then
            msg ← new_message (current_role st)
                    (strip (join NL (current_content st)));
            mret (st_messages st ++ [msg])
          else mret (st_messages st));
  (* validate message order *)
  let msgs1 :=
    if (2 <=? length msgs)%nat then
      match msgs with
      | m0 :: ms => m0 :: validate_order (role m0) ms
      | [] => []
      end
    else msgs in
  (* ensure at least one message *)
  if negb (nonempty msgs1) then mret [mkMsg user (strip content)]
  else mret msgs1.

(** Parse the "You said:" / "ChatGPT said:" format. *)
Definition _parse_said_format (content : str) : res (list ChatMessage) :=
  let lines := split_nl (strip content) in
  let first_line := match lines with l :: _ => strip l | [] => [] end in
  (* a first line without a speaker is taken as the user's first message *)
  let '(messages0, content1) :=
    if negb (is_some (re_match said_first_line_pattern first_line))
    then ([mkMsg user first_line], join NL (slice_from lines 1))
    else ([], content) in
  let matches := findall said_block_pattern content1 in
  let messages1 :=
    messages0 ++
    map (fun mt =>
           let speaker := group 1 (caps mt) in
           let text := group 2 (caps mt) in
           mkMsg (if str_eqb (lower speaker) (lit "you") then user else assistant)
                 (strip text))
        matches in
  if nonempty messages1 then mret messages1 else _parse_generic_format content1.

(** What [json.loads(content)] does: it returns a value, raises
    [JSONDecodeError], or raises another exception ([RecursionError] on a
    deeply nested text, [ValueError] on an integer of too many
    digits). *)
Inductive loads_result :=
| Loaded
| DecodeError
| LoadsError (e : exn).

Section External.
(** [json.loads] and the token counter service [estimate_tokens]. *)
Variable json_loads : str -> loads_result.
Variable estimate_tokens : str -> Z.

(** The checks of [_detect_format] that follow the JSON check. *)
Definition detect_by_pattern (content : str) : str :=
  if is_some (search said_pattern content) then lit "said_format"
  else if is_some (search openai_pattern content) then lit "openai_web"
  else if is_some (search conversation_pattern content) then lit "conversation"
  else lit "generic".

(** Detect the format of the chat log.  Only [JSONDecodeError] is
    caught: any other exception of [json.loads] leaves the function. *)
Definition _detect_format (content : str) : res str :=
  if startswith (strip content) (lit "{") || startswith (strip content) (lit "[")
  then
    match json_loads content with
    | Loaded => mret (lit "json")
    | DecodeError => mret (detect_by_pattern content)
    | LoadsError e => Raise e
    end
  else mret (detect_by_pattern content).

(** Parse a chat log using the specified format or auto-detection. *)
Definition parse (content : str) (specified_format : option str) : res ParsedChat :=
  format_to_use ←
    match specified_format with
    | Some (c :: f) => mret (c :: f)
    | _ => _detect_format content
    end;
  msgs ← (if str_eqb format_to_use (lit "said_format")
          then _parse_said_format content
          else _parse_generic_format content);
  let token_count := estimate_tokens content in
  mret (mkParsed msgs format_to_use token_count (len msgs) content).
End External.

End ChatParser.

(** ** The compressor ([src/processor/ollama_processor.py]) *)

Module OllamaProcessor.

(** The options of a generation request. *)
Record options := mkOptions { temperature : Q; num_predict : Z; top_p : Q }.

(** What [ollama_service.generate] does on one request: it returns
    the generated text or raises an [Exception e] with [str(e) = msg]. *)
Inductive gen_result :=
| Generated (text : str)
| Failed (msg : str).

(** The requests of one run, by the place that issues them: the map task
    of a chunk, or a reduce call (final or intermediate, with the number
    of its group).  The capability may answer each of them in any way. *)
Inductive call :=
| MapCall (chunk_idx : nat)
| ReduceCall (is_final : bool) (group_idx : nat).

Record chunk_meta := mkMeta {
  index : Z;
  total : Z;
  is_first : bool;
  is_last : bool
}.

Record code_block := mkBlock { language : str; code : str }.

(** [l[k]]: a negative index counts from the end. *)
Definition py_index {A} (l : list A) (k : Z) : res A :=
  let k' := if k <? 0 then k + len l else k in
  if k' <? 0 then Raise IndexError
  else match l !! Z.to_nat k' with
       | Some x => Ok x
       | None => Raise IndexError
       end.

(** [l[-1] = f(l[-1])] on a non-empty list. *)
Definition update_last {A} (f : A -> A) (l : list A) : list A :=
  match rev l with
  | [] => []
  | x :: r => rev r ++ [f x]
  end.

(** Format messages for processing. *)
Definition _format_messages (messages : list ChatMessage) : str :=
  join NLNL
    (map (fun msg =>
            (if str_eqb (role msg) (lit "user") then lit "User" else lit "Assistant")
            ++ lit ": " ++ content msg)
         messages).

(** One iteration of the loop of [_create_overlapping_chunks]. *)
Definition chunk_step (messages : list ChatMessage) (chunk_size overlap : Z)
    (acc : list (list ChatMessage) * list chunk_meta) (i : Z)
    : list (list ChatMessage) * list chunk_meta :=
  let '(chunks, metadata) := acc in
  (* don't go beyond array bounds *)
  let end_idx := Z.min (i + chunk_size) (len messages) in
  (* for very small final chunks, merge with previous *)
  if (end_idx - i <? chunk_size / 2) && nonempty chunks then
    (update_last (fun c => c ++ slice messages i end_idx) chunks,
     update_last (fun md => mkMeta (index md) (total md) (is_first md) true) metadata)
  else
    (chunks ++ [slice messages i end_idx],
     metadata ++ [mkMeta (len (chunks ++ [slice messages i end_idx]) - 1)
                         ((len messages - 1) / (chunk_size - overlap) + 1)
                         (i =? 0)
                         (end_idx =? len messages)]).

(** Create overlapping chunks to preserve cross-chunk context. *)
Definition _create_overlapping_chunks (messages : list ChatMessage)
    (chunk_size overlap : Z)
    : res (list (list ChatMessage) * list chunk_meta) :=
  if len messages <=? chunk_size then
    Ok ([messages], [mkMeta 0 1 true true])
  else
    let step := chunk_size - overlap in
    if step =? 0 then Raise (ValueError (lit "range() arg 3 must not be zero"))
    else if step <? 0 then Ok ([], [])
    else Ok (fold_left (chunk_step messages chunk_size overlap)
               (range0 (len messages) step) ([], [])).

(** [content[:50] + "..." if len(content) > 50 else content] *)
Definition topic_of (c : str) : str :=
  if 50 <? len c then slice_to c 50 ++ lit "..." else c.

(** Create a description of the context for a chunk. *)
Definition _create_context_description (chunk_idx : Z)
    (chunks : list (list ChatMessage)) (meta : chunk_meta) : res str :=
  let context0 :=
    lit "This is part " ++ str_of_Z (index meta + 1) ++ lit " of "
    ++ str_of_Z (total meta) ++ lit " of the conversation. " in
  context1 ←
    (if is_first meta then
       mret (context0 ++ lit "This is the beginning of the conversation. ")
     else
       (* brief context from the end of the previous chunk *)
       prev_chunk ← py_index chunks (chunk_idx - 1);
       match rev prev_chunk with
       | last_msg :: _ =>
           mret (context0 ++ lit "It follows a message where the " ++ role last_msg
                 ++ lit " was discussing: "
                 ++ lit "'" ++ topic_of (content last_msg) ++ lit "'. ")
       | [] => mret context0
       end);
  if is_last meta then
    mret (context1 ++ lit "This is the end of the conversation being summarized.")
  else
    (* brief context about the start of the next chunk *)
    next_chunk ← py_index chunks (chunk_idx + 1);
    match next_chunk with
    | first_msg :: _ =>
        mret (context1 ++ lit "It is followed by a message where the "
              ++ role first_msg ++ lit " begins discussing: "
              ++ lit "'" ++ topic_of (content first_msg) ++ lit "'.")
    | [] => mret context1
    end.

(** The prompt of a map task. *)
Definition map_prompt (formatted_text context_desc : str) (meta : chunk_meta) : str :=
  lit "Summarize this conversation segment concisely while preserving all important information.

CONTEXT: " ++ context_desc ++ lit "

You MUST preserve:
1. All questions and their answers
2. All technical details and implementation information
3. All code snippets and code references
4. Important decisions and requirements mentioned
5. References to earlier or later parts of the conversation
6. The flow and continuity of technical discussions

" ++ (if is_first meta
      then lit "As this is the beginning of the conversation, include all context-setting information."
      else []) ++ NL
  ++ (if is_last meta
      then lit "As this is the end of the historical conversation, ensure you provide a proper lead-in to subsequent messages."
      else []) ++ lit "

Focus on factual technical information rather than conversational elements.

Conversation segment:
" ++ formatted_text ++ NLNL ++ lit "Concise summary preserving all key information:".

(** Format messages with context and generate a summary; [gen] is the
    capability's answer to this request. *)
Definition _format_and_summarize_with_context
    (gen : str -> options -> gen_result)
    (messages : list ChatMessage) (context_desc : str) (meta : chunk_meta) : str :=
  let formatted_text := _format_messages messages in
  let prompt := map_prompt formatted_text context_desc meta in
  match gen prompt (mkOptions (1 # 10) 2048 (8 # 10)) with
  | Generated text => text
  | Failed e =>
      (* return formatted text with error note *)
      lit "[Summarization failed: " ++ e ++ lit "]" ++ NLNL
      ++ slice_to formatted_text 500 ++ lit "..."
  end.

(** The prompt of a reduce call. *)
Definition combine_prompt (combined_content : str) (is_final : bool) : str :=
  (if is_final then lit "Create the final comprehensive summary"
   else lit "Create an intermediate summary")
  ++ lit " from these conversation segment summaries.

Your task is to create a "
  ++ (if is_final then lit "complete, cohesive summary" else lit "partial summary")
  ++ lit " that:
1. Preserves ALL technical details from every section
2. Keeps ALL code snippets intact exactly as written
3. Maintains the chronological flow and narrative continuity
4. Creates smooth transitions between topics
5. Eliminates redundancy while preserving unique information
6. "
  ++ (if is_final then lit "Provides a complete picture of the entire conversation"
      else lit "Prepares for further summarization")
  ++ NLNL
  ++ (if is_final
      then lit "The summary should be detailed enough to continue the conversation without the original content."
      else [])
  ++ lit "

Segment summaries to combine:
" ++ combined_content ++ NLNL
  ++ lit "Combined summary preserving all essential information:".

(** Combine multiple summaries with awareness of their relationships. *)
Definition _combine_summaries (gen : str -> options -> gen_result)
    (summaries : list str) (is_final : bool) : str :=
  let combined_content := join (NLNL ++ lit "---" ++ NLNL) summaries in
  let prompt := combine_prompt combined_content is_final in
  let token_limit := if is_final then 3072 else 2048 in
  match gen prompt (mkOptions (1 # 10) token_limit (8 # 10)) with
  | Generated text => text
  | Failed e =>
      (* return concatenated summaries with error note *)
      lit "[Combination failed: " ++ e ++ lit "]" ++ NLNL
      ++ slice_to combined_content 1000 ++ lit "..."
  end.

(** The collection loop of [_process_chunks_with_context]: the futures
    complete in the order [order] (positions in [futures]); each result,
    or the fallback of a future that raised, is stored in the slot of its
    own position. *)
Definition fallback_summary (idx : nat) (chunk : list ChatMessage) : str :=
  lit "[Summary failed for segment " ++ str_of_Z (Z.of_nat idx + 1) ++ lit "]"
  ++ NLNL ++ _format_messages chunk.

Definition store_result (chunks : list (list ChatMessage))
    (outcomes : list (res str)) (results : list (option str)) (idx : nat)
    : list (option str) :=
  match outcomes !! idx with
  | Some (Ok r) => <[idx := Some r]> results
  | Some (Raise _) =>
      <[idx := Some (fallback_summary idx (default [] (chunks !! idx)))]> results
  | None => results
  end.

Definition collect_results (chunks : list (list ChatMessage))
    (outcomes : list (res str)) (order : list nat) : list str :=
  let results :=
    fold_left (store_result chunks outcomes) order
      (replicate (length chunks) None) in
  omap id results.

(** Extract code blocks with language information. *)

(** Three backticks, a group of word characters, a newline, a lazy group
    of anything (DOTALL) and three backticks. *)
Definition code_pattern : re :=
  seqs [lits "```"; Grp 1 (Star isword); Chr is_nl; Grp 2 (StarLazy any);
        lits "```"].

Definition inline_chr (c : ascii) : bool := negb (is_chr "`" c) && negb (is_nl c).

(** A backtick, a lazy group of three or more characters other than a
    backtick and a newline, and a backtick. *)
Definition inline_pattern : re :=
  seqs [lits "`";
        Grp 1 (seqs [Chr inline_chr; Chr inline_chr; Chr inline_chr;
                     StarLazy inline_chr]);
        lits "`"].

(** [[=(){}\[\]<>]|\w+\(] *)
Definition code_like_pattern : re :=
  Alt (Chr (is_chr "=(){}[]<>")) (Seq (plus isword) (lits "(")).

Definition blocks_of_message (msg : ChatMessage) : list code_block :=
  let content := content msg in
  let fenced :=
    flat_map (fun mt =>
                let lang := group 1 (caps mt) in
                let block := group 2 (caps mt) in
                if nonempty (strip block) then
                  [mkBlock (if nonempty (strip lang) then strip lang else lit "text")
                           (strip block)]
                else [])
             (findall code_pattern content) in
  (* inline code that might contain important snippets *)
  let inline :=
    if has_chr "`" content then
      flat_map (fun mt =>
                  let mtch := group 1 (caps mt) in
                  if is_some (search code_like_pattern mtch) && nonempty (strip mtch)
                  then [mkBlock (lit "text") (strip mtch)]
                  else [])
               (findall inline_pattern content)
    else [] in
  fenced ++ inline.

Definition _extract_code_blocks (messages : list ChatMessage) : list code_block :=
  flat_map blocks_of_message messages.

(** [re.sub(r'\s+', ' ', s).strip()] *)
Definition normalize_ws (s : str) : str := strip (sub (plus isspace) (lit " ") s).

(** Whether the loop of [_ensure_code_blocks_present] appends [block] to
    [missing_blocks]. *)
Definition is_missing (summary : str) (block : code_block) : bool :=
  let code := code block in
  if len code <? 20 then false            (* skip very short code blocks *)
  else
    let simple_code := normalize_ws code in
    let simple_summary := normalize_ws summary in
    if negb (contains simple_code simple_summary) then
      let code_lines := split_nl code in
      if 2 <? len code_lines then
        let first_line := strip (default [] (head code_lines)) in
        let last_line := strip (default [] (last code_lines)) in
        nonempty first_line && nonempty last_line
        && negb (contains first_line summary) && negb (contains last_line summary)
      else true
    else false.

(** The fence appended for a missing block. *)
Definition render_block (block : code_block) : str :=
  if nonempty (language block) && negb (str_eqb (language block) (lit "text"))
  then lit "```" ++ language block ++ NL ++ code block ++ NL ++ lit "```" ++ NLNL
  else lit "```" ++ NL ++ code block ++ NL ++ lit "```" ++ NLNL.

(** Ensure all code blocks are present in the summary. *)
Definition _ensure_code_blocks_present (summary : str)
    (code_blocks : list code_block) : str :=
  if negb (nonempty code_blocks) then summary
  else
    let missing_blocks := List.filter (is_missing summary) code_blocks in
    if nonempty missing_blocks then
      summary ++ NLNL ++ lit "## Important Code Blocks" ++ NLNL
      ++ lit "The following code snippets from the conversation must be preserved:"
      ++ NLNL ++ concat (map render_block missing_blocks)
    else summary.

Section Service.
(** The generation capability, and the order in which [as_completed]
    yields [n] submitted futures. *)
Variable generate : call -> str -> options -> gen_result.
Variable completion_order : nat -> list nat.

(** The context description and the map task of the chunk at
    position [i]. *)
Definition map_task (chunks : list (list ChatMessage)) (i : nat)
    (cm : list ChatMessage * chunk_meta) : res str :=
  context_desc ← _create_context_description (Z.of_nat i) chunks (snd cm);
  mret (_format_and_summarize_with_context (generate (MapCall i))
          (fst cm) context_desc (snd cm)).

Fixpoint submit_all (chunks : list (list ChatMessage)) (i : nat)
    (cms : list (list ChatMessage * chunk_meta)) : res (list (res str)) :=
  match cms with
  | [] => mret []
  | cm :: cms' =>
      r ← map_task chunks i cm;
      rs ← submit_all chunks (S i) cms';
      mret (Ok r :: rs)
  end.

(** Process chunks with awareness of chunk position and neighbors. *)
Definition _process_chunks_with_context (chunks : list (list ChatMessage))
    (metadata : list chunk_meta) (max_workers : Z) : res (list str) :=
  if max_workers <=? 0
  then Raise (ValueError (lit "max_workers must be greater than 0"))
  else
    futures ← submit_all chunks 0 (zip chunks metadata);
    (* collect results while maintaining order *)
    mret (collect_results chunks futures (completion_order (length futures))).

Fixpoint combine_groups (i : nat) (groups : list (list str)) : list str :=
  match groups with
  | [] => []
  | g :: gs =>
      _combine_summaries (generate (ReduceCall false i)) g false
      :: combine_groups (S i) gs
  end.

(** Process messages using hierarchical summarization with overlapping
    chunks. *)
Definition _hierarchical_summarize (messages : list ChatMessage)
    (max_tokens max_workers : Z) : res str :=
  (* phase 1: create overlapping chunks *)
  cm ← _create_overlapping_chunks messages 8 2;
  let '(chunks, chunk_metadata) := cm in
  (* phase 2: map *)
  chunk_summaries ← _process_chunks_with_context chunks chunk_metadata max_workers;
  if len chunk_summaries <=? 3 then
    mret (_combine_summaries (generate (ReduceCall true 0)) chunk_summaries true)
  else
    (* phase 3: intermediate reduce *)
    let grouped_summaries :=
      map (fun i => slice chunk_summaries i (i + 3))
          (range0 (len chunk_summaries) 3) in
    let intermediate_summaries := combine_groups 0 grouped_summaries in
    (* phase 4: final reduce *)
    mret (_combine_summaries (generate (ReduceCall true 0))
            intermediate_summaries true).

(** Process a conversation using context-preserving hierarchical
    map-reduce.  The class defines no method [_format_and_summarize]:
    looking it up on [self] raises [AttributeError]. *)
Definition process_conversation (messages : list ChatMessage)
    (max_tokens max_workers preserve_recent : Z)
    : res (str * list ChatMessage) :=
  if len messages <=? preserve_recent then Ok ([], messages)
  else
    (* split into historical and recent messages *)
    let split_index := Z.max (len messages - preserve_recent) 1 in
    let historical := slice_to messages split_index in
    let recent := slice_from messages split_index in
    (* extract code blocks to preserve them *)
    let code_blocks := _extract_code_blocks historical in
    summarized ←
      (if len historical <=? 12
       then Raise (AttributeError (lit "_format_and_summarize"))
       else _hierarchical_summarize historical max_tokens max_workers);
    (* ensure code blocks are preserved *)
    mret (_ensure_code_blocks_present summarized code_blocks, recent).
End Service.

Definition instruction : str :=
  lit "Based on the conversation history summarized above and the recent messages, please continue the discussion naturally. The most recent messages are provided verbatim to give you the exact current context.".

(** The sections of the continuation prompt, joined by blank lines. *)
Definition prompt_content (summarized_history : str)
    (recent_messages : list ChatMessage) : str :=
  let sections :=
    [lit "# Previous Conversation Summary"; summarized_history]
    ++ (if nonempty recent_messages then
          lit "# Recent Messages (Verbatim)"
          :: map (fun msg =>
                    (if str_eqb (role msg) (lit "user")
                     then lit "User: " else lit "Assistant: ") ++ content msg)
                 recent_messages
        else []) in
  join NLNL sections.

(** Format a complete prompt for continuation using summarized history
    and recent messages; [code_blocks] is not used. *)
Definition create_summary_prompt (summarized_history : str)
    (recent_messages : list ChatMessage) (code_blocks : list code_block)
    (target_llm : str) : str :=
  let content := prompt_content summarized_history recent_messages in
  (* format based on target LLM *)
  if startswith target_llm (lit "gpt-") then
    lit "System: " ++ instruction ++ NLNL ++ content ++ NLNL ++ lit "User: "
  else if startswith target_llm (lit "claude-") then
    lit "Human: " ++ instruction ++ NLNL ++ content ++ NLNL ++ lit "Human: "
  else if startswith target_llm (lit "gemini-") then
    lit "User: " ++ instruction ++ NLNL ++ content ++ NLNL ++ lit "User: "
  else
    instruction ++ NLNL ++ content ++ NLNL.

End OllamaProcessor.

(** ** The prompt of the context preserver
    ([src/services/context_preserver.py]) *)

Module ContextPreserver.

Import OllamaProcessor.

(** The prompt of [compress_with_llama] around the formatted
    conversation. *)
Definition compress_prompt (content : str) : str :=
  lit "You are creating a comprehensive summary of a conversation that will be used to continue the discussion effectively.
Your task is to create a condensed yet complete summary that:

1. Preserves the core context and flow of the conversation while reducing length
   - Maintain the primary topics, questions, and key insights
   - Capture the evolution of ideas throughout the discussion

2. Prioritizes important information based on the conversation type:
   - If technical: preserve all technical details, code snippets, implementation plans
   - If conceptual: preserve key concepts, definitions, and relationships
   - If decision-making: preserve options considered, criteria, and conclusions reached

3. Always retain with high fidelity:
   - Specific facts, figures, and named references
   - Questions asked and their answers
   - Any code, formulas, or structured information
   - Explicit decisions or agreements made
   - Core requirements or constraints mentioned

4. Maintain chronological development while eliminating redundancy
   - Show how ideas progressed without repeating similar content
   - Connect related points across different parts of the conversation

The summary should contain enough detail that someone could continue the conversation with full context, without needing to reference the original discussion.

Here is the conversation to summarize:
" ++ content ++ lit "

Create a comprehensive and balanced summary that preserves all essential context needed to continue this conversation:
".

(** Use the capability to create a compressed representation of the
    conversation; [gen] is its answer to [generate(prompt)].  The call is
    not guarded: a failure is raised to the caller. *)
Definition compress_with_llama (gen : str -> gen_result)
    (messages : list ChatMessage) : res str :=
  let content := _format_messages messages in
  match gen (compress_prompt content) with
  | Generated compressed => Ok compressed
  | Failed e => Raise (Exception_ e)
  end.

Definition instruction : str :=
  lit "Based on the conversation history summarized above, please continue the discussion naturally. The most recent messages are provided verbatim to give you the exact current context.".

(** Format a complete prompt using compressed history and recent
    messages; the code blocks are strings here, and [target_llm] is not
    looked at. *)
Definition create_summary_prompt (compressed_history : str)
    (recent_messages : list ChatMessage) (code_blocks : list str)
    (target_llm : str) : str :=
  let sections :=
    [lit "# Previous Conversation Summary"; compressed_history]
    ++ [lit "# Recent Messages (Verbatim)"]
    ++ map (fun msg =>
              (if str_eqb (role msg) (lit "user")
               then lit "User: " else lit "Assistant: ") ++ content msg)
           recent_messages
    ++ (if nonempty code_blocks
        then [lit "# Code and Technical Content"; join NL code_blocks]
        else []) in
  let content := join NLNL sections in
  instruction ++ NLNL ++ content ++ NLNL.

End ContextPreserver.

(** ** The markdown-header strategy of the parser
    ([_parse_openai_web_format] of [src/services/chat_parser.py]) *)

Module ChatParserFormats.

Import ChatParser.

(** [#\s+(\w+)\s*\n+([\s\S]*?)(?=#\s+\w+|$)] *)
Definition header_block_pattern : re :=
  seqs [lits "#"; plus isspace; Grp 1 (plus isword); Star isspace; plus is_nl;
        Grp 2 (StarLazy any);
        Ahead (Alt (seqs [lits "#"; plus isspace; plus isword]) Eos)].

(** [x in names] for a list of string literals *)
Definition among (x : str) (names : list string) : bool :=
  existsb (fun n => str_eqb x (lit n)) names.

(** Map section names to roles. *)
Definition section_role (section : str) : str :=
  if among (lower section) ["user"; "human"; "you"]%string then lit "user"
  else if among (lower section)
            ["assistant"; "chatgpt"; "gpt"; "claude"; "gemini"; "ai"]%string
       then lit "assistant"
  else if among (lower section) ["system"]%string then lit "system"
  else lit "unknown".

(** Parse the web export format with markdown-like sections. *)
Definition _parse_openai_web_format (content : str) : res (list ChatMessage) :=
  let matches := findall header_block_pattern content in
  let messages :=
    map (fun mt =>
           let section := group 1 (caps mt) in
           let text := group 2 (caps mt) in
           mkMsg (section_role section) (strip text))
        matches in
  if nonempty messages then mret messages else _parse_generic_format content.

End ChatParserFormats.

(** ** The helpers ([src/utils/helpers.py]) *)

Module Helpers.

Import OllamaProcessor.

(** Three backticks, an optional group of word characters, [\s*], a
    newline, a lazy group of anything, a newline, [\s*] and three
    backticks. *)
Definition lang_pattern : re :=
  seqs [lits "```"; Alt (Grp 1 (plus isword)) Eps; Star isspace; Chr is_nl;
        Grp 2 (StarLazy any); Chr is_nl; Star isspace; lits "```"].

(** Extract code blocks from text, with their markdown formatting. *)
Definition extract_code_blocks (text : str) (preserve_language : bool) : list str :=
  let fenced :=
    flat_map (fun mt =>
                let lang := group 1 (caps mt) in
                let content := group 2 (caps mt) in
                if nonempty (strip content) then
                  if preserve_language && nonempty lang
                  then [lit "```" ++ lang ++ NL ++ strip content ++ NL ++ lit "```"]
                  else [lit "```" ++ NL ++ strip content ++ NL ++ lit "```"]
                else [])
             (findall lang_pattern text) in
  let inline :=
    flat_map (fun mt =>
                let mtch := group 1 (caps mt) in
                if is_some (search code_like_pattern mtch) && nonempty (strip mtch)
                then [lit "`" ++ strip mtch ++ lit "`"]
                else [])
             (findall inline_pattern text) in
  fenced ++ inline.

(** [s.replace(old, new)] for a non-empty [old]: the occurrences are
    replaced from left to right, without overlap. *)
Fixpoint replace_from (old new : str) (skip : nat) (s : str) : str :=
  match skip with
  | S k =>
      match s with
      | _ :: s' => replace_from old new k s'
      | [] => []
      end
  | O =>
      match s with
      | [] => []
      | c :: s' =>
          if startswith s old
          then new ++ replace_from old new (length old - 1) s'
          else c :: replace_from old new 0 s'
      end
  end.

Definition replace (old new s : str) : str := replace_from old new 0 s.

(** Format content for a specific LLM. *)
Definition format_for_llm (content target_llm : str) : str :=
  if startswith target_llm (lit "gpt-") then content
  else if startswith target_llm (lit "claude-") then content
  else if startswith target_llm (lit "gemini-") then
    replace (lit "Assistant:") (lit "Model:")
      (replace (lit "Human:") (lit "User:") content)
  else content.

End Helpers.

(** ** More exceptions

    The exceptions of the functions below that the compressor and the
    parser never raise. *)

Module PyMore.

Inductive exc :=
| Base (e : exn)                   (* an exception of the core *)
| ZeroDivisionError                (* integer division by zero *)
| UnboundLocalError (name : str)   (* a local variable read while unbound *)
| UnicodeDecodeError               (* [bytes.decode] refused the bytes *)
| HTTPException (status_code : Z) (detail : detail)
                                   (* raised by a handler for the framework *)
with detail :=
| Text (s : str)                   (* a literal *)
| StrOf (e : exc).                 (* [str(e)] *)

Inductive outcome (A : Type) :=
| Returns (a : A)
| Raises (e : exc).
Arguments Returns {A} a.
Arguments Raises {A} e.

(** A call of the core inside the code below. *)
Definition of_res {A} (r : res A) : outcome A :=
  match r with
  | Ok a => Returns a
  | Raise e => Raises (Base e)
  end.

Definition obind {A B} (x : outcome A) (f : A -> outcome B) : outcome B :=
  match x with
  | Returns a => f a
  | Raises e => Raises e
  end.

End PyMore.

#[global] Instance outcome_ret : MRet PyMore.outcome := @PyMore.Returns.
#[global] Instance outcome_bind : MBind PyMore.outcome :=
  fun A B f x => PyMore.obind x f.

(** ** Message selection of the context preserver
    ([src/services/context_preserver.py]) *)

Module ContextSelection.

Import OllamaProcessor PyMore.

(** [a == b] on messages: pydantic models are equal when their fields
    are. *)
Definition msg_eqb (a b : ChatMessage) : bool :=
  str_eqb (role a) (role b) && str_eqb (content a) (content b).

(** [messages.index(msg)]: the position of the first message equal to
    [msg] (the length of the list when there is none, where Python
    raises [ValueError]). *)
Fixpoint index_of (msg : ChatMessage) (messages : list ChatMessage) : nat :=
  match messages with
  | [] => 0
  | m :: ms => if msg_eqb m msg then 0%nat else S (index_of msg ms)
  end.

(** [sorted(l, key=key)]: a stable sort, here by insertion. *)
Fixpoint insert_by {A} (key : A -> nat) (x : A) (sorted : list A) : list A :=
  match sorted with
  | [] => [x]
  | y :: ys => if (key x <? key y)%nat then x :: y :: ys else y :: insert_by key x ys
  end.

Definition sorted_by {A} (key : A -> nat) (l : list A) : list A :=
  fold_left (fun acc x => insert_by key x acc) l [].

(** Smart selection of messages to fit the token budget. *)
Definition select_essential_messages (messages : list ChatMessage)
    (token_budget : Z) : outcome (list ChatMessage) :=
  if len messages <=? 10 then Returns messages   (* keep all if small enough *)
  else
    (* always keep first and last 3 *)
    first ← of_res (py_index messages 0);
    let essential_messages := [first] ++ slice_from messages (-3) in
    let middle_messages := slice messages 1 (-3) in
    picked ←
      (if 0 <? len middle_messages then
         let divisor := Z.min 5 (token_budget / 100) in
         if divisor =? 0 then Raises ZeroDivisionError
         else
           let step := Z.max 1 (len middle_messages / divisor) in
           Returns
             (flat_map (fun i =>
                          if i <? len middle_messages
                          then match middle_messages !! Z.to_nat i with
                               | Some m => [m]
                               | None => []
                               end
                          else [])
                       (range0 (len middle_messages) step))
       else Returns []);
    (* sort by original order *)
    Returns (sorted_by (fun msg => index_of msg messages)
               (essential_messages ++ picked)).

Section External.
(** [estimate_tokens(text, model)] of the token counter. *)
Variable estimate_tokens_for : str -> str -> Z.

(** [create_summary_prompt] as [preserve_context] calls it: with a string
    (the first character of the content) in the place of the recent
    messages.  The loop over it takes that character and reads its
    attribute [role], which a string does not have. *)
Definition create_summary_prompt_over_text (compressed_history recent_messages : str)
    (code_blocks : list str) (target_llm : str) : outcome str :=
  match recent_messages with
  | [] => Returns (ContextPreserver.create_summary_prompt compressed_history []
                     code_blocks target_llm)
  | _ :: _ => Raises (Base (AttributeError (lit "role")))
  end.

(** Select and preserve critical messages to fit within token limits. *)
Definition preserve_context (messages : list ChatMessage) (token_limit : Z)
    (target_llm : str) : outcome str :=
  (* extract all code blocks *)
  let code_blocks :=
    flat_map (fun msg => Helpers.extract_code_blocks (content msg) true) messages in
  (* tokens used by code *)
  let code_tokens :=
    fold_left Z.add (map (fun code => estimate_tokens_for code target_llm) code_blocks) 0 in
  let message_token_budget := token_limit - code_tokens - 200 in
  preserved_messages ← select_essential_messages messages message_token_budget;
  let formatted_lines :=
    map (fun msg =>
           (if str_eqb (role msg) (lit "user") then lit "Me: "
            else lit "System response: ") ++ content msg)
        preserved_messages in
  let content0 := join NLNL formatted_lines in
  let content1 :=
    if nonempty code_blocks
    then content0 ++ NLNL ++ lit "Code blocks:" ++ NL ++ join NLNL code_blocks
    else content0 in
  (* format as prompt for the target LLM *)
  first ← of_res (py_index content1 0);
  create_summary_prompt_over_text content1 [first] code_blocks target_llm.
End External.

End ContextSelection.

(** ** The token limits ([get_token_limit] of
    [src/services/token_counter.py]) *)

Module TokenCounter.

Definition limits : list (string * Z) :=
  [ (* OpenAI models *)
    ("gpt-4", 8192); ("gpt-4-32k", 32768); ("gpt-4-turbo", 128000);
    ("gpt-4o", 128000); ("gpt-3.5-turbo", 4096); ("gpt-3.5-turbo-16k", 16384);
    (* Anthropic models *)
    ("claude-3-opus", 200000); ("claude-3-sonnet", 200000);
    ("claude-3-haiku", 200000); ("claude-3.5-sonnet", 200000);
    ("claude-3.7", 200000);
    (* Google models *)
    ("gemini-pro", 30720); ("gemini-1.5-pro", 1048576);
    (* Meta models *)
    ("llama-3-70b", 8192); ("llama-3-8b", 8192); ("llama-2-70b", 4096);
    ("llama-2-13b", 4096); ("llama-2-7b", 4096);
    (* Mistral models *)
    ("mistral-large", 32000); ("mistral-small", 32000); ("mistral-7b", 8000);
    (* DeepSeek models *)
    ("deepseek-7b", 4096); ("deepseek-67b", 4096); ("deepseek-r1", 128000);
    (* Grok models *)
    ("grok-v3", 1000000);
    (* Cohere models *)
    ("command-r", 128000); ("command-r-plus", 128000);
    (* Default fallback *)
    ("default", 8000) ]%string.

(** [d.get(key, default)] on a dict literal with distinct keys. *)
Fixpoint dict_get {V} (d : list (string * V)) (key : str) (default : V) : V :=
  match d with
  | [] => default
  | (k, v) :: d' => if str_eqb key (lit k) then v else dict_get d' key default
  end.

(** Get the token limit for a specific LLM. *)
Definition get_token_limit (llm_type : str) : Z := dict_get limits llm_type 8000.

End TokenCounter.

(** ** The endpoints ([src/main.py])

    A handler returns the body of its answer or raises [HTTPException],
    which the framework turns into an answer with that status code.
    [HTTPException] is itself an [Exception]: a handler of [Exception]
    catches it. *)

Module Main.

Import OllamaProcessor TokenCounter PyMore.

(** [SummaryRequest] of [src/models/chat.py] *)
Record SummaryRequest := mkRequest {
  chat_content : str;
  target_llm : str;
  max_tokens : option Z;
  preserve_code : bool;
  include_system_prompts : bool
}.

(** A number of a body: an [int] or a [float]. *)
Inductive number (float : Type) :=
| Int (z : Z)
| Float (f : float).
Arguments Int {float} z.
Arguments Float {float} f.

(** The body of [/api/parse] *)
Record ParseBody := mkParseBody {
  pb_content : str;
  pb_messages : list ChatMessage;
  pb_message_count : Z;
  pb_token_count : Z;
  pb_format_detected : str
}.

(** The body of [/api/upload] *)
Record UploadBody := mkUploadBody {
  ub_content : str;
  ub_message_count : Z;
  ub_token_count : Z;
  ub_format_detected : str
}.

(** The body of [/api/compress-context] *)
Record CompressBody (float : Type) := mkCompressBody {
  original_content : str;
  compressed_content : str;
  original_tokens : Z;
  compressed_tokens : Z;
  reduction_percentage : number float;
  ollama_used : bool
}.
Arguments mkCompressBody {float}.
Arguments original_content {float}.
Arguments compressed_content {float}.
Arguments original_tokens {float}.
Arguments compressed_tokens {float}.
Arguments reduction_percentage {float}.
Arguments ollama_used {float}.

(** [except Exception as e: raise HTTPException(status_code=400,
    detail=str(e))] around the body of a handler. *)
Definition answer_400 {A} (body : outcome A) : outcome A :=
  match body with
  | Returns a => Returns a
  | Raises e => Raises (HTTPException 400 (StrOf e))
  end.

Section App.
(** The services outside the repository: [json.loads] (what it does on a
    text), the tokenizer behind [estimate_tokens(text, model)], the
    generation service
    ([generate(prompt, options)], the options as the pairs of the dict,
    none for [None]) and the floating-point arithmetic of
    [round((o - c) / o * 100, 1)]. *)
Variable json_loads : str -> ChatParser.loads_result.
Variable estimate_tokens : str -> option str -> Z.
Variable generate : str -> list (string * Z) -> gen_result.
Variable float : Type.
Variable reduction : Z -> Z -> float.

(** [chat_parser.parse(text)] *)
Definition chat_parser_parse (text : str) : outcome ParsedChat :=
  of_res (ChatParser.parse json_loads (fun s => estimate_tokens s None) text None).

(** Parse a chat log from a file or direct content.  [file] is the
    upload, if any, with the outcome of reading and decoding it. *)
Definition parse_chat (file : option (outcome str)) (content : option str)
    : outcome ParseBody :=
  answer_400
    (text_content ←
       match file with
       | Some decoded => decoded
       | None =>
           if truthy content then Returns (default [] content)
           else Raises (HTTPException 400
                          (Text (lit "Either file or content must be provided")))
       end;
     parsed_chat ← chat_parser_parse text_content;
     Returns (mkParseBody text_content (messages parsed_chat)
                (message_count parsed_chat) (token_count parsed_chat)
                (format_detected parsed_chat))).

(** Process an uploaded chat log file. *)
Definition upload_file (file : outcome str) : outcome UploadBody :=
  answer_400
    (text_content ← file;
     parsed_chat ← chat_parser_parse text_content;
     Returns (mkUploadBody text_content (message_count parsed_chat)
                (token_count parsed_chat) (format_detected parsed_chat))).

(** Compress a chat log using the service and create a continuation
    prompt. *)
Definition compress_context (request : SummaryRequest)
    : outcome (CompressBody float) :=
  answer_400
    (parsed_chat ← chat_parser_parse (chat_content request);
     let token_limit :=
       match max_tokens request with
       | Some n => if n =? 0 then get_token_limit (target_llm request) else n
       | None => get_token_limit (target_llm request)
       end in
     (* simple ping to check if the service is running *)
     let ollama_available :=
       match generate (lit "Hello") [("num_predict"%string, 5)] with
       | Generated _ => true
       | Failed _ => false
       end in
     final_prompt ←
       (if ollama_available then
          let split_index := Z.max (len (messages parsed_chat) - 3) 3 in
          let historical_messages := slice_to (messages parsed_chat) split_index in
          let recent_messages := slice_from (messages parsed_chat) split_index in
          let code_blocks :=
            flat_map (fun msg => Helpers.extract_code_blocks (content msg) true)
                     (messages parsed_chat) in
          compressed_history ←
            of_res (ContextPreserver.compress_with_llama
                      (fun prompt => generate prompt []) historical_messages);
          Returns (ContextPreserver.create_summary_prompt compressed_history
                     recent_messages code_blocks (target_llm request))
        else
          (* [raise HTTPException(status_code=503, detail=str(e))]: the name
             [e] was unbound when the handler of the ping ended *)
          Raises (UnboundLocalError (lit "e")));
     let original_tokens := token_count parsed_chat in
     let compressed_tokens := estimate_tokens final_prompt (Some (target_llm request)) in
     Returns (mkCompressBody (chat_content request) final_prompt original_tokens
                compressed_tokens
                (if 0 <? original_tokens
                 then Float (reduction original_tokens compressed_tokens)
                 else Int 0)
                ollama_available)).
End App.

End Main.

(** ** Sample inputs *)

Module Samples.

Import ChatParser OllamaProcessor.

(** A [json.loads] that refuses every text, and one that overflows the
    stack on every text. *)
Definition refusing : str -> loads_result := fun _ => DecodeError.
Definition overflowing : str -> loads_result :=
  fun _ => LoadsError (Exception_ (lit "maximum recursion depth exceeded")).

(** A transcript of [n] alternating turns; the content of turn [i] is the
    decimal numeral of [i]. *)
Definition turn (i : nat) : ChatMessage :=
  mkMsg (if Nat.even i then lit "user" else lit "assistant") (str_of_Z (Z.of_nat i)).

Definition transcript (n : nat) : list ChatMessage := map turn (seq 0 n).

(** The turns [lo..hi] of that transcript. *)
Definition turns (lo hi : nat) : list ChatMessage := map turn (seq lo (S hi - lo)).

(** Two completion orders: the order of submission, and its reverse. *)
Definition in_order (n : nat) : list nat := seq 0 n.
Definition reversed (n : nat) : list nat := rev (seq 0 n).

(** Sixteen messages, the first of which holds a fenced block of three
    lines; thirteen of them are historical. *)
Definition code_transcript : list ChatMessage :=
  mkMsg (lit "user") (lit "Here it is:
```python
import os
print(os.getcwd())
print(12345678)
```") :: map turn (seq 1 15).

Definition the_block : code_block :=
  mkBlock (lit "python") (lit "import os
print(os.getcwd())
print(12345678)").

(** The same transcript with a block tagged "c++". *)
Definition cpp_code : str :=
  lit "int main() {
  return 12345678;
}".

Definition cpp_transcript : list ChatMessage :=
  mkMsg (lit "user")
    (lit "Here it is:
" ++ lit "```" ++ lit "c++" ++ NL ++ cpp_code ++ NL ++ lit "```")
  :: map turn (seq 1 15).

(** A capability that answers every request with the first line of that
    block, and one that answers with an unrelated sentence. *)
Definition echo_first_line : call -> str -> options -> gen_result :=
  fun _ _ _ => Generated (lit "import os").
Definition unrelated : call -> str -> options -> gen_result :=
  fun _ _ _ => Generated (lit "They talked about files.").

(** Sixteen messages, the first of 600 characters, and a capability that
    fails on the first chunk only. *)
Definition long_transcript : list ChatMessage :=
  mkMsg (lit "user") (repeat "a"%char 600) :: map turn (seq 1 15).

Definition failing_first : call -> str -> options -> gen_result :=
  fun c _ _ =>
    match c with
    | MapCall 0 => Failed (lit "timeout")
    | MapCall _ => Generated (lit "summary")
    | ReduceCall _ _ => Generated (lit "combined")
    end.

End Samples.

(** ** The vocabulary of the properties *)

Module Spec.

Import ChatParser OllamaProcessor.

Definition role_known (r : str) : Prop := r = user \/ r = assistant.

Definition roles_known (ms : list ChatMessage) : Prop :=
  Forall (fun m => role_known (role m)) ms.

(** Strict alternation: adjacent messages have different roles. *)
Definition alternates (ms : list ChatMessage) : Prop :=
  forall i m1 m2, ms !! i = Some m1 -> ms !! S i = Some m2 -> role m1 <> role m2.

Definition whitespace_only (s : str) : Prop := forallb isspace s = true.

(** The invariant of the line loop of [_parse_generic_format]: known
    roles, and a current role as soon as a line has been buffered. *)
Record state_ok (st : pstate) : Prop := {
  ok_messages : roles_known (st_messages st);
  ok_role : current_role st = None \/
            exists r, current_role st = Some r /\ role_known r;
  ok_content : current_content st <> [] -> current_role st <> None
}.

(** The repair pass, as [_parse_generic_format] applies it. *)
Definition repaired (msgs : list ChatMessage) : list ChatMessage :=
  if (2 <=? length msgs)%nat then
    match msgs with
    | m0 :: ms => m0 :: validate_order (role m0) ms
    | [] => []
    end
  else msgs.

(** What the slot of position [i] holds once its future has completed. *)
Definition slot_value (chunks : list (list ChatMessage)) (i : nat) (o : res str) : str :=
  match o with
  | Ok r => r
  | Raise _ => fallback_summary i (default [] (chunks !! i))
  end.

Definition stored (chunks : list (list ChatMessage)) (outcomes : list (res str))
    (i : nat) : option str :=
  slot_value chunks i <$> outcomes !! i.

(** The metadata pairs up with the chunks, and the final chunk is marked
    [is_last]: only a chunk that has a successor looks at the next one. *)
Definition well_closed (cm : list (list ChatMessage) * list chunk_meta) : Prop :=
  length (snd cm) = length (fst cm) /\
  exists pre md, snd cm = pre ++ [md] /\ is_last md = true.

(** [s] is the summary the map task of position [k] produces. *)
Definition task_summary (generate : call -> str -> options -> gen_result)
    (chunks : list (list ChatMessage)) (k : nat)
    (chunk : list ChatMessage) (meta : chunk_meta) (s : str) : Prop :=
  exists ctx,
    _create_context_description (Z.of_nat k) chunks meta = Ok ctx /\
    s = _format_and_summarize_with_context (generate (MapCall k)) chunk ctx meta.

(** [m] occurs in one of the chunks built so far. *)
Definition covered (acc : list (list ChatMessage) * list chunk_meta)
    (m : ChatMessage) : Prop :=
  exists chunk, In chunk (fst acc) /\ In m chunk.

(** What the check of [_ensure_code_blocks_present] has found when it
    does not declare a block missing: the whitespace-normalized block in
    the normalized summary, or the first or last line of a block of more
    than two lines in the summary. *)
Definition found_in_summary (summary : str) (block : code_block) : Prop :=
  contains (normalize_ws (code block)) (normalize_ws summary) = true \/
  (2 < len (split_nl (code block)) /\
   (contains (strip (default [] (head (split_nl (code block))))) summary = true \/
    contains (strip (default [] (last (split_nl (code block))))) summary = true)).

(** The historical messages of a call of [process_conversation]. *)
Definition historical_of (messages : list ChatMessage) (preserve_recent : Z)
    : list ChatMessage :=
  slice_to messages (Z.max (len messages - preserve_recent) 1).

End Spec.

(** ** More vocabulary *)

Module Vocabulary.

Import ChatParser OllamaProcessor.

(** [x] occurs in [s] as a contiguous part. *)
Definition occurs {A} (x s : list A) : Prop :=
  exists before after, s = before ++ x ++ after.

(** The JSON check of [_detect_format] is reached by [parse]: no format
    was specified and the stripped content starts with a brace or a
    bracket. *)
Definition reaches_json (content : str) (specified_format : option str) : bool :=
  negb (truthy specified_format)
  && (startswith (strip content) (lit "{") || startswith (strip content) (lit "[")).

(** [json.loads] is reached and raises [e], which is not a
    [JSONDecodeError]. *)
Definition loads_escapes (json_loads : str -> loads_result) (content : str)
    (specified_format : option str) (e : exn) : Prop :=
  reaches_json content specified_format = true /\ json_loads content = LoadsError e.

(** The contents of the messages are stripped. *)
Definition trimmed (ms : list ChatMessage) : Prop :=
  Forall (fun m => strip (content m) = content m) ms.

(** No match of [r] starts at the character [c]: a sufficient condition
    read off the pattern. *)
Fixpoint cannot_start (r : re) (c : ascii) : bool :=
  match r with
  | Chr p => negb (p c)
  | Seq a _ => cannot_start a c
  | Alt a b => cannot_start a c && cannot_start b c
  | Grp _ r' => cannot_start r' c
  | Ahead r' => cannot_start r' c
  | Eps | Star _ | StarLazy _ | Bos | Eos => false
  end.

(** What the line loop of [_parse_generic_format] stores for a stripped,
    non-blank line: the line, without its explicit role prefix when a
    role was detected. *)
Definition kept_line (line : str) : str :=
  if truthy (detect_role_change line) then
    match re_match role_prefix_pattern line with
    | Some mt => strip (group 2 (caps mt))
    | None => line
    end
  else line.

(** [l] is held by the state: it occurs in a stored message or is
    buffered. *)
Definition held (st : pstate) (l : str) : Prop :=
  (exists m, In m (st_messages st) /\ occurs l (content m)) \/
  In l (current_content st).

Definition stripped (l : str) : Prop := strip l = l.

(** The middle messages picked with a stride of [step]. *)
Definition picked (middle : list ChatMessage) (step : Z) : list ChatMessage :=
  flat_map (fun i =>
              if i <? len middle
              then match middle !! Z.to_nat i with
                   | Some m => [m]
                   | None => []
                   end
              else [])
           (range0 (len middle) step).

End Vocabulary.

(** Fenced code blocks. *)

Module Fences.
Import OllamaProcessor.

(** The delimiter of a fenced code block. *)
Definition fence : str := lit "```".

(** No fence starts inside [s], whatever follows [s] after a fence. *)
Definition fence_free (s : str) : bool := negb (contains fence (s ++ lit "``")).

(** A fenced block in a text: the text before its opening fence, its
    language tag and its code. *)
Record fenced := mkFenced { before : str; tag : str; body : str }.

(** A text made of fenced blocks, each after some text, and a tail. *)
Fixpoint render (blocks : list fenced) (tail : str) : str :=
  match blocks with
  | [] => tail
  | f :: blocks' =>
      before f ++ fence ++ tag f ++ NL ++ body f ++ fence ++ render blocks' tail
  end.

(** No fence starts in the text before the block or in its code, and
    the tag is made of word characters (it may be empty). *)
Definition well_fenced (f : fenced) : Prop :=
  fence_free (before f) = true /\ forallb isword (tag f) = true /\
  fence_free (body f) = true.

(** The block [_extract_code_blocks] records for a tag and a code. *)
Definition block_of (lang body : str) : code_block :=
  mkBlock (if nonempty (strip lang) then strip lang else lit "text") (strip body).

End Fences.

(** The windows of the chunker. *)

Module ChunkShape.
Import OllamaProcessor.

(** The offset of the window of position [j] for the parameters of the
    compressor (chunks of 8, overlap 2), the window itself and the
    metadata the loop builds for it. *)
Definition offset (j : nat) : Z := Z.of_nat j * (8 - 2).

Definition window (msgs : list ChatMessage) (j : nat) : list ChatMessage :=
  slice msgs (offset j) (Z.min (offset j + 8) (len msgs)).

Definition window_meta (msgs : list ChatMessage) (j : nat) : chunk_meta :=
  mkMeta (Z.of_nat j) ((len msgs - 1) / (8 - 2) + 1) (offset j =? 0)
         (Z.min (offset j + 8) (len msgs) =? len msgs).

(** The number of iterations of the loop, and what is left for the last
    one. *)
Definition iterations (msgs : list ChatMessage) : nat :=
  Z.to_nat ((len msgs + (8 - 2) - 1) / (8 - 2)).

Definition tail_size (msgs : list ChatMessage) : Z :=
  len msgs - offset (iterations msgs - 1).

(** The result of the loop when the last window is kept, and when it is
    merged into its predecessor. *)
Definition kept_tail (msgs : list ChatMessage)
    : list (list ChatMessage) * list chunk_meta :=
  (map (window msgs) (seq 0 (iterations msgs)),
   map (window_meta msgs) (seq 0 (iterations msgs))).

Definition merged_tail (msgs : list ChatMessage)
    : list (list ChatMessage) * list chunk_meta :=
  let q := iterations msgs in
  (map (window msgs) (seq 0 (q - 2))
     ++ [window msgs (q - 2) ++ window msgs (q - 1)],
   map (window_meta msgs) (seq 0 (q - 2))
     ++ [mkMeta (Z.of_nat (q - 2)) ((len msgs - 1) / (8 - 2) + 1)
                (offset (q - 2) =? 0) true]).

End ChunkShape.

(** Comparisons in [bool], decided by linear arithmetic. *)
Ltac zbool :=
  symmetry;
  first [ apply Z.ltb_lt; lia | apply Z.ltb_ge; lia | apply Z.leb_le; lia
        | apply Z.leb_gt; lia | apply Z.eqb_eq; lia | apply Z.eqb_neq; lia ].

(** * Properties *)

(** ** The parser *)

Module ParserFacts.

Import ChatParser Spec Vocabulary.

Lemma str_eqb_eq a b : str_eqb a b = true <-> a = b.
Proof.
  revert b. induction a as [|x a IH]; intros [|y b]; simpl;
    try (split; [discriminate | discriminate]).
  - split; trivial.
  - rewrite andb_true_iff, IH. unfold chr_eqb. rewrite Ascii.eqb_eq.
    split; [intros [-> ->]; reflexivity | intros [= -> ->]; auto].
Qed.

Lemma str_eqb_neq a b : str_eqb a b = false <-> a <> b.
Proof.
  rewrite <- str_eqb_eq. destruct (str_eqb a b); split; congruence.
Qed.

Lemma other_role_known r : role_known (other_role r).
Proof. unfold other_role, role_known. destruct (str_eqb r user); auto. Qed.

Lemma other_role_differs r : other_role r <> r.
Proof.
  unfold other_role. destruct (str_eqb r user) eqn:E.
  - apply str_eqb_eq in E. subst r. discriminate.
  - apply str_eqb_neq in E. congruence.
Qed.

Lemma detect_role_change_cases line :
  detect_role_change line = None \/
  detect_role_change line = Some user \/
  detect_role_change line = Some assistant.
Proof.
  unfold detect_role_change.
  repeat match goal with
         | |- context [if ?b then _ else _] => destruct b
         end; auto.
Qed.

Lemma truthy_known r : role_known r -> truthy (Some r) = true.
Proof. intros [-> | ->]; reflexivity. Qed.

Lemma roles_known_snoc ms m :
  roles_known ms -> role_known (role m) -> roles_known (ms ++ [m]).
Proof. intros H1 H2. apply Forall_app. split; [assumption | constructor; auto]. Qed.

Lemma process_lines_ok lines : forall st,
  state_ok st -> exists st', process_lines lines st = Ok st' /\ state_ok st'.
Proof.
  induction lines as [|raw rest IH]; intros st Hst.
  - exists st. split; [reflexivity | assumption].
  - cbn [process_lines].
    destruct (negb (nonempty (strip raw))) eqn:Hblank.
    + destruct ((2 <=? length (List.filter is_blank (take 3 rest)))%nat
                && nonempty (current_content st)) eqn:Hflush.
      * apply andb_true_iff in Hflush as [_ Hne].
        destruct Hst as [Hm Hr Hc].
        destruct Hr as [Hr | (r & Hr & Hk)].
        { exfalso. apply Hc; [|assumption]. destruct (current_content st); discriminate. }
        rewrite Hr. cbn [new_message mbind res_bind Py.bind].
        apply IH. constructor; cbn [st_messages current_role current_content].
        -- apply roles_known_snoc; assumption.
        -- right. eexists. split; [reflexivity|].
           destruct (str_eqb r user); [right | left]; reflexivity.
        -- congruence.
      * apply IH. assumption.
    + destruct Hst as [Hm Hr Hc].
      destruct (detect_role_change_cases (strip raw)) as [Hd | Hd].
      * rewrite Hd. cbn [truthy mbind res_bind Py.bind mret res_ret].
        apply IH. constructor; cbn [st_messages current_role current_content].
        -- assumption.
        -- destruct Hr as [-> | (r & -> & Hk)].
           ++ right. exists user. split; [reflexivity | left; reflexivity].
           ++ right. exists r. auto.
        -- destruct (current_role st); congruence.
      * assert (exists d, detect_role_change (strip raw) = Some d /\ role_known d)
          as (d & Hd' & Hdk).
        { destruct Hd as [Hd | Hd]; eexists; (split; [exact Hd|]); [left | right]; reflexivity. }
        clear Hd. rewrite Hd'. rewrite (truthy_known _ Hdk).
        destruct (truthy (current_role st) && nonempty (current_content st)) eqn:Hsave.
        -- apply andb_true_iff in Hsave as [Ht Hne].
           destruct Hr as [Hr | (r & Hr & Hk)]; [rewrite Hr in Ht; discriminate|].
           rewrite Hr. cbn [new_message mbind res_bind Py.bind mret res_ret].
           cbn [st_messages current_role current_content].
           apply IH. constructor; cbn [st_messages current_role current_content].
           ++ apply roles_known_snoc; assumption.
           ++ right. exists d. auto.
           ++ discriminate.
        -- cbn [mbind res_bind Py.bind mret res_ret].
           apply IH. constructor; cbn [st_messages current_role current_content].
           ++ assumption.
           ++ right. exists d. auto.
           ++ discriminate.
Qed.

Lemma alternates_cons m ms :
  alternates (m :: ms) <->
  (forall m2, head ms = Some m2 -> role m <> role m2) /\ alternates ms.
Proof.
  unfold alternates. split.
  - intros H. split.
    + intros m2 Hh. apply (H 0%nat m m2); [reflexivity|].
      destruct ms; [discriminate | exact Hh].
    + intros i m1 m2 H1 H2. apply (H (S i) m1 m2); assumption.
  - intros [Hh Ht] [|i] m1 m2 H1 H2.
    + injection H1 as <-. apply Hh. destruct ms; [discriminate | exact H2].
    + apply (Ht i m1 m2); assumption.
Qed.

Lemma alternates_short ms : (length ms < 2)%nat -> alternates ms.
Proof.
  intros Hl i m1 m2 H1 H2. apply lookup_lt_Some in H2. lia.
Qed.

Lemma validate_order_known ms : forall prev,
  roles_known ms -> roles_known (validate_order prev ms).
Proof.
  induction ms as [|m ms IH]; intros prev Hk; cbn [validate_order].
  - constructor.
  - inversion Hk as [|? ? Hm Hms]; subst. constructor.
    + destruct (str_eqb (role m) prev); [apply other_role_known | assumption].
    + apply IH. assumption.
Qed.

Lemma validate_order_alternates ms : forall prev,
  (forall m, head (validate_order prev ms) = Some m -> prev <> role m)
  /\ alternates (validate_order prev ms).
Proof.
  induction ms as [|m ms IH]; intros prev; cbn [validate_order].
  - split; [discriminate | apply alternates_short; simpl; lia].
  - split.
    + intros m' [= <-].
      destruct (str_eqb (role m) prev) eqn:E; cbn [role].
      * apply str_eqb_eq in E. subst prev. intros Heq.
        exact (other_role_differs _ (eq_sym Heq)).
      * apply str_eqb_neq in E. congruence.
    + apply alternates_cons. split; apply IH.
Qed.

Lemma validate_order_length ms : forall prev,
  length (validate_order prev ms) = length ms.
Proof. induction ms; intros; simpl; auto. Qed.

Lemma repaired_spec msgs :
  roles_known msgs ->
  roles_known (repaired msgs) /\ alternates (repaired msgs)
  /\ length (repaired msgs) = length msgs.
Proof.
  intros Hk. unfold repaired.
  destruct (2 <=? length msgs)%nat eqn:Hl.
  - destruct msgs as [|m0 ms]; [discriminate|].
    inversion Hk; subst. repeat split.
    + constructor; [assumption | apply validate_order_known; assumption].
    + apply alternates_cons. split; apply validate_order_alternates.
    + simpl. f_equal. apply validate_order_length.
  - apply Nat.leb_gt in Hl. repeat split; [assumption | apply alternates_short; lia].
Qed.

Lemma initial_state_ok : state_ok (mkState [] None []).
Proof. constructor; cbn; [constructor | left; reflexivity | congruence]. Qed.

(** [_parse_generic_format] returns on every input, with at least one
    message, known roles and strict alternation. *)
Lemma generic_format_spec content :
  exists msgs,
    _parse_generic_format content = Ok msgs /\ msgs <> []
    /\ roles_known msgs /\ alternates msgs.
Proof.
  unfold _parse_generic_format.
  destruct (process_lines_ok (split_nl content) _ initial_state_ok)
    as (st & -> & [Hm Hr Hc]).
  cbn [mbind res_bind Py.bind].
  assert (exists msgs0,
    (if truthy (current_role st) && nonempty (current_content st)
     then msg ← new_message (current_role st)
                  (strip (join NL (current_content st)));
          mret (st_messages st ++ [msg])
     else mret (st_messages st)) = Ok msgs0 /\ roles_known msgs0)
    as (msgs0 & -> & Hk0).
  { destruct (truthy (current_role st) && nonempty (current_content st)) eqn:E.
    - apply andb_true_iff in E as [Ht _].
      destruct Hr as [Hr | (r & Hr & Hk)]; [rewrite Hr in Ht; discriminate|].
      rewrite Hr. eexists. split; [reflexivity|].
      apply roles_known_snoc; assumption.
    - eexists. split; [reflexivity | assumption]. }
  cbn [mbind res_bind Py.bind].
  fold (repaired msgs0).
  destruct (repaired_spec msgs0 Hk0) as (Hk1 & Ha1 & Hl1).
  destruct (repaired msgs0) as [|m1 ms1] eqn:E; cbn [nonempty negb].
  - eexists. split; [reflexivity|]. split; [discriminate|]. split.
    + constructor; [left; reflexivity | constructor].
    + apply alternates_short. simpl. lia.
  - eexists. split; [reflexivity|]. split; [discriminate|]. split; assumption.
Qed.

(** Whitespace-only input. *)

Lemma lstrip_whitespace s : whitespace_only s -> lstrip s = [].
Proof.
  unfold whitespace_only. induction s as [|c s IH]; simpl; [reflexivity|].
  intros H. apply andb_true_iff in H as [Hc Hs]. rewrite Hc. auto.
Qed.

Lemma strip_whitespace s : whitespace_only s -> strip s = [].
Proof. intros H. unfold strip. rewrite (lstrip_whitespace s H). reflexivity. Qed.

Lemma split_nl_whitespace s :
  whitespace_only s -> Forall whitespace_only (split_nl s).
Proof.
  unfold whitespace_only. induction s as [|c s IH]; simpl; intros H.
  - repeat constructor.
  - apply andb_true_iff in H as [Hc Hs]. specialize (IH Hs).
    destruct (is_nl c).
    + constructor; [reflexivity | assumption].
    + destruct (split_nl s) as [|l ls]; [repeat constructor; simpl; rewrite Hc; reflexivity|].
      inversion IH; subst. constructor; [simpl; rewrite Hc; assumption | assumption].
Qed.

Lemma process_blank_lines lines : forall st,
  Forall whitespace_only lines -> current_content st = [] ->
  process_lines lines st = Ok st.
Proof.
  induction lines as [|raw rest IH]; intros st Hl Hc; [reflexivity|].
  inversion Hl; subst. cbn [process_lines].
  rewrite (strip_whitespace raw) by assumption. cbn [nonempty negb].
  rewrite Hc. cbn [nonempty]. rewrite andb_false_r. apply IH; assumption.
Qed.

Lemma generic_format_whitespace content :
  whitespace_only content ->
  _parse_generic_format content = Ok [mkMsg (lit "user") (lit "")].
Proof.
  intros H. unfold _parse_generic_format.
  rewrite process_blank_lines by (auto using split_nl_whitespace).
  cbn. rewrite (strip_whitespace content H). reflexivity.
Qed.

Lemma said_format_spec content :
  exists msgs, _parse_said_format content = Ok msgs /\ msgs <> [].
Proof.
  unfold _parse_said_format.
  match goal with
  | |- context [let '(a, b) := ?e in _] => destruct e as [messages0 content1]
  end.
  match goal with
  | |- context [nonempty ?l] => destruct l as [|m ms] eqn:E
  end; cbn [nonempty].
  - destruct (generic_format_spec content1) as (msgs & -> & Hne & _).
    exists msgs. auto.
  - eexists. split; [reflexivity | discriminate].
Qed.

Lemma said_format_whitespace content :
  whitespace_only content ->
  _parse_said_format content = Ok [mkMsg (lit "user") (lit "")].
Proof.
  intros H. unfold _parse_said_format.
  rewrite (strip_whitespace content H). reflexivity.
Qed.

(** [parse] returns what the strategy of the format returns, unless
    [json.loads] is reached and raises an exception that is not caught. *)
Lemma parse_outcome (json_loads : str -> loads_result) (estimate_tokens : str -> Z)
    (content : str) (specified_format : option str) :
  (exists f msgs,
     parse json_loads estimate_tokens content specified_format
     = Ok (mkParsed msgs f (estimate_tokens content) (len msgs) content) /\
     msgs <> [] /\
     (specified_format = None -> _detect_format json_loads content = Ok f) /\
     (_parse_said_format content = Ok msgs \/ _parse_generic_format content = Ok msgs))
  \/
  (exists e,
     parse json_loads estimate_tokens content specified_format = Raise e /\
     loads_escapes json_loads content specified_format e).
Proof.
  assert (Hret : forall f,
    exists msgs,
      (msgs0 ← (if str_eqb f (lit "said_format")
                then _parse_said_format content
                else _parse_generic_format content);
       mret (mkParsed msgs0 f (estimate_tokens content) (len msgs0) content))
      = Ok (mkParsed msgs f (estimate_tokens content) (len msgs) content) /\
      msgs <> [] /\
      (_parse_said_format content = Ok msgs \/ _parse_generic_format content = Ok msgs)).
  { intros f. destruct (str_eqb f (lit "said_format")).
    - destruct (said_format_spec content) as (msgs & E & Hne). exists msgs.
      rewrite E. auto.
    - destruct (generic_format_spec content) as (msgs & E & Hne & _). exists msgs.
      rewrite E. auto. }
  unfold parse.
  assert (Hdet :
    (exists f, _detect_format json_loads content = Ok f) \/
    (exists e, _detect_format json_loads content = Raise e /\
               (startswith (strip content) (lit "{")
                || startswith (strip content) (lit "[")) = true /\
               json_loads content = LoadsError e)).
  { unfold _detect_format.
    destruct (startswith (strip content) (lit "{")
              || startswith (strip content) (lit "[")); [|left; eexists; reflexivity].
    destruct (json_loads content) as [| |e];
      [left; eexists; reflexivity | left; eexists; reflexivity |].
    right. exists e. auto. }
  destruct specified_format as [[|c f]|].
  - destruct Hdet as [(f & Hf) | (e & He & Hb & Hj)].
    + rewrite Hf. cbn [mbind res_bind Py.bind]. left.
      destruct (Hret f) as (msgs & -> & Hne & H). exists f, msgs.
      split; [reflexivity|]. split; [exact Hne|]. split; [discriminate | exact H].
    + rewrite He. right. exists e. split; [reflexivity|].
      split; [unfold reaches_json; rewrite Hb; reflexivity | exact Hj].
  - cbn [mbind res_bind Py.bind mret res_ret]. left.
    destruct (Hret (c :: f)) as (msgs & -> & Hne & H). exists (c :: f), msgs.
    split; [reflexivity|]. split; [exact Hne|]. split; [discriminate | exact H].
  - destruct Hdet as [(f & Hf) | (e & He & Hb & Hj)].
    + rewrite Hf. cbn [mbind res_bind Py.bind]. left.
      destruct (Hret f) as (msgs & -> & Hne & H). exists f, msgs.
      split; [reflexivity|]. split; [exact Hne|]. split; [intros _; reflexivity | exact H].
    + rewrite He. right. exists e. split; [reflexivity|].
      split; [unfold reaches_json; rewrite Hb; reflexivity | exact Hj].
Qed.

End ParserFacts.

Module ParserClaims.

Import ChatParser Spec Vocabulary ParserFacts.




(** C8, as stated, fails on a blank input that is not empty: the content
    of the single message is the stripped input, not the input. *)
Lemma blank_input_is_not_kept_verbatim :
  exists content,
    content = lit " " /\ whitespace_only content /\
    forall json_loads estimate_tokens,
    exists p,
      parse json_loads estimate_tokens content None = Ok p /\
      messages p = [mkMsg (lit "user") (lit "")] /\
      messages p <> [mkMsg (lit "user") content].
Proof.
  eexists. split; [reflexivity|]. split; [reflexivity|]. intros json est.
  eexists. split; [vm_compute; reflexivity|]. split; [reflexivity|].
  discriminate.
Qed.

(** C8 (amended): [parse] returns, with at least one message, unless
    [json.loads] is reached (no format specified, a stripped input that
    starts with a brace or a bracket) and raises an exception other than
    [JSONDecodeError]; on an empty or whitespace-only input it always
    returns exactly one message, of role [user], whose content is the
    input stripped, that is the empty string. *)
Theorem parse_returns_a_message
    (json_loads : str -> loads_result) (estimate_tokens : str -> Z)
    (content : str) (specified_format : option str) :
  ((forall e, ~ loads_escapes json_loads content specified_format e) ->
   exists p,
     parse json_loads estimate_tokens content specified_format = Ok p /\
     (1 <= length (messages p))%nat /\
     message_count p = len (messages p)) /\
  (whitespace_only content ->
   exists p,
     parse json_loads estimate_tokens content specified_format = Ok p /\
     messages p = [mkMsg (lit "user") (strip content)] /\ strip content = lit "").
Proof.
  destruct (parse_outcome json_loads estimate_tokens content specified_format)
    as [(f & msgs & Hp & Hne & _ & Hs) | (e & Hp & Hesc)].
  - split.
    + intros _. eexists. split; [exact Hp|]. cbn [messages message_count].
      split; [destruct msgs; [congruence | simpl; lia] | reflexivity].
    + intros Hw. eexists. split; [exact Hp|]. cbn [messages].
      rewrite (said_format_whitespace content Hw) in Hs.
      rewrite (generic_format_whitespace content Hw) in Hs.
      rewrite (strip_whitespace content Hw).
      destruct Hs as [Hs | Hs]; injection Hs as <-; auto.
  - split.
    + intros Hno. destruct (Hno e Hesc).
    + intros Hw. exfalso. destruct Hesc as [Hr _].
      unfold reaches_json in Hr. rewrite (strip_whitespace content Hw) in Hr.
      rewrite andb_false_r in Hr. discriminate.
Qed.

Lemma parse_returns_a_message_witness :
  (exists p,
     parse Samples.refusing (fun _ => 0) (lit "[1, 2") None = Ok p /\
     (1 <= length (messages p))%nat) /\
  (exists p,
     parse Samples.overflowing (fun _ => 0) (lit "  " ++ NL ++ lit " ") None = Ok p /\
     messages p = [mkMsg (lit "user") (lit "")]).
Proof.
  split.
  - destruct (proj1 (parse_returns_a_message Samples.refusing (fun _ => 0)
                       (lit "[1, 2") None)) as (p & Hp & Hl & _).
    + intros e [_ H]. discriminate H.
    + exists p. split; assumption.
  - destruct (proj2 (parse_returns_a_message Samples.overflowing (fun _ => 0)
                       (lit "  " ++ NL ++ lit " ") None) eq_refl)
      as (p & Hp & Hm & _).
    exists p. split; [exact Hp | exact Hm].
Defined.

(** The scenarios of the specification: two labelled turns, and the
    empty input. *)
Example scenario_two_said_turns :
  forall json_loads estimate_tokens,
  exists p,
    parse json_loads estimate_tokens (lit "You said: Hi
ChatGPT said: Hello") None = Ok p /\
    messages p = [mkMsg (lit "user") (lit "Hi"); mkMsg (lit "assistant") (lit "Hello")] /\
    format_detected p = lit "said_format".
Proof.
  intros json est. eexists. split; [vm_compute; reflexivity|]. split; reflexivity.
Qed.

Example scenario_empty_input :
  forall json_loads estimate_tokens,
  exists p,
    parse json_loads estimate_tokens (lit "") None = Ok p /\
    messages p = [mkMsg (lit "user") (lit "")] /\
    forall generate order,
      OllamaProcessor.process_conversation generate order (messages p) 4000 3 3
      = Ok (lit "", messages p).
Proof.
  intros json est. eexists. split; [vm_compute; reflexivity|].
  split; [reflexivity|]. intros generate order. reflexivity.
Qed.

(** C10: every message of the generic strategy has role [user] or
    [assistant]; [system] and [unknown] never occur. *)
Theorem generic_roles_are_user_or_assistant (content : str) :
  exists msgs,
    _parse_generic_format content = Ok msgs /\
    forall m, In m msgs ->
      (role m = lit "user" \/ role m = lit "assistant") /\
      role m <> lit "system" /\ role m <> lit "unknown".
Proof.
  destruct (generic_format_spec content) as (msgs & Hg & _ & Hk & _).
  exists msgs. split; [exact Hg|].
  intros m Hin. unfold roles_known in Hk. rewrite List.Forall_forall in Hk.
  specialize (Hk m Hin). split; [exact Hk|].
  destruct Hk as [-> | ->]; split; discriminate.
Qed.

End ParserClaims.

(** ** The chunker *)

Module ChunkerClaims.

Import OllamaProcessor Samples Spec.

(** C5: on 20 turns the chunker makes three chunks with ordinals 0, 1, 2,
    the last one alone marked [is_last]; but the loop runs once more at
    turn 18, and that window (turns 18-19) is merged into chunk 2, which
    already holds these turns: chunk 2 is turns 12-19 followed by turns
    18-19 again, ten entries instead of the eight of the range 12-19. *)
Theorem twenty_turns_chunks :
  _create_overlapping_chunks (transcript 20) 8 2 =
  Ok ([turns 0 7; turns 6 13; turns 12 19 ++ turns 18 19],
      [mkMeta 0 4 true false; mkMeta 1 4 false false; mkMeta 2 4 false true])
  /\ length (turns 12 19 ++ turns 18 19) = 10%nat
  /\ turns 12 19 ++ turns 18 19 <> turns 12 19.
Proof.
  split; [vm_compute; reflexivity|]. split; [reflexivity|].
  intros H. apply (f_equal (@length ChatMessage)) in H. discriminate.
Qed.

(** C4: on 15 turns the final window (turns 12-14) is merged into chunk 1,
    which already holds turns 12-13: these two turns occur twice in one
    chunk, not in two adjacent chunks, and turn 13 is followed by turn 12,
    against the order of the transcript. *)
Theorem merged_tail_repeats_turns :
  exists chunk0 chunk1 metadata,
    _create_overlapping_chunks (transcript 15) 8 2 = Ok ([chunk0; chunk1], metadata) /\
    chunk0 = turns 0 7 /\
    chunk1 = turns 6 13 ++ turns 12 14 /\
    chunk1 !! 6%nat = Some (turn 12) /\
    chunk1 !! 7%nat = Some (turn 13) /\
    chunk1 !! 8%nat = Some (turn 12) /\
    chunk1 !! 9%nat = Some (turn 13) /\
    ~ In (turn 12) chunk0.
Proof.
  eexists _, _, _. split; [vm_compute; reflexivity|].
  repeat (split; [reflexivity|]).
  intros H. vm_compute in H. repeat destruct H as [H | H]; try discriminate H.
  exact H.
Qed.

End ChunkerClaims.

(** ** The map stage *)

Module MapStageFacts.

Import OllamaProcessor Spec.

Section Collect.
Variable chunks : list (list ChatMessage).
Variable outcomes : list (res str).

Lemma store_result_eq results idx :
  store_result chunks outcomes results idx =
  match stored chunks outcomes idx with
  | Some v => <[idx := Some v]> results
  | None => results
  end.
Proof.
  unfold store_result, stored.
  destruct (outcomes !! idx) as [[r|e]|]; reflexivity.
Qed.

(** A slot is written exactly when its position has completed, and
    always with the value of its own position. *)
Lemma fold_store_lookup order : forall results i,
  fold_left (store_result chunks outcomes) order results !! i =
  match results !! i with
  | None => None
  | Some old =>
      Some (if bool_decide (i ∈ order)
            then match stored chunks outcomes i with Some v => Some v | None => old end
            else old)
  end.
Proof.
  induction order as [|idx order IH]; intros results i; cbn [fold_left].
  - destruct (results !! i); reflexivity.
  - rewrite IH, store_result_eq.
    destruct (decide (i = idx)) as [->|Hne].
    + rewrite (bool_decide_eq_true_2 (idx ∈ idx :: order)) by left.
      destruct (stored chunks outcomes idx) as [v|] eqn:Hs.
      * destruct (results !! idx) as [old|] eqn:Hr.
        -- rewrite list_lookup_insert_eq by (eapply lookup_lt_Some; eassumption).
           destruct (bool_decide (idx ∈ order)); reflexivity.
        -- rewrite list_insert_ge by (apply lookup_ge_None; assumption).
           rewrite Hr. reflexivity.
      * destruct (results !! idx); [|reflexivity].
        destruct (bool_decide (idx ∈ order)); reflexivity.
    + assert (bool_decide (i ∈ idx :: order) = bool_decide (i ∈ order)) as ->.
      { apply bool_decide_ext. rewrite elem_of_cons. tauto. }
      destruct (stored chunks outcomes idx); [rewrite list_lookup_insert_ne by congruence|];
        reflexivity.
Qed.

(** Whatever the completion order, the summaries are the slot values in
    the order of the futures. *)
Lemma collect_results_in_order order :
  Permutation order (seq 0 (length outcomes)) ->
  (length outcomes <= length chunks)%nat ->
  collect_results chunks outcomes order = imap (slot_value chunks) outcomes.
Proof.
  intros Hperm Hlen. unfold collect_results.
  set (results := fold_left _ order _).
  assert (results =
          (Some <$> imap (slot_value chunks) outcomes)
          ++ replicate (length chunks - length outcomes) None) as ->.
  { apply list_eq. intros i. subst results. rewrite fold_store_lookup.
    destruct (decide (i < length outcomes)%nat) as [Hi|Hi].
    - rewrite lookup_replicate_2 by lia.
      rewrite bool_decide_eq_true_2
        by (rewrite Hperm; apply elem_of_seq; lia).
      rewrite lookup_app_l by (rewrite length_fmap, length_imap; lia).
      rewrite list_lookup_fmap, list_lookup_imap. unfold stored.
      destruct (outcomes !! i) eqn:Ho; [reflexivity|].
      apply lookup_ge_None in Ho. lia.
    - rewrite lookup_app_r by (rewrite length_fmap, length_imap; lia).
      rewrite length_fmap, length_imap.
      destruct (decide (i < length chunks)%nat) as [Hc|Hc].
      + rewrite !lookup_replicate_2 by lia.
        rewrite bool_decide_eq_false_2; [reflexivity|].
        rewrite Hperm, elem_of_seq. lia.
      + rewrite !(proj1 (lookup_replicate_None _ _ _)) by lia. reflexivity. }
  rewrite omap_app.
  assert (forall k, omap id (replicate k (@None str)) = []) as ->
    by (induction k; simpl; auto).
  rewrite app_nil_r.
  induction (imap (slot_value chunks) outcomes) as [|x l IH]; simpl; [reflexivity|].
  f_equal. exact IH.
Qed.
End Collect.

End MapStageFacts.

Module PipelineFacts.

Import OllamaProcessor Spec MapStageFacts.

Lemma update_last_snoc {A} (f : A -> A) pre x :
  update_last f (pre ++ [x]) = pre ++ [f x].
Proof.
  unfold update_last. rewrite rev_app_distr. cbn [rev app].
  rewrite rev_involutive. reflexivity.
Qed.

Lemma update_last_length {A} (f : A -> A) l :
  length (update_last f l) = length l.
Proof.
  destruct l as [|a l] using rev_ind; [reflexivity|].
  rewrite update_last_snoc, !length_app. reflexivity.
Qed.

Lemma chunk_step_same_length msgs W O acc i :
  length (snd acc) = length (fst acc) ->
  length (snd (chunk_step msgs W O acc i)) = length (fst (chunk_step msgs W O acc i)).
Proof.
  destruct acc as [chunks metadata]. cbn [fst snd]. intros H. unfold chunk_step.
  destruct ((Z.min (i + W) (len msgs) - i <? W / 2) && nonempty chunks); cbn [fst snd].
  - rewrite !update_last_length. exact H.
  - rewrite !length_app. cbn [length]. lia.
Qed.

Lemma fold_chunk_step_same_length msgs W O range : forall acc,
  length (snd acc) = length (fst acc) ->
  length (snd (fold_left (chunk_step msgs W O) range acc)) =
  length (fst (fold_left (chunk_step msgs W O) range acc)).
Proof.
  induction range as [|i range IH]; intros acc H; cbn [fold_left]; [exact H|].
  apply IH, chunk_step_same_length, H.
Qed.

Lemma chunk_step_closes msgs acc i :
  length (snd acc) = length (fst acc) ->
  len msgs <= i + 8 ->
  well_closed (chunk_step msgs 8 2 acc i).
Proof.
  intros Hlen Hi. split; [apply chunk_step_same_length, Hlen|].
  destruct acc as [chunks metadata]. cbn [fst snd] in Hlen. unfold chunk_step.
  destruct ((Z.min (i + 8) (len msgs) - i <? 8 / 2) && nonempty chunks) eqn:E;
    cbn [fst snd].
  - apply andb_true_iff in E as [_ Hne].
    destruct metadata as [|md0 metadata'] using rev_ind.
    + destruct chunks; [discriminate | simpl in Hlen; lia].
    + rewrite update_last_snoc. eexists _, _. split; reflexivity.
  - eexists _, _. split; [reflexivity|]. cbn [is_last].
    apply Z.eqb_eq. lia.
Qed.

Lemma range0_last stop step :
  0 < step -> 0 < stop ->
  exists pre i, range0 stop step = pre ++ [i] /\ 0 <= i /\ stop <= i + step.
Proof.
  intros Hstep Hstop. unfold range0.
  set (q := (stop + step - 1) / step).
  assert (Hq : 0 < q) by (subst q; apply Z.div_str_pos; lia).
  assert (Hmul : stop <= q * step).
  { pose proof (Z.mod_pos_bound (stop + step - 1) step Hstep) as Hm.
    pose proof (Z.div_mod (stop + step - 1) step ltac:(lia)) as Hd.
    fold q in Hd. lia. }
  replace (Z.to_nat q) with (S (Z.to_nat (q - 1))) by lia.
  rewrite seq_S, map_app. cbn [map Nat.add].
  eexists _, _. split; [reflexivity|].
  rewrite Z2Nat.id by lia. split; nia.
Qed.

(** The chunker, with the sizes [process_conversation] uses, returns a
    well closed pair on every message list. *)
Lemma create_chunks_spec msgs :
  exists chunks metadata,
    _create_overlapping_chunks msgs 8 2 = Ok (chunks, metadata) /\
    well_closed (chunks, metadata).
Proof.
  unfold _create_overlapping_chunks.
  destruct (len msgs <=? 8) eqn:E.
  - eexists _, _. split; [reflexivity|]. split; [reflexivity|].
    exists [], (mkMeta 0 1 true true). split; reflexivity.
  - apply Z.leb_gt in E. change (8 - 2) with 6. cbn [Z.eqb Z.ltb Z.compare].
    destruct (range0_last (len msgs) 6) as (pre & i & -> & Hi0 & Hi); [lia | lia |].
    rewrite fold_left_app. cbn [fold_left].
    set (acc := fold_left _ pre _).
    destruct (chunk_step msgs 8 2 acc i) as [chunks metadata] eqn:Hs.
    exists chunks, metadata. split; [reflexivity|]. rewrite <- Hs.
    apply chunk_step_closes; [|lia].
    subst acc. apply fold_chunk_step_same_length. reflexivity.
Qed.

Lemma py_index_returns {A} (l : list A) (k : Z) :
  - len l <= k < len l -> exists x, py_index l k = Ok x.
Proof.
  unfold py_index, len. intros Hk.
  set (k' := if k <? 0 then k + Z.of_nat (length l) else k).
  assert (0 <= k' < Z.of_nat (length l)) as Hk'
    by (subst k'; destruct (k <? 0) eqn:E;
        [apply Z.ltb_lt in E | apply Z.ltb_ge in E]; lia).
  destruct (k' <? 0) eqn:E; [apply Z.ltb_lt in E; lia|].
  destruct (l !! Z.to_nat k') eqn:El; [eauto|].
  apply lookup_ge_None in El. lia.
Qed.

Lemma context_description_returns chunks meta (i : nat) :
  (i < length chunks)%nat ->
  (is_last meta = false -> (S i < length chunks)%nat) ->
  exists ctx, _create_context_description (Z.of_nat i) chunks meta = Ok ctx.
Proof.
  intros Hi Hnext. unfold _create_context_description.
  set (context0 := lit "This is part " ++ _).
  assert (exists context1,
    (if is_first meta
     then mret (context0 ++ lit "This is the beginning of the conversation. ")
     else prev_chunk ← py_index chunks (Z.of_nat i - 1);
          match rev prev_chunk with
          | last_msg :: _ =>
              mret (context0 ++ lit "It follows a message where the " ++ role last_msg
                    ++ lit " was discussing: "
                    ++ lit "'" ++ topic_of (content last_msg) ++ lit "'. ")
          | [] => mret context0
          end) = Ok context1) as (context1 & ->).
  { destruct (is_first meta); [eexists; reflexivity|].
    destruct (py_index_returns chunks (Z.of_nat i - 1)) as (prev & ->);
      [unfold len; lia|].
    cbn [mbind res_bind Py.bind]. destruct (rev prev); eexists; reflexivity. }
  cbn [mbind res_bind Py.bind].
  destruct (is_last meta) eqn:El; [eexists; reflexivity|].
  destruct (py_index_returns chunks (Z.of_nat i + 1)) as (next & ->);
    [specialize (Hnext eq_refl); unfold len; lia|].
  cbn [mbind res_bind Py.bind]. destruct next; eexists; reflexivity.
Qed.

Section Service.
Variable generate : call -> str -> options -> gen_result.
Variable completion_order : nat -> list nat.
Hypothesis completion_order_perm :
  forall n, Permutation (completion_order n) (seq 0 n).

Lemma submit_all_spec chunks cms : forall i,
  (forall j cm, cms !! j = Some cm ->
     exists ctx, _create_context_description (Z.of_nat (i + j)) chunks (snd cm) = Ok ctx) ->
  exists rs,
    submit_all generate chunks i cms = Ok rs /\
    length rs = length cms /\
    forall j cm, cms !! j = Some cm ->
      exists s, rs !! j = Some (Ok s) /\
                task_summary generate chunks (i + j) (fst cm) (snd cm) s.
Proof.
  induction cms as [|cm cms IH]; intros i Hctx; cbn [submit_all].
  - exists []. split; [reflexivity|]. split; [reflexivity|]. intros j c H. discriminate.
  - destruct (Hctx 0%nat cm eq_refl) as (ctx & Hc). rewrite Nat.add_0_r in Hc.
    unfold map_task. rewrite Hc. cbn [mbind res_bind Py.bind mret res_ret].
    destruct (IH (S i)) as (rs & -> & Hl & Hrs).
    { intros j c Hj. replace (S i + j)%nat with (i + S j)%nat by lia.
      apply Hctx. exact Hj. }
    eexists. split; [reflexivity|]. split; [simpl; lia|].
    intros [|j] c Hj.
    + injection Hj as <-. eexists. split; [reflexivity|].
      exists ctx. rewrite Nat.add_0_r. auto.
    + replace (i + S j)%nat with (S i + j)%nat by lia. apply Hrs. exact Hj.
Qed.

(** The map stage returns on a well closed chunk list, with the summary
    of each chunk at the position of the chunk. *)
Lemma process_chunks_spec chunks metadata max_workers :
  0 < max_workers ->
  well_closed (chunks, metadata) ->
  exists summaries,
    _process_chunks_with_context generate completion_order chunks metadata max_workers
      = Ok summaries /\
    length summaries = length chunks /\
    forall k chunk meta,
      chunks !! k = Some chunk -> metadata !! k = Some meta ->
      exists s, summaries !! k = Some s /\ task_summary generate chunks k chunk meta s.
Proof.
  intros Hw [Hlen (pre & md & Hmd & Hlast)]. cbn [fst snd] in *.
  unfold _process_chunks_with_context.
  destruct (max_workers <=? 0) eqn:E; [apply Z.leb_le in E; lia|].
  destruct (submit_all_spec chunks (zip chunks metadata) 0%nat) as (rs & -> & Hl & Hrs).
  { intros j [c mt] Hj. cbn [snd Nat.add].
    apply lookup_zip_with_Some in Hj as (c' & mt' & [= <- <-] & Hc & Hm).
    apply context_description_returns.
    - eapply lookup_lt_Some; eassumption.
    - intros Hnl. rewrite Hmd in Hm.
      destruct (decide (j < length pre)%nat) as [Hj|Hj].
      + rewrite <- Hlen, Hmd, length_app. simpl. lia.
      + apply lookup_lt_Some in Hc as Hjc.
        rewrite <- Hlen, Hmd, length_app in Hjc. simpl in Hjc.
        replace j with (length pre + 0)%nat in Hm by lia.
        rewrite lookup_app_r in Hm by lia.
        replace (length pre + 0 - length pre)%nat with 0%nat in Hm by lia.
        injection Hm as <-. congruence. }
  cbn [mbind res_bind Py.bind mret res_ret].
  assert (length rs = length chunks) as Hrl
    by (rewrite Hl, length_zip_with; lia).
  rewrite collect_results_in_order
    by (rewrite ?Hrl; auto using completion_order_perm).
  eexists. split; [reflexivity|]. split; [rewrite length_imap; exact Hrl|].
  intros k chunk meta Hc Hm.
  destruct (Hrs k (chunk, meta)) as (s & Hs & Ht).
  { apply lookup_zip_with_Some. eauto. }
  exists s. split; [|exact Ht].
  rewrite list_lookup_imap, Hs. reflexivity.
Qed.

Lemma hierarchical_summarize_returns msgs max_tokens max_workers :
  0 < max_workers ->
  exists s,
    _hierarchical_summarize generate completion_order msgs max_tokens max_workers = Ok s.
Proof.
  intros Hw. unfold _hierarchical_summarize.
  destruct (create_chunks_spec msgs) as (chunks & metadata & -> & Hwc).
  cbn [mbind res_bind Py.bind].
  destruct (process_chunks_spec chunks metadata max_workers Hw Hwc)
    as (summaries & -> & _).
  cbn [mbind res_bind Py.bind].
  destruct (len summaries <=? 3); eexists; reflexivity.
Qed.
End Service.

End PipelineFacts.

Module CoverageFacts.

Import OllamaProcessor Spec PipelineFacts.

Lemma slice_lookup {A} (l : list A) (lo hi : Z) (j : nat) x :
  0 <= lo <= Z.of_nat j -> Z.of_nat j < hi <= len l ->
  l !! j = Some x -> In x (slice l lo hi).
Proof.
  intros Hlo Hhi Hj. unfold slice, clamp_index, len in *.
  destruct (lo <? 0) eqn:E1; [apply Z.ltb_lt in E1; lia|].
  destruct (hi <? 0) eqn:E2; [apply Z.ltb_lt in E2; lia|].
  rewrite !Z.min_l by lia.
  apply list_elem_of_In, list_elem_of_lookup.
  exists (j - Z.to_nat lo)%nat.
  rewrite lookup_take_lt by lia. rewrite lookup_drop.
  replace (Z.to_nat lo + (j - Z.to_nat lo))%nat with j by lia. exact Hj.
Qed.

Lemma update_last_In {A} (f : A -> A) l c :
  In c l -> In c (update_last f l) \/ In (f c) (update_last f l).
Proof.
  destruct l as [|x pre] using rev_ind; [intros []|].
  rewrite update_last_snoc, !in_app_iff. cbn [In].
  intros [H | [-> | []]]; auto.
Qed.

Lemma chunk_step_keeps msgs W O acc i m :
  covered acc m -> covered (chunk_step msgs W O acc i) m.
Proof.
  destruct acc as [chunks metadata]. intros (c & Hc & Hm). cbn [fst] in Hc.
  unfold chunk_step, covered.
  destruct ((Z.min (i + W) (len msgs) - i <? W / 2) && nonempty chunks); cbn [fst].
  - destruct (update_last_In (fun c => c ++ slice msgs i (Z.min (i + W) (len msgs)))
                chunks c Hc) as [H | H].
    + exists c. auto.
    + eexists. split; [exact H|]. apply in_app_iff. auto.
  - exists c. split; [apply in_app_iff; auto | exact Hm].
Qed.

Lemma chunk_step_adds msgs W O acc i m :
  In m (slice msgs i (Z.min (i + W) (len msgs))) ->
  covered (chunk_step msgs W O acc i) m.
Proof.
  destruct acc as [chunks metadata]. intros Hm. unfold chunk_step, covered.
  destruct ((Z.min (i + W) (len msgs) - i <? W / 2) && nonempty chunks) eqn:E;
    cbn [fst].
  - apply andb_true_iff in E as [_ Hne].
    destruct chunks as [|x pre] using rev_ind; [discriminate|].
    rewrite update_last_snoc. eexists. split.
    + apply in_app_iff. right. left. reflexivity.
    + apply in_app_iff. auto.
  - eexists. split; [apply in_app_iff; right; left; reflexivity | exact Hm].
Qed.

Lemma fold_chunk_step_keeps msgs W O range m : forall acc,
  covered acc m -> covered (fold_left (chunk_step msgs W O) range acc) m.
Proof.
  induction range as [|i range IH]; intros acc H; cbn [fold_left]; [exact H|].
  apply IH, chunk_step_keeps, H.
Qed.

Lemma fold_chunk_step_adds msgs W O range i m : forall acc,
  In i range ->
  In m (slice msgs i (Z.min (i + W) (len msgs))) ->
  covered (fold_left (chunk_step msgs W O) range acc) m.
Proof.
  induction range as [|i0 range IH]; intros acc Hi Hm; [destruct Hi|].
  cbn [fold_left]. destruct Hi as [-> | Hi].
  - apply fold_chunk_step_keeps, chunk_step_adds, Hm.
  - apply IH; assumption.
Qed.

(** The part of the coverage property that holds: every message of the
    input occurs in at least one chunk. *)
Lemma chunks_cover_every_message msgs :
  exists chunks metadata,
    _create_overlapping_chunks msgs 8 2 = Ok (chunks, metadata) /\
    forall j m, msgs !! j = Some m ->
      exists chunk, In chunk chunks /\ In m chunk.
Proof.
  unfold _create_overlapping_chunks.
  destruct (len msgs <=? 8) eqn:E.
  - eexists _, _. split; [reflexivity|]. intros j m Hj.
    exists msgs. split; [left; reflexivity|].
    apply list_elem_of_In, list_elem_of_lookup. eauto.
  - apply Z.leb_gt in E. change (8 - 2) with 6. cbn [Z.eqb Z.ltb Z.compare].
    destruct (fold_left (chunk_step msgs 8 2) (range0 (len msgs) 6) ([], []))
      as [chunks metadata] eqn:Hf.
    exists chunks, metadata. split; [reflexivity|]. intros j m Hj.
    change chunks with (fst (chunks, metadata)). rewrite <- Hf.
    apply lookup_lt_Some in Hj as Hlt. unfold len in *.
    set (q := Z.of_nat j / 6).
    assert (0 <= q /\ 6 * q <= Z.of_nat j < 6 * q + 6) as (Hq0 & Hq).
    { subst q. pose proof (Z.div_mod (Z.of_nat j) 6 ltac:(lia)).
      pose proof (Z.mod_pos_bound (Z.of_nat j) 6 ltac:(lia)).
      split; [apply Z.div_pos; lia | lia]. }
    apply (fold_chunk_step_adds msgs 8 2 _ (q * 6)).
    + unfold range0. apply in_map_iff. exists (Z.to_nat q).
      split; [lia|]. apply in_seq.
      assert (q + 1 <= (Z.of_nat (length msgs) + 6 - 1) / 6)
        by (apply Z.div_le_lower_bound; lia).
      lia.
    + apply (slice_lookup msgs _ _ j); [lia | unfold len; lia | exact Hj].
Qed.

End CoverageFacts.

(** ** Slices, containment and the code check *)

Module SliceFacts.

Lemma slice_to_take {A} (l : list A) k :
  0 <= k -> slice_to l k = take (Z.to_nat k) l.
Proof.
  intros Hk. unfold slice_to, slice, clamp_index, len. cbn [Z.ltb Z.compare].
  destruct (k <? 0) eqn:E; [apply Z.ltb_lt in E; lia|].
  rewrite (Z.min_l 0) by lia. change (Z.to_nat 0) with 0%nat.
  rewrite drop_0, Nat.sub_0_r.
  destruct (Z.le_ge_cases k (Z.of_nat (length l))).
  - rewrite Z.min_l by lia. reflexivity.
  - rewrite Z.min_r by lia. rewrite Nat2Z.id.
    rewrite !take_ge by lia. reflexivity.
Qed.

Lemma slice_from_drop {A} (l : list A) k :
  0 <= k -> slice_from l k = drop (Z.to_nat k) l.
Proof.
  intros Hk. unfold slice_from, slice, clamp_index, len.
  destruct (k <? 0) eqn:E; [apply Z.ltb_lt in E; lia|].
  destruct (Z.of_nat (length l) <? 0) eqn:E'; [apply Z.ltb_lt in E'; lia|].
  rewrite Z.min_id, Nat2Z.id.
  destruct (Z.le_ge_cases k (Z.of_nat (length l))).
  - rewrite Z.min_l by lia. apply take_ge. rewrite length_drop. lia.
  - rewrite Z.min_r by lia. rewrite Nat2Z.id, Nat.sub_diag.
    rewrite !drop_ge by lia. reflexivity.
Qed.

Lemma slice_to_from {A} (l : list A) k :
  0 <= k -> slice_to l k ++ slice_from l k = l.
Proof.
  intros Hk. rewrite slice_to_take, slice_from_drop by assumption.
  apply take_drop.
Qed.

Lemma len_slice_to {A} (l : list A) k :
  0 <= k -> len (slice_to l k) = Z.min k (len l).
Proof.
  intros Hk. rewrite slice_to_take by assumption. unfold len.
  rewrite length_take. lia.
Qed.

End SliceFacts.

Module ContainsFacts.

Lemma contains_unfold needle hay :
  contains needle hay =
  startswith hay needle ||
  match hay with [] => false | _ :: hay' => contains needle hay' end.
Proof. destruct hay; reflexivity. Qed.

Lemma startswith_app needle rest : startswith (needle ++ rest) needle = true.
Proof.
  induction needle as [|c needle IH]; cbn; [destruct rest; reflexivity|].
  unfold chr_eqb. rewrite Ascii.eqb_refl. exact IH.
Qed.

Lemma contains_nil hay : contains [] hay = true.
Proof. rewrite contains_unfold. destruct hay; reflexivity. Qed.

(** A string occurs in every text built around it. *)
Lemma contains_app before needle after :
  contains needle (before ++ needle ++ after) = true.
Proof.
  induction before as [|c before IH].
  - cbn [app]. rewrite contains_unfold, startswith_app. reflexivity.
  - cbn [app]. rewrite contains_unfold, IH. apply orb_true_r.
Qed.

(** Two prefixes of one string: one is a prefix of the other. *)
Lemma startswith_comparable (t : str) : forall a b : str,
  startswith t a = true -> startswith t b = true ->
  startswith a b || startswith b a = true.
Proof.
  induction t as [|c t IH]; intros [|x a] [|y b] Ha Hb; try reflexivity;
    try discriminate.
  cbn in Ha, Hb |- *.
  apply andb_true_iff in Ha as [Hx Ha]. apply andb_true_iff in Hb as [Hy Hb].
  apply Ascii.eqb_eq in Hx, Hy. subst x y.
  unfold chr_eqb. rewrite Ascii.eqb_refl. cbn [andb]. apply IH; assumption.
Qed.

End ContainsFacts.

Module FidelityFacts.

Import OllamaProcessor Spec ContainsFacts.

Lemma render_block_code block :
  exists before after, render_block block = before ++ code block ++ after.
Proof.
  unfold render_block.
  destruct (nonempty (language block) && negb (str_eqb (language block) (lit "text"))).
  - exists (lit "```" ++ language block ++ NL),
           (NL ++ lit "```" ++ NLNL).
    rewrite <- !app_assoc. reflexivity.
  - exists (lit "```" ++ NL), (NL ++ lit "```" ++ NLNL).
    rewrite <- !app_assoc. reflexivity.
Qed.

Lemma concat_render_code block blocks :
  In block blocks ->
  exists before after,
    concat (map render_block blocks) = before ++ code block ++ after.
Proof.
  induction blocks as [|b blocks IH]; intros Hin; [destruct Hin|].
  cbn [map concat]. destruct Hin as [-> | Hin].
  - destruct (render_block_code block) as (x & y & ->).
    exists x, (y ++ concat (map render_block blocks)).
    rewrite <- !app_assoc. reflexivity.
  - destruct (IH Hin) as (x & y & ->).
    exists (render_block b ++ x), y. rewrite <- !app_assoc. reflexivity.
Qed.

(** A block the check declares missing is appended verbatim. *)
Lemma missing_block_is_appended summary blocks block :
  In block blocks -> is_missing summary block = true ->
  contains (code block) (_ensure_code_blocks_present summary blocks) = true.
Proof.
  intros Hin Hmiss. unfold _ensure_code_blocks_present.
  destruct blocks as [|b0 blocks']; [destruct Hin|]. cbn [nonempty negb].
  set (blocks := b0 :: blocks') in *.
  assert (In block (List.filter (is_missing summary) blocks)) as Hf
    by (apply List.filter_In; auto).
  destruct (List.filter (is_missing summary) blocks) as [|m ms] eqn:E;
    [destruct Hf|]. cbn [nonempty].
  destruct (concat_render_code block (m :: ms) Hf) as (x & y & ->).
  rewrite !app_assoc. rewrite <- (app_assoc _ (code block) y).
  apply contains_app.
Qed.

Lemma kept_block_is_found summary block :
  20 <= len (code block) -> is_missing summary block = false ->
  found_in_summary summary block.
Proof.
  intros Hlen. unfold is_missing, found_in_summary.
  destruct (len (code block) <? 20) eqn:E; [apply Z.ltb_lt in E; lia|].
  destruct (contains (normalize_ws (code block)) (normalize_ws summary));
    [auto|]. cbn [negb].
  destruct (2 <? len (split_nl (code block))) eqn:E2; [|discriminate].
  apply Z.ltb_lt in E2. intros H. right. split; [assumption|].
  destruct (strip (default [] (head (split_nl (code block))))) as [|c f];
    [left; apply contains_nil|].
  destruct (strip (default [] (last (split_nl (code block))))) as [|c' l'];
    [right; apply contains_nil|].
  cbn [nonempty andb] in H.
  destruct (contains (c :: f) summary); [auto|].
  destruct (contains (c' :: l') summary); [auto | discriminate].
Qed.

(** The check only ever appends to the summary. *)
Lemma ensure_extends summary blocks :
  exists suffix, _ensure_code_blocks_present summary blocks = summary ++ suffix.
Proof.
  unfold _ensure_code_blocks_present.
  destruct (negb (nonempty blocks)); [exists []; symmetry; apply app_nil_r|].
  destruct (nonempty (List.filter (is_missing summary) blocks));
    [eexists; reflexivity | exists []; symmetry; apply app_nil_r].
Qed.

Lemma ensure_code_blocks_spec summary blocks block :
  In block blocks -> 20 <= len (code block) ->
  contains (code block) (_ensure_code_blocks_present summary blocks) = true \/
  found_in_summary summary block.
Proof.
  intros Hin Hlen. destruct (is_missing summary block) eqn:E.
  - left. apply missing_block_is_appended; assumption.
  - right. apply kept_block_is_found; assumption.
Qed.

End FidelityFacts.

(** ** The compressor *)

Module CompressorFacts.

Import OllamaProcessor Samples Spec.
Import MapStageFacts PipelineFacts SliceFacts.

Lemma reversed_perm n : Permutation (reversed n) (seq 0 n).
Proof. symmetry. apply Permutation_rev. Qed.

(** The inverse reading of [submit_all]: when it returns, every future
    holds the summary of the task of its own position. *)
Lemma submit_all_inv (generate : call -> str -> options -> gen_result)
    chunks cms : forall i rs,
  submit_all generate chunks i cms = Ok rs ->
  length rs = length cms /\
  forall j cm, cms !! j = Some cm ->
    exists s, rs !! j = Some (Ok s) /\
              task_summary generate chunks (i + j) (fst cm) (snd cm) s.
Proof.
  induction cms as [|cm cms IH]; intros i rs; cbn [submit_all].
  - intros [= <-]. split; [reflexivity|]. intros j c H. discriminate.
  - unfold map_task.
    destruct (_create_context_description (Z.of_nat i) chunks (snd cm)) as [ctx|] eqn:Hc;
      [|discriminate].
    cbn [mbind res_bind Py.bind mret res_ret].
    destruct (submit_all generate chunks (S i) cms) as [rs'|] eqn:Hs; [|discriminate].
    intros [= <-]. destruct (IH _ _ Hs) as [Hl Hrs].
    split; [simpl; lia|]. intros [|j] c Hj.
    + injection Hj as <-. eexists. split; [reflexivity|].
      exists ctx. rewrite Nat.add_0_r. auto.
    + replace (i + S j)%nat with (S i + j)%nat by lia. apply Hrs. exact Hj.
Qed.

(** With more than twelve historical messages and a positive number of
    workers, [process_conversation] returns. *)
Lemma process_conversation_returns
    (generate : call -> str -> options -> gen_result) (order : nat -> list nat)
    (messages : list ChatMessage) (max_tokens max_workers preserve_recent : Z) :
  (forall n, Permutation (order n) (seq 0 n)) ->
  0 < max_workers ->
  12 < len (historical_of messages preserve_recent) ->
  exists summarized,
    _hierarchical_summarize generate order (historical_of messages preserve_recent)
      max_tokens max_workers = Ok summarized /\
    process_conversation generate order messages max_tokens max_workers preserve_recent
    = Ok (_ensure_code_blocks_present summarized
            (_extract_code_blocks (historical_of messages preserve_recent)),
          slice_from messages (Z.max (len messages - preserve_recent) 1)).
Proof.
  intros Hperm Hw Hh. unfold process_conversation. fold (historical_of messages preserve_recent).
  assert ((len messages <=? preserve_recent) = false) as ->.
  { apply Z.leb_gt. unfold historical_of in Hh. rewrite len_slice_to in Hh by lia. lia. }
  assert ((len (historical_of messages preserve_recent) <=? 12) = false) as ->
    by (apply Z.leb_gt; lia).
  destruct (hierarchical_summarize_returns generate order Hperm
              (historical_of messages preserve_recent) max_tokens max_workers Hw)
    as (s & Hs).
  exists s. split; [exact Hs|]. rewrite Hs. reflexivity.
Qed.

End CompressorFacts.

Module ContextPreserverFacts.

Import OllamaProcessor.

(** [compress_with_llama], the unchunked compression of the context
    preserver, hands a failure of the capability on to its caller. *)
Lemma compress_with_llama_propagates
    (gen : str -> gen_result) (messages : list ChatMessage) (e : str) :
  gen (ContextPreserver.compress_prompt (_format_messages messages)) = Failed e ->
  ContextPreserver.compress_with_llama gen messages = Raise (Exception_ e).
Proof. intros H. unfold ContextPreserver.compress_with_llama. rewrite H. reflexivity. Qed.

(** The prompt of the context preserver is the same for every target
    model. *)
Lemma context_preserver_prompt_ignores_target
    (compressed_history : str) (recent_messages : list ChatMessage)
    (code_blocks : list str) (target_llm other_llm : str) :
  ContextPreserver.create_summary_prompt compressed_history recent_messages
    code_blocks target_llm =
  ContextPreserver.create_summary_prompt compressed_history recent_messages
    code_blocks other_llm.
Proof. reflexivity. Qed.

End ContextPreserverFacts.

(** ** Fenced blocks and the extraction pattern *)

Module FenceFacts.
Import OllamaProcessor Fences ContainsFacts.

Lemma m_fence {A} (p : nat) (s : str) cs (k : mstate -> option A) :
  m (lits "```") (MState p s cs) k =
  if startswith s fence then k (MState (3 + p) (drop 3 s) cs) else None.
Proof.
  unfold lits, fence, lit.
  cbn [list_ascii_of_string map seqs fold_right].
  destruct s as [|a s]; [reflexivity|].
  cbn [m rest pos caps startswith]. destruct (chr_eqb "`" a); [|reflexivity].
  destruct s as [|b s]; [reflexivity|].
  cbn [m rest pos caps startswith andb]. destruct (chr_eqb "`" b); [|reflexivity].
  destruct s as [|c s]; [reflexivity|].
  cbn [m rest pos caps startswith andb].
  destruct (chr_eqb "`" c); [|reflexivity]. destruct s; reflexivity.
Qed.

Lemma startswith_nil (s : str) : startswith s [] = true.
Proof. destruct s; reflexivity. Qed.

Lemma startswith_fence_tail (c : ascii) (s rest : str) :
  startswith (c :: s ++ lit "``") fence = startswith (c :: s ++ fence ++ rest) fence.
Proof.
  destruct s as [|a [|b s]]; unfold fence, lit;
    cbn [list_ascii_of_string app startswith]; rewrite ?startswith_nil; reflexivity.
Qed.

Lemma fence_free_cons (c : ascii) (s : str) :
  fence_free (c :: s) = true ->
  (forall rest, startswith (c :: s ++ fence ++ rest) fence = false) /\
  fence_free s = true.
Proof.
  unfold fence_free. cbn [app]. rewrite contains_unfold.
  intros H. apply negb_true_iff, orb_false_iff in H as [H1 H2].
  split; [|rewrite H2; reflexivity].
  intros rest. rewrite <- startswith_fence_tail. exact H1.
Qed.

(** No match of the fenced pattern starts inside a text in which no
    fence starts. *)
Lemma findall_skips_fence_free (pre rest : str) : forall p,
  fence_free pre = true ->
  findall_from code_pattern p 0 (pre ++ fence ++ rest)
  = findall_from code_pattern (p + length pre) 0 (fence ++ rest).
Proof.
  induction pre as [|c pre IH]; intros p H.
  - cbn [app length]. rewrite Nat.add_0_r. reflexivity.
  - destruct (fence_free_cons c pre H) as [Hc Hpre].
    cbn [app length]. cbn [findall_from]. unfold match_at, code_pattern.
    cbn [seqs fold_right m]. rewrite m_fence, Hc.
    rewrite IH by assumption. f_equal. lia.
Qed.

Lemma greedy_run {A} (p : ascii -> bool) (run : str) :
  forall n r (k : nat -> str -> option A) x,
  forallb p run = true ->
  match r with c :: _ => p c = false | [] => True end ->
  k (n + length run)%nat r = Some x ->
  greedy p n (run ++ r) k = Some x.
Proof.
  induction run as [|c run IH]; intros n r k x Hp Hr Hk.
  - cbn [app length] in *. rewrite Nat.add_0_r in Hk.
    destruct r as [|c r]; cbn [greedy]; [exact Hk|].
    rewrite Hr. exact Hk.
  - cbn [forallb] in Hp. apply andb_true_iff in Hp as [Hc Hp].
    cbn [app greedy]. rewrite Hc.
    rewrite (IH (S n) r k x Hp Hr); [reflexivity|].
    cbn [length] in Hk. rewrite <- Hk. f_equal. lia.
Qed.

Lemma lazy_run {A} (body : str) :
  forall n r (k : nat -> str -> option A) x,
  (forall j, (j < length body)%nat -> k (n + j)%nat (drop j body ++ r) = None) ->
  k (n + length body)%nat r = Some x ->
  lazy any n (body ++ r) k = Some x.
Proof.
  induction body as [|c body IH]; intros n r k x Hnone Hk.
  - cbn [app length] in *. rewrite Nat.add_0_r in Hk.
    destruct r; cbn [lazy]; rewrite Hk; reflexivity.
  - cbn [app lazy].
    pose proof (Hnone 0%nat ltac:(cbn; lia)) as H0.
    rewrite Nat.add_0_r in H0. cbn [drop app] in H0. rewrite H0.
    cbn [any]. apply IH.
    + intros j Hj. specialize (Hnone (S j) ltac:(cbn; lia)).
      cbn [drop] in Hnone. rewrite <- Hnone. f_equal. lia.
    + cbn [length] in Hk. rewrite <- Hk. f_equal. lia.
Qed.

Lemma fence_free_drop (body : str) : forall j rest,
  fence_free body = true -> (j < length body)%nat ->
  startswith (drop j body ++ fence ++ rest) fence = false.
Proof.
  induction body as [|c body IH]; intros j rest H Hj; [cbn in Hj; lia|].
  destruct (fence_free_cons c body H) as [Hc Hb].
  destruct j as [|j]; [apply Hc|].
  cbn [drop]. apply IH; [exact Hb | cbn in Hj; lia].
Qed.

Lemma isword_nl : isword nl = false.
Proof. reflexivity. Qed.

(** The match of the fenced pattern at an opening fence. *)
Lemma match_at_fenced (p : nat) (lang code post : str) :
  forallb isword lang = true -> fence_free code = true ->
  exists st,
    match_at code_pattern p (fence ++ lang ++ NL ++ code ++ fence ++ post) = Some st /\
    group 1 (caps st) = lang /\ group 2 (caps st) = code /\
    pos st = (p + length (fence ++ lang ++ NL ++ code ++ fence))%nat.
Proof.
  intros Hl Hb. unfold match_at, code_pattern.
  cbn [seqs fold_right m]. rewrite m_fence.
  rewrite startswith_app.
  change (drop 3 (fence ++ lang ++ NL ++ code ++ fence ++ post))
    with (lang ++ NL ++ code ++ fence ++ post).
  cbn [m pos rest caps].
  eexists. split.
  - apply greedy_run; [exact Hl | exact isword_nl |].
    cbn [NL app pos rest caps]. change (is_nl nl) with true. cbv iota.
    cbn [m pos rest caps].
    apply lazy_run.
    + intros j Hj. rewrite m_fence.
      rewrite (fence_free_drop code j post Hb Hj). reflexivity.
    + rewrite m_fence.
      rewrite startswith_app. cbn [m]. reflexivity.
  - cbn [caps pos rest group Nat.eqb].
    split; [|split].
    + replace (3 + p + length lang - (3 + p))%nat with (length lang) by lia.
      apply take_app_length.
    + replace (S (3 + p + length lang) + length code - S (3 + p + length lang))%nat
        with (length code) by lia.
      apply take_app_length.
    + rewrite !length_app. cbn [NL fence lit list_ascii_of_string length]. lia.
Qed.

Lemma findall_from_skipping (r : re) (x : str) : forall p rest,
  findall_from r p (length x) (x ++ rest) = findall_from r (p + length x) 0 rest.
Proof.
  induction x as [|c x IH]; intros p rest.
  - cbn [length app]. rewrite Nat.add_0_r. reflexivity.
  - cbn [length app findall_from]. rewrite IH. f_equal. lia.
Qed.

(** Scanning a text before a fenced block and the block: one match, of
    that block, and the scan resumes after the closing fence. *)
Lemma findall_fenced (f : fenced) (rest : str) (p : nat) :
  well_fenced f ->
  exists st p',
    group 1 (caps st) = tag f /\ group 2 (caps st) = body f /\
    findall_from code_pattern p 0
      (before f ++ fence ++ tag f ++ NL ++ body f ++ fence ++ rest)
    = st :: findall_from code_pattern p' 0 rest.
Proof.
  intros (Hpre & Hl & Hb).
  rewrite findall_skips_fence_free by assumption.
  destruct (match_at_fenced (p + length (before f)) (tag f) (body f) rest Hl Hb)
    as (st & Hst & H1 & H2 & Hpos).
  exists st, (p + length (before f)
              + length (fence ++ tag f ++ NL ++ body f ++ fence))%nat.
  split; [exact H1|]. split; [exact H2|].
  remember (tag f ++ NL ++ body f ++ fence) as inner.
  assert (E : fence ++ tag f ++ NL ++ body f ++ fence ++ rest
              = "`"%char :: (("`"%char :: "`"%char :: inner) ++ rest)).
  { subst inner. cbn [fence lit list_ascii_of_string app].
    rewrite <- !app_assoc. reflexivity. }
  rewrite E in *. cbn [findall_from]. rewrite Hst. f_equal.
  replace (pos st - (p + length (before f)) - 1)%nat
    with (length ("`"%char :: "`"%char :: inner)).
  - rewrite findall_from_skipping. f_equal.
    replace (fence ++ tag f ++ NL ++ body f ++ fence) with (fence ++ inner)
      by (subst inner; reflexivity).
    cbn [fence lit list_ascii_of_string app length]. lia.
  - rewrite Hpos.
    replace (fence ++ tag f ++ NL ++ body f ++ fence) with (fence ++ inner)
      by (subst inner; reflexivity).
    cbn [fence lit list_ascii_of_string app length]. lia.
Qed.

(** Every well fenced block of a rendered text is matched. *)
Lemma findall_render (blocks : list fenced) (tail : str) (f : fenced) : forall p,
  Forall well_fenced blocks -> In f blocks ->
  exists st,
    In st (findall_from code_pattern p 0 (render blocks tail)) /\
    group 1 (caps st) = tag f /\ group 2 (caps st) = body f.
Proof.
  induction blocks as [|g blocks IH]; intros p Hw Hin; [destruct Hin|].
  inversion Hw as [|? ? Hg Hrest]; subst. cbn [render].
  destruct (findall_fenced g (render blocks tail) p Hg) as (st & p' & H1 & H2 & ->).
  destruct Hin as [<- | Hin].
  - exists st. split; [left; reflexivity | auto].
  - destruct (IH p' Hrest Hin) as (st' & Hst' & H').
    exists st'. split; [right; exact Hst' | exact H'].
Qed.

End FenceFacts.

Module FenceExtraction.
Import OllamaProcessor Fences FenceFacts ContainsFacts.

(** Every well fenced block of a message is extracted. *)
Lemma fenced_block_is_extracted (msg : ChatMessage) (blocks : list fenced)
    (tail : str) (f : fenced) :
  content msg = render blocks tail ->
  Forall well_fenced blocks -> In f blocks ->
  strip (body f) <> [] ->
  In (block_of (tag f) (body f)) (blocks_of_message msg).
Proof.
  intros E Hw Hin Hne. unfold blocks_of_message.
  apply in_or_app. left. apply in_flat_map.
  destruct (findall_render blocks tail f 0 Hw Hin) as (st & Hst & H1 & H2).
  exists st. split; [rewrite E; exact Hst|].
  rewrite H1, H2. unfold block_of.
  destruct (strip (body f)); [congruence|]. left. reflexivity.
Qed.

Lemma fenced_block_in_history (messages : list ChatMessage) (msg : ChatMessage)
    (blocks : list fenced) (tail : str) (f : fenced) :
  In msg messages ->
  content msg = render blocks tail ->
  Forall well_fenced blocks -> In f blocks ->
  strip (body f) <> [] ->
  In (block_of (tag f) (body f)) (_extract_code_blocks messages).
Proof.
  intros Hmsg E Hw Hin Hne. unfold _extract_code_blocks. apply in_flat_map.
  exists msg. split; [exact Hmsg|].
  apply (fenced_block_is_extracted msg blocks tail f); assumption.
Qed.

End FenceExtraction.

Module CompressorClaims.

Import OllamaProcessor Samples Spec Fences.
Import MapStageFacts PipelineFacts SliceFacts ContainsFacts FidelityFacts.
Import CompressorFacts FenceExtraction.

(** C1: a conversation with between one and twelve historical messages
    makes [process_conversation] raise: it calls [_format_and_summarize],
    which the class does not define. *)
Theorem small_history_raises
    (generate : call -> str -> options -> gen_result) (order : nat -> list nat)
    (messages : list ChatMessage) (max_tokens max_workers preserve_recent : Z) :
  0 <= preserve_recent ->
  preserve_recent < len messages <= preserve_recent + 12 ->
  process_conversation generate order messages max_tokens max_workers preserve_recent
  = Raise (AttributeError (lit "_format_and_summarize")).
Proof.
  intros Hp Hl. unfold process_conversation.
  destruct (len messages <=? preserve_recent) eqn:E; [apply Z.leb_le in E; lia|].
  rewrite len_slice_to by lia.
  destruct (Z.min (Z.max (len messages - preserve_recent) 1) (len messages) <=? 12) eqn:E2;
    [reflexivity | apply Z.leb_gt in E2; lia].
Qed.

Lemma small_history_raises_witness :
  process_conversation unrelated reversed (transcript 4) 4000 3 3
  = Raise (AttributeError (lit "_format_and_summarize")).
Proof.
  apply (small_history_raises unrelated reversed (transcript 4) 4000 3 3).
  - lia.
  - vm_compute. split; [reflexivity | discriminate].
Defined.

(** C2, as stated, fails in two ways.  When the summary holds the first
    line of a block of three lines, the check takes the block as present
    and the history does not contain the block.  And a block whose fence
    is tagged "c++" is not extracted at all (the pattern wants word
    characters and a newline after the fence): with an unrelated summary
    the history is that summary, without the block and without the
    section of code blocks. *)
Lemma code_blocks_can_be_lost :
  (exists h recent,
     process_conversation echo_first_line in_order code_transcript 4000 3 3
     = Ok (h, recent) /\
     In the_block (_extract_code_blocks (historical_of code_transcript 3)) /\
     20 <= len (code the_block) /\
     h = lit "import os" /\
     contains (code the_block) h = false) /\
  (exists h recent first,
     process_conversation unrelated in_order cpp_transcript 4000 3 3
     = Ok (h, recent) /\
     historical_of cpp_transcript 3 !! 0%nat = Some first /\
     content first = lit "Here it is:
" ++ fence ++ lit "c++" ++ NL ++ cpp_code ++ NL ++ fence /\
     20 <= len cpp_code /\
     _extract_code_blocks (historical_of cpp_transcript 3) = [] /\
     h = lit "They talked about files." /\
     contains cpp_code h = false).
Proof.
  split.
  - eexists _, _. split; [vm_compute; reflexivity|].
    split; [vm_compute; left; reflexivity|].
    split; [vm_compute; discriminate|].
    split; reflexivity.
  - eexists _, _, _. split; [vm_compute; reflexivity|].
    split; [vm_compute; reflexivity|].
    split; [reflexivity|].
    split; [vm_compute; discriminate|].
    split; [vm_compute; reflexivity|].
    split; reflexivity.
Qed.

(** C2 (amended): when [process_conversation] returns, every fenced
    block of a historical message made of texts and fenced blocks with
    a tag of word characters, and every block the extraction returns,
    if its code has at least 20 characters, is either contained verbatim
    in the compressed history, or was found by the check in the summary
    the reduce phase produced: its whitespace-normalized text, or, for a
    block of more than two lines, its first or its last line. *)
Theorem code_blocks_survive
    (generate : call -> str -> options -> gen_result) (order : nat -> list nat)
    (messages : list ChatMessage) (max_tokens max_workers preserve_recent : Z)
    (h : str) (recent : list ChatMessage) :
  process_conversation generate order messages max_tokens max_workers preserve_recent
  = Ok (h, recent) ->
  exists historical summarized,
    messages = historical ++ recent /\
    (historical = [] /\ summarized = lit "" \/
     _hierarchical_summarize generate order historical max_tokens max_workers
     = Ok summarized) /\
    h = _ensure_code_blocks_present summarized (_extract_code_blocks historical) /\
    (exists appended, h = summarized ++ appended) /\
    (forall block,
       In block (_extract_code_blocks historical) -> 20 <= len (code block) ->
       contains (code block) h = true \/ found_in_summary summarized block) /\
    (forall msg blocks tail f,
       In msg historical ->
       content msg = render blocks tail -> Forall well_fenced blocks ->
       In f blocks -> 20 <= len (strip (body f)) ->
       contains (strip (body f)) h = true \/
       found_in_summary summarized (block_of (tag f) (body f))).
Proof.
  intros Hrun.
  assert (Hold : exists historical summarized,
    messages = historical ++ recent /\
    (historical = [] /\ summarized = lit "" \/
     _hierarchical_summarize generate order historical max_tokens max_workers
     = Ok summarized) /\
    h = _ensure_code_blocks_present summarized (_extract_code_blocks historical) /\
    (exists appended, h = summarized ++ appended) /\
    (forall block,
       In block (_extract_code_blocks historical) -> 20 <= len (code block) ->
       contains (code block) h = true \/ found_in_summary summarized block)).
  { revert Hrun. unfold process_conversation.
    destruct (len messages <=? preserve_recent).
    - intros [= <- <-]. exists [], []. split; [reflexivity|]. split; [left; auto|].
      split; [reflexivity|]. split; [exists []; reflexivity|]. intros block [].
    - set (k := Z.max (len messages - preserve_recent) 1).
      destruct (len (slice_to messages k) <=? 12); [discriminate|].
      destruct (_hierarchical_summarize generate order (slice_to messages k)
                  max_tokens max_workers) as [summarized|] eqn:Hs; [|discriminate].
      intros [= <- <-]. exists (slice_to messages k), summarized.
      split; [symmetry; apply slice_to_from; lia|]. split; [right; exact Hs|].
      split; [reflexivity|]. split; [apply ensure_extends|].
      intros block Hin Hlen. apply ensure_code_blocks_spec; assumption. }
  destruct Hold as (historical & summarized & Hm & Hs & Hh & Happ & Hblocks).
  exists historical, summarized.
  repeat (split; [assumption|]).
  intros msg blocks tail f Hmsg Hc Hw Hf Hlen.
  apply (Hblocks (block_of (tag f) (body f))); [|exact Hlen].
  apply (fenced_block_in_history historical msg blocks tail f); try assumption.
  intros E. rewrite E in Hlen. unfold len in Hlen. simpl in Hlen. lia.
Qed.

Lemma code_blocks_survive_witness :
  exists h recent,
    process_conversation unrelated reversed code_transcript 4000 3 3 = Ok (h, recent) /\
    contains (lit "## Important Code Blocks") h = true /\
    exists summarized,
      contains (code the_block) h = true \/ found_in_summary summarized the_block.
Proof.
  eexists _, _. split; [vm_compute; reflexivity|].
  split; [vm_compute; reflexivity|].
  destruct (code_blocks_survive unrelated reversed code_transcript 4000 3 3 _ _
              ltac:(vm_compute; reflexivity))
    as (historical & summarized & Hm & _ & _ & _ & _ & Hfenced).
  exists summarized.
  assert (Hhist : historical = firstn 13 code_transcript).
  { apply (app_inv_tail (skipn 13 code_transcript)).
    rewrite firstn_skipn. symmetry. exact Hm. }
  apply (Hfenced (mkMsg (lit "user") (lit "Here it is:
```python
import os
print(os.getcwd())
print(12345678)
```"))
           [mkFenced (lit "Here it is:
") (lit "python") (lit "import os
print(os.getcwd())
print(12345678)
")] [] (mkFenced (lit "Here it is:
") (lit "python") (lit "import os
print(os.getcwd())
print(12345678)
"))).
  - rewrite Hhist. left. reflexivity.
  - reflexivity.
  - constructor; [|constructor]. repeat split.
  - left. reflexivity.
  - vm_compute. discriminate.
Defined.

(** C6: whatever the order in which the map tasks complete, the map stage
    hands over the same list, and it holds the summary of each chunk at
    the position of that chunk. *)
Theorem summaries_follow_chunk_order
    (generate : call -> str -> options -> gen_result)
    (order order' : nat -> list nat)
    (chunks : list (list ChatMessage)) (metadata : list chunk_meta)
    (max_workers : Z) :
  (forall n, Permutation (order n) (seq 0 n)) ->
  (forall n, Permutation (order' n) (seq 0 n)) ->
  _process_chunks_with_context generate order chunks metadata max_workers =
  _process_chunks_with_context generate order' chunks metadata max_workers /\
  forall summaries,
    _process_chunks_with_context generate order chunks metadata max_workers = Ok summaries ->
    forall k chunk meta,
      chunks !! k = Some chunk -> metadata !! k = Some meta ->
      exists s, summaries !! k = Some s /\ task_summary generate chunks k chunk meta s.
Proof.
  intros Hp Hp'. unfold _process_chunks_with_context.
  destruct (max_workers <=? 0); [split; [reflexivity | discriminate]|].
  destruct (submit_all generate chunks 0 (zip chunks metadata)) as [rs|] eqn:Hs;
    [|split; [reflexivity | discriminate]].
  cbn [mbind res_bind Py.bind mret res_ret].
  destruct (submit_all_inv generate chunks _ _ _ Hs) as [Hl Hrs].
  assert (length rs <= length chunks)%nat as Hle
    by (rewrite Hl, length_zip_with; lia).
  rewrite !collect_results_in_order by auto.
  split; [reflexivity|]. intros summaries [= <-] k chunk meta Hc Hm.
  destruct (Hrs k (chunk, meta)) as (s & Hk & Ht);
    [apply lookup_zip_with_Some; eauto|].
  exists s. split; [|exact Ht]. rewrite list_lookup_imap, Hk. reflexivity.
Qed.

Lemma summaries_follow_chunk_order_witness :
  exists first_summary,
    _process_chunks_with_context failing_first reversed
      [turns 0 7; turns 6 13] [mkMeta 0 2 true false; mkMeta 1 2 false true] 3
    = Ok [first_summary; lit "summary"] /\
    _process_chunks_with_context failing_first reversed
      [turns 0 7; turns 6 13] [mkMeta 0 2 true false; mkMeta 1 2 false true] 3 =
    _process_chunks_with_context failing_first in_order
      [turns 0 7; turns 6 13] [mkMeta 0 2 true false; mkMeta 1 2 false true] 3.
Proof.
  eexists. split; [vm_compute; reflexivity|].
  apply (summaries_follow_chunk_order failing_first reversed in_order).
  - apply reversed_perm.
  - intros n. reflexivity.
Defined.

(** C7, as stated, fails: the slot of a failed chunk holds the failure
    marker and the first 500 characters of the rendering of the chunk,
    not the rendering. *)
Lemma failed_chunk_is_truncated :
  exists chunks metadata summaries chunk0 slot0,
    _create_overlapping_chunks (historical_of long_transcript 3) 8 2
      = Ok (chunks, metadata) /\
    _process_chunks_with_context failing_first in_order chunks metadata 3
      = Ok summaries /\
    chunks !! 0%nat = Some chunk0 /\
    summaries !! 0%nat = Some slot0 /\
    summaries !! 1%nat = Some (lit "summary") /\
    length summaries = 2%nat /\
    startswith slot0 (lit "[Summarization failed: timeout]") = true /\
    contains (_format_messages chunk0) slot0 = false.
Proof.
  eexists _, _, _, _, _.
  split; [vm_compute; reflexivity|].
  split; [vm_compute; reflexivity|].
  split; [reflexivity|]. split; [reflexivity|]. split; [reflexivity|].
  split; [reflexivity|]. split; vm_compute; reflexivity.
Qed.

(** C7 (amended): with more than twelve historical messages, a positive
    number of workers and any answers of the capability,
    [process_conversation] returns; the slot of a chunk whose generation
    failed holds the marker [[Summarization failed: e]], a blank line, the
    first 500 characters of the rendering of that chunk and three dots,
    and the slot of every other chunk holds its generated summary. *)
Theorem failed_chunk_is_contained
    (generate : call -> str -> options -> gen_result) (order : nat -> list nat)
    (messages : list ChatMessage) (max_tokens max_workers preserve_recent : Z) :
  (forall n, Permutation (order n) (seq 0 n)) ->
  0 < max_workers ->
  12 < len (historical_of messages preserve_recent) ->
  exists chunks metadata summaries h recent,
    _create_overlapping_chunks (historical_of messages preserve_recent) 8 2
      = Ok (chunks, metadata) /\
    _process_chunks_with_context generate order chunks metadata max_workers
      = Ok summaries /\
    process_conversation generate order messages max_tokens max_workers preserve_recent
      = Ok (h, recent) /\
    length summaries = length chunks /\
    forall k chunk,
      chunks !! k = Some chunk ->
      exists meta ctx,
        metadata !! k = Some meta /\
        _create_context_description (Z.of_nat k) chunks meta = Ok ctx /\
        summaries !! k = Some
          match generate (MapCall k) (map_prompt (_format_messages chunk) ctx meta)
                  (mkOptions (1 # 10) 2048 (8 # 10)) with
          | Generated text => text
          | Failed e =>
              lit "[Summarization failed: " ++ e ++ lit "]" ++ NLNL
              ++ slice_to (_format_messages chunk) 500 ++ lit "..."
          end.
Proof.
  intros Hperm Hw Hh.
  destruct (create_chunks_spec (historical_of messages preserve_recent))
    as (chunks & metadata & Hc & Hwc).
  destruct (process_chunks_spec generate order Hperm chunks metadata max_workers Hw Hwc)
    as (summaries & Hs & Hl & Hslots).
  destruct (process_conversation_returns generate order messages max_tokens
              max_workers preserve_recent Hperm Hw Hh) as (summarized & _ & Hpc).
  eexists chunks, metadata, summaries, _, _.
  split; [exact Hc|]. split; [exact Hs|]. split; [exact Hpc|]. split; [exact Hl|].
  intros k chunk Hk.
  destruct Hwc as [Hlen _]. cbn [fst snd] in Hlen.
  destruct (metadata !! k) as [meta|] eqn:Hm;
    [|apply lookup_ge_None in Hm; apply lookup_lt_Some in Hk; lia].
  destruct (Hslots k chunk meta Hk Hm) as (s & Hsk & ctx & Hctx & ->).
  exists meta, ctx. split; [reflexivity|]. split; [exact Hctx|].
  rewrite Hsk. reflexivity.
Qed.

Lemma failed_chunk_is_contained_witness :
  exists h recent,
    process_conversation failing_first reversed long_transcript 4000 3 3 = Ok (h, recent).
Proof.
  destruct (failed_chunk_is_contained failing_first reversed long_transcript 4000 3 3)
    as (chunks & metadata & summaries & h & recent & _ & _ & Hpc & _).
  - apply reversed_perm.
  - lia.
  - vm_compute. reflexivity.
  - exists h, recent. exact Hpc.
Defined.

(** X30: the labels around the continuation prompt of the compressor
    depend on the target model only through the three family prefixes;
    a target of none of the three families gets the prompt without
    labels. *)
Theorem sentinel_labels_by_family
    (summarized_history : str) (recent_messages : list ChatMessage)
    (code_blocks : list code_block) (target_llm : str) :
  let body := prompt_content summarized_history recent_messages in
  let prompt := create_summary_prompt summarized_history recent_messages
                  code_blocks target_llm in
  (startswith target_llm (lit "gpt-") = true ->
   prompt = lit "System: " ++ instruction ++ NLNL ++ body ++ NLNL ++ lit "User: ") /\
  (startswith target_llm (lit "claude-") = true ->
   prompt = lit "Human: " ++ instruction ++ NLNL ++ body ++ NLNL ++ lit "Human: ") /\
  (startswith target_llm (lit "gemini-") = true ->
   prompt = lit "User: " ++ instruction ++ NLNL ++ body ++ NLNL ++ lit "User: ") /\
  (startswith target_llm (lit "gpt-") = false ->
   startswith target_llm (lit "claude-") = false ->
   startswith target_llm (lit "gemini-") = false ->
   prompt = instruction ++ NLNL ++ body ++ NLNL) /\
  (forall other_llm,
     startswith other_llm (lit "gpt-") = startswith target_llm (lit "gpt-") ->
     startswith other_llm (lit "claude-") = startswith target_llm (lit "claude-") ->
     startswith other_llm (lit "gemini-") = startswith target_llm (lit "gemini-") ->
     create_summary_prompt summarized_history recent_messages code_blocks other_llm
     = prompt).
Proof.
  intros body prompt. subst body prompt. unfold create_summary_prompt.
  assert (Hex : forall a b : str,
            startswith a b || startswith b a = false ->
            startswith target_llm a = true ->
            startswith target_llm b = false).
  { intros a b Hab Ha. destruct (startswith target_llm b) eqn:Hb; [|reflexivity].
    rewrite (startswith_comparable target_llm a b Ha Hb) in Hab. discriminate. }
  repeat split.
  - intros ->. reflexivity.
  - intros Hc. rewrite (Hex (lit "claude-") (lit "gpt-") eq_refl Hc), Hc.
    reflexivity.
  - intros Hg.
    rewrite (Hex (lit "gemini-") (lit "gpt-") eq_refl Hg),
      (Hex (lit "gemini-") (lit "claude-") eq_refl Hg), Hg.
    reflexivity.
  - intros -> -> ->. reflexivity.
  - intros other -> -> ->. reflexivity.
Qed.

Lemma sentinel_labels_by_family_witness :
  create_summary_prompt (lit "H") [] [] (lit "claude-3-opus")
  = lit "Human: " ++ instruction ++ NLNL ++ prompt_content (lit "H") [] ++ NLNL
    ++ lit "Human: ".
Proof.
  destruct (sentinel_labels_by_family (lit "H") [] [] (lit "claude-3-opus"))
    as (_ & Hclaude & _).
  exact (Hclaude eq_refl).
Defined.

(** C9, on the prompt builder of the context preserver (the one the
    endpoint calls): the function takes the target model and never
    looks at it.  Every target gets the prompt of a target of no family:
    the instruction first, no label before it and none at the end.  For
    the targets "gpt-4", "claude-3" and "gemini-pro" the prompt builder
    of the compressor puts the labels of the family, and this one does
    not: with the history "They talked about files.", no recent message
    and no code block, "gpt-4" gets the unlabeled text. *)
Theorem preserver_prompt_has_no_labels
    (compressed_history : str) (recent_messages : list ChatMessage)
    (code_blocks : list str) (target_llm : str) :
  ContextPreserver.create_summary_prompt compressed_history recent_messages
    code_blocks target_llm
  = ContextPreserver.create_summary_prompt compressed_history recent_messages
      code_blocks (lit "llama-3") /\
  (exists body,
     ContextPreserver.create_summary_prompt compressed_history recent_messages
       code_blocks target_llm
     = ContextPreserver.instruction ++ NLNL ++ body ++ NLNL) /\
  (forall label, In label [lit "System: "; lit "Human: "; lit "User: "] ->
     startswith (ContextPreserver.create_summary_prompt compressed_history
                   recent_messages code_blocks target_llm) label = false) /\
  (startswith (create_summary_prompt compressed_history recent_messages []
                 (lit "gpt-4")) (lit "System: ") = true /\
   startswith (create_summary_prompt compressed_history recent_messages []
                 (lit "claude-3")) (lit "Human: ") = true /\
   startswith (create_summary_prompt compressed_history recent_messages []
                 (lit "gemini-pro")) (lit "User: ") = true) /\
  ContextPreserver.create_summary_prompt (lit "They talked about files.") [] []
    (lit "gpt-4")
  = ContextPreserver.instruction ++ lit "

# Previous Conversation Summary

They talked about files.

# Recent Messages (Verbatim)

".
Proof.
  split; [reflexivity|]. split; [eexists; reflexivity|].
  split.
  { intros label [<- | [<- | [<- | []]]]; reflexivity. }
  split; [repeat split|]. vm_compute. reflexivity.
Qed.

End CompressorClaims.

(** * More properties *)

(** ** The parser, every strategy *)

Module TrimFacts.

Import ChatParser Spec Vocabulary ParserFacts.

Lemma lstrip_cases s :
  lstrip s = [] \/ exists c s', lstrip s = c :: s' /\ isspace c = false.
Proof.
  induction s as [|c s IH]; simpl; [left; reflexivity|].
  destruct (isspace c) eqn:E; [exact IH|].
  right. exists c, s. auto.
Qed.

Lemma lstrip_idem s : lstrip (lstrip s) = lstrip s.
Proof.
  destruct (lstrip_cases s) as [-> | (c & s' & -> & H)]; [reflexivity|].
  simpl. rewrite H. reflexivity.
Qed.

Lemma lstrip_snoc s c :
  isspace c = false -> exists t, lstrip (s ++ [c]) = t ++ [c].
Proof.
  intros H. induction s as [|x s IH]; simpl.
  - rewrite H. exists []. reflexivity.
  - destruct (isspace x); [exact IH|]. exists (x :: s). reflexivity.
Qed.

(** What [strip] returns has no whitespace left to strip. *)
Lemma strip_idem s : strip (strip s) = strip s.
Proof.
  unfold strip, rstrip.
  assert (Hb : lstrip (rev (lstrip (rev (lstrip s)))) = rev (lstrip (rev (lstrip s)))).
  { destruct (lstrip_cases s) as [-> | (c & a & -> & Hc)]; [reflexivity|].
    cbn [rev]. destruct (lstrip_snoc (rev a) c Hc) as (t & ->).
    rewrite rev_app_distr. simpl. rewrite Hc. reflexivity. }
  rewrite Hb, rev_involutive, lstrip_idem. reflexivity.
Qed.

Lemma trimmed_snoc ms r s : trimmed ms -> trimmed (ms ++ [mkMsg r (strip s)]).
Proof.
  intros H. apply Forall_app. split; [assumption|].
  constructor; [apply strip_idem | constructor].
Qed.

(** The line loop only stores stripped contents. *)
Lemma process_lines_trimmed lines : forall st st',
  process_lines lines st = Ok st' ->
  trimmed (st_messages st) -> trimmed (st_messages st').
Proof.
  induction lines as [|raw rest IH]; intros st st' Hrun Hst.
  - injection Hrun as <-. assumption.
  - cbn [process_lines] in Hrun.
    destruct (negb (nonempty (strip raw))).
    + destruct ((2 <=? length (List.filter is_blank (take 3 rest)))%nat
                && nonempty (current_content st)).
      * destruct (current_role st) as [r|]; [|discriminate].
        cbn [new_message mbind res_bind Py.bind] in Hrun.
        apply IH in Hrun; [assumption|].
        cbn [st_messages]. apply trimmed_snoc, Hst.
      * eapply IH; eassumption.
    + destruct (truthy (detect_role_change (strip raw))).
      * destruct (truthy (current_role st) && nonempty (current_content st)).
        -- destruct (current_role st) as [r|]; [|discriminate].
           cbn [new_message mbind res_bind Py.bind mret res_ret] in Hrun.
           apply IH in Hrun; [assumption|].
           cbn [st_messages]. apply trimmed_snoc, Hst.
        -- cbn [mbind res_bind Py.bind mret res_ret] in Hrun.
           apply IH in Hrun; assumption.
      * cbn [mbind res_bind Py.bind mret res_ret] in Hrun.
        apply IH in Hrun; assumption.
Qed.

Lemma validate_order_trimmed ms : forall prev,
  trimmed ms -> trimmed (validate_order prev ms).
Proof.
  induction ms as [|m ms IH]; intros prev H; [constructor|].
  inversion H; subst. cbn [validate_order].
  constructor; [|apply IH; assumption].
  destruct (str_eqb (role m) prev); assumption.
Qed.

Lemma generic_format_trimmed content msgs :
  _parse_generic_format content = Ok msgs -> trimmed msgs.
Proof.
  unfold _parse_generic_format.
  destruct (process_lines (split_nl content) (mkState [] None [])) as [st|e] eqn:Hrun;
    [|discriminate].
  apply process_lines_trimmed in Hrun; [|constructor].
  cbn [mbind res_bind Py.bind].
  assert (forall msgs0,
    (if truthy (current_role st) && nonempty (current_content st)
     then msg ← new_message (current_role st)
                  (strip (join NL (current_content st)));
          mret (st_messages st ++ [msg])
     else mret (st_messages st)) = Ok msgs0 -> trimmed msgs0) as Hlast.
  { intros msgs0.
    destruct (truthy (current_role st) && nonempty (current_content st)).
    - destruct (current_role st) as [r|]; [|discriminate].
      intros [= <-]. apply trimmed_snoc, Hrun.
    - intros [= <-]. exact Hrun. }
  match goal with
  | |- context [mbind _ ?x] => destruct x as [msgs0|e] eqn:E; [|discriminate]
  end.
  specialize (Hlast msgs0 eq_refl).
  cbn [mbind res_bind Py.bind].
  match goal with
  | |- context [negb (nonempty ?l)] =>
      assert (trimmed l) as Hl; [|destruct l as [|m1 ms1]]
  end.
  { destruct (2 <=? length msgs0)%nat; [|assumption].
    destruct msgs0 as [|m0 ms0]; [constructor|].
    inversion Hlast; subst. constructor; [assumption|].
    apply validate_order_trimmed; assumption. }
  - intros [= <-]. constructor; [apply strip_idem | constructor].
  - intros [= <-]. assumption.
Qed.

Lemma said_format_trimmed text msgs :
  _parse_said_format text = Ok msgs -> trimmed msgs.
Proof.
  unfold _parse_said_format.
  match goal with
  | |- context [let '(a, b) := ?e in _] =>
      assert (trimmed (fst e)) as H0; [|destruct e as [messages0 content1]]
  end.
  { destruct (negb _); cbn [fst]; [|constructor].
    constructor; [|constructor]. cbn [content].
    destruct (split_nl (strip text)); [reflexivity | apply strip_idem]. }
  cbn [fst] in H0.
  match goal with
  | |- context [nonempty ?l] => assert (trimmed l) as H1; [|destruct l as [|m ms]]
  end.
  { apply Forall_app. split; [assumption|].
    apply Forall_map, Forall_forall. intros mt _. apply strip_idem. }
  - cbn [nonempty]. apply generic_format_trimmed.
  - intros [= <-]. assumption.
Qed.

Lemma said_format_known content msgs :
  _parse_said_format content = Ok msgs -> roles_known msgs.
Proof.
  unfold _parse_said_format.
  match goal with
  | |- context [let '(a, b) := ?e in _] =>
      assert (roles_known (fst e)) as H0; [|destruct e as [messages0 content1]]
  end.
  { destruct (negb _); cbn [fst]; [|constructor].
    constructor; [left; reflexivity | constructor]. }
  cbn [fst] in H0.
  match goal with
  | |- context [nonempty ?l] => assert (roles_known l) as H1; [|destruct l as [|m ms]]
  end.
  { apply Forall_app. split; [assumption|].
    apply Forall_map, Forall_forall. intros mt _. cbn [role].
    destruct (str_eqb _ _); [left | right]; reflexivity. }
  - cbn [nonempty]. intros Hg.
    destruct (generic_format_spec content1) as (msgs' & Hg' & _ & Hk & _).
    congruence.
  - intros [= <-]. assumption.
Qed.

End TrimFacts.

(** ** The first character of a match *)

Module MatchFacts.

Import ChatParser Spec Vocabulary ParserFacts.

Lemma cannot_start_sound (r : re) (c : ascii) :
  cannot_start r c = true ->
  forall (A : Type) p s cs (k : mstate -> option A),
    m r (MState p (c :: s) cs) k = None.
Proof.
  induction r; cbn [cannot_start]; intros H A p0 s cs k; try discriminate.
  - cbn. apply negb_true_iff in H. rewrite H. reflexivity.
  - cbn [m]. apply IHr1, H.
  - apply andb_true_iff in H as [H1 H2]. cbn [m].
    rewrite IHr1 by assumption. apply IHr2, H2.
  - cbn [m]. apply IHr, H.
  - cbn [m]. rewrite IHr by assumption. reflexivity.
Qed.

Lemma search_from_none (r : re) (s : str) :
  Forall (fun c => cannot_start r c = true) s ->
  (forall p, match_at r p [] = None) ->
  forall p, search_from r p s = None.
Proof.
  intros Hs Hnil. induction Hs as [|c s Hc Hs IH]; intros p; cbn [search_from].
  - rewrite Hnil. reflexivity.
  - unfold match_at. rewrite cannot_start_sound by assumption. apply IH.
Qed.

Lemma space_starts_nothing (c : ascii) :
  isspace c = true ->
  cannot_start said_pattern c = true /\
  cannot_start openai_pattern c = true /\
  cannot_start conversation_pattern c = true.
Proof.
  destruct c as [[] [] [] [] [] [] [] []]; vm_compute; intros H;
    solve [discriminate H | repeat split].
Qed.

Lemma findall_from_skip (r : re) (pre : str) :
  Forall (fun c => cannot_start r c = true) pre ->
  forall rest p,
    findall_from r p 0 (pre ++ rest) = findall_from r (p + length pre) 0 rest.
Proof.
  intros Hs. induction Hs as [|c pre Hc Hs IH]; intros rest p.
  - cbn [app length]. rewrite Nat.add_0_r. reflexivity.
  - cbn [app length findall_from]. unfold match_at.
    rewrite cannot_start_sound by assumption.
    rewrite IH. f_equal. lia.
Qed.

Lemma whitespace_detected_generic (json_loads : str -> loads_result) (text : str) :
  whitespace_only text -> _detect_format json_loads text = Ok (lit "generic").
Proof.
  intros H. unfold _detect_format, detect_by_pattern.
  rewrite (strip_whitespace text H). cbn [startswith lit list_ascii_of_string orb].
  assert (Hall : Forall (fun c => isspace c = true) text).
  { unfold whitespace_only in H. induction text as [|c t IH]; [constructor|].
    simpl in H. apply andb_true_iff in H as [Hc Ht]. constructor; auto. }
  unfold search.
  rewrite !search_from_none; try reflexivity;
    (eapply Forall_impl; [exact Hall|]; intros c Hc;
     apply space_starts_nothing in Hc; tauto).
Qed.

End MatchFacts.

Module ParserExtras.

Import ChatParser ChatParserFormats Spec Vocabulary ParserFacts TrimFacts MatchFacts.

(** X1: whatever the input and the format asked for, the messages
    [parse] returns have the role "user" or "assistant": the said-format
    strategy maps the speaker "You" to "user" and every other speaker to
    "assistant", and the generic strategy only knows these two. *)
Theorem parse_roles_are_known
    (json_loads : str -> loads_result) (estimate_tokens : str -> Z)
    (text : str) (specified_format : option str) (p : ParsedChat) :
  parse json_loads estimate_tokens text specified_format = Ok p ->
  forall m, In m (messages p) ->
    role m = lit "user" \/ role m = lit "assistant".
Proof.
  intros Hp.
  destruct (parse_outcome json_loads estimate_tokens text specified_format)
    as [(f & msgs & E & _ & _ & H) | (e & E & _)]; [|congruence].
  rewrite E in Hp. injection Hp as <-. cbn [messages].
  assert (Hk : roles_known msgs).
  { destruct H as [H | H]; [exact (said_format_known _ _ H)|].
    destruct (generic_format_spec text) as (msgs' & H' & _ & Hk & _). congruence. }
  intros m Hm. unfold roles_known in Hk. rewrite Forall_forall in Hk.
  apply Hk. apply list_elem_of_In. assumption.
Qed.

Lemma parse_roles_are_known_witness :
  exists p,
    parse Samples.refusing (fun _ => 0) (lit "[ChatGPT said: hi") None = Ok p /\
    forall m, In m (messages p) ->
      role m = lit "user" \/ role m = lit "assistant".
Proof.
  eexists. split; [vm_compute; reflexivity|].
  apply (parse_roles_are_known Samples.refusing (fun _ => 0)
           (lit "[ChatGPT said: hi") None).
  vm_compute. reflexivity.
Defined.

(** X2: the content of every message [parse] returns is stripped: it has
    no whitespace at either end (and may be empty). *)
Theorem parse_contents_are_stripped
    (json_loads : str -> loads_result) (estimate_tokens : str -> Z)
    (text : str) (specified_format : option str) (p : ParsedChat) :
  parse json_loads estimate_tokens text specified_format = Ok p ->
  forall m, In m (messages p) -> strip (content m) = content m.
Proof.
  intros Hp.
  destruct (parse_outcome json_loads estimate_tokens text specified_format)
    as [(f & msgs & E & _ & _ & H) | (e & E & _)]; [|congruence].
  rewrite E in Hp. injection Hp as <-. cbn [messages].
  assert (Hk : trimmed msgs).
  { destruct H as [H | H];
      [exact (said_format_trimmed _ _ H) | exact (generic_format_trimmed _ _ H)]. }
  intros m Hm. unfold trimmed in Hk. rewrite Forall_forall in Hk.
  apply Hk. apply list_elem_of_In. assumption.
Qed.

Lemma parse_contents_are_stripped_witness :
  exists p,
    parse Samples.refusing (fun _ => 0) (lit "  User:   hello  ") None = Ok p /\
    messages p = [mkMsg (lit "user") (lit "hello")] /\
    forall m, In m (messages p) -> strip (content m) = content m.
Proof.
  eexists. split; [vm_compute; reflexivity|]. split; [reflexivity|].
  apply (parse_contents_are_stripped Samples.refusing (fun _ => 0)
           (lit "  User:   hello  ") None).
  vm_compute. reflexivity.
Defined.

(** X3: an empty or whitespace-only input is detected as "generic",
    whatever [json.loads] does: the pattern of each other format needs a
    character that is not whitespace. *)
Theorem blank_input_is_generic
    (json_loads : str -> loads_result) (estimate_tokens : str -> Z) (text : str) :
  whitespace_only text ->
  _detect_format json_loads text = Ok (lit "generic") /\
  exists p,
    parse json_loads estimate_tokens text None = Ok p /\
    format_detected p = lit "generic".
Proof.
  intros H. split; [apply whitespace_detected_generic, H|].
  unfold parse. rewrite (whitespace_detected_generic json_loads text H).
  cbn [mbind res_bind Py.bind]. cbn [str_eqb lit list_ascii_of_string chr_eqb].
  change (str_eqb (lit "generic") (lit "said_format")) with false. cbv iota.
  rewrite (generic_format_whitespace text H).
  eexists. split; reflexivity.
Qed.

Lemma blank_input_is_generic_witness :
  _detect_format Samples.overflowing (lit "  " ++ NL ++ lit " ") = Ok (lit "generic").
Proof.
  apply (blank_input_is_generic Samples.overflowing (fun _ => 0)
           (lit "  " ++ NL ++ lit " ")).
  reflexivity.
Defined.

Lemma section_role_cases section :
  section_role section = lit "user" \/ section_role section = lit "assistant" \/
  section_role section = lit "system" \/ section_role section = lit "unknown".
Proof.
  unfold section_role.
  repeat match goal with |- context [if ?b then _ else _] => destruct b end; auto.
Qed.

Lemma no_hash_no_header (text : str) :
  has_chr "#" text = false -> findall header_block_pattern text = [].
Proof.
  intros H. unfold findall.
  rewrite <- (app_nil_r text), findall_from_skip; [reflexivity|].
  unfold has_chr in H. induction text as [|c t IH]; [constructor|].
  cbn [existsb] in H. apply orb_false_iff in H as [Hc Ht].
  constructor; [|apply IH, Ht].
  change (negb (chr_eqb "#" c) = true). rewrite Hc. reflexivity.
Qed.

(** X4: the markdown-header strategy returns on every input, with at
    least one message; each role is "user", "assistant", "system" or
    "unknown", and each content is stripped; when the pattern finds no
    header block, and so whenever the text holds no "#", it answers as
    the generic strategy does on that text. *)
Theorem openai_web_format_spec (text : str) :
  (exists msgs,
     _parse_openai_web_format text = Ok msgs /\ msgs <> [] /\
     forall m, In m msgs ->
       (role m = lit "user" \/ role m = lit "assistant" \/
        role m = lit "system" \/ role m = lit "unknown") /\
       strip (content m) = content m) /\
  (findall header_block_pattern text = [] ->
   _parse_openai_web_format text = _parse_generic_format text) /\
  (has_chr "#" text = false ->
   _parse_openai_web_format text = _parse_generic_format text).
Proof.
  assert (Hfall : findall header_block_pattern text = [] ->
                  _parse_openai_web_format text = _parse_generic_format text).
  { intros H. unfold _parse_openai_web_format. rewrite H. reflexivity. }
  split; [|split; [exact Hfall | intros H; apply Hfall, no_hash_no_header, H]].
  unfold _parse_openai_web_format.
  match goal with
  | |- context [nonempty ?l] => destruct l as [|m0 ms] eqn:E
  end; cbn [nonempty].
  - destruct (generic_format_spec text) as (msgs & Hg & Hne & Hk & _).
    exists msgs. split; [assumption|]. split; [assumption|].
    intros m Hm. apply list_elem_of_In in Hm. split.
    + unfold roles_known in Hk. rewrite Forall_forall in Hk.
      destruct (Hk m Hm) as [-> | ->]; auto.
    + pose proof (generic_format_trimmed _ _ Hg) as Ht.
      unfold trimmed in Ht. rewrite Forall_forall in Ht. auto.
  - eexists. split; [reflexivity|]. split; [discriminate|].
    rewrite <- E. intros m Hm. apply in_map_iff in Hm as (mt & <- & _).
    cbn [role content]. split; [apply section_role_cases | apply strip_idem].
Qed.

(** X29: [parse] raises exactly when no format is asked for, the text
    starts, leading whitespace apart, with "{" or "[", and [json.loads]
    raises something other than a JSONDecodeError, the one exception
    the format detection catches; [parse] then raises that exception.
    In every other case it returns. *)
Theorem parse_raises_what_loads_raises
    (json_loads : str -> loads_result) (estimate_tokens : str -> Z)
    (text : str) (specified_format : option str) :
  (forall e,
     parse json_loads estimate_tokens text specified_format = Raise e <->
     loads_escapes json_loads text specified_format e) /\
  ((exists e, loads_escapes json_loads text specified_format e) \/
   (exists p, parse json_loads estimate_tokens text specified_format = Ok p)).
Proof.
  assert (Hto : forall e, loads_escapes json_loads text specified_format e ->
                parse json_loads estimate_tokens text specified_format = Raise e).
  { intros e [Hr Hj]. unfold reaches_json in Hr.
    apply andb_true_iff in Hr as [Hf Hb].
    assert (Hd : _detect_format json_loads text = Raise e).
    { unfold _detect_format. rewrite Hb, Hj. reflexivity. }
    unfold parse. destruct specified_format as [[|c f]|];
      [rewrite Hd; reflexivity | discriminate Hf | rewrite Hd; reflexivity]. }
  destruct (parse_outcome json_loads estimate_tokens text specified_format)
    as [(f & msgs & E & _) | (e' & E & He')].
  - split; [|right; eexists; exact E].
    intros e. split; [rewrite E; discriminate|].
    intros He. rewrite (Hto e He) in E. discriminate E.
  - split; [|left; exists e'; exact He'].
    intros e. split; [|apply Hto].
    rewrite E. intros [= <-]. exact He'.
Qed.

End ParserExtras.


Module ChunkShapeFacts.
Import OllamaProcessor ChunkShape PipelineFacts.

Lemma slice_take_drop {A} (l : list A) (lo hi : Z) :
  0 <= lo <= hi -> hi <= len l ->
  slice l lo hi = take (Z.to_nat (hi - lo)) (drop (Z.to_nat lo) l).
Proof.
  intros Hlo Hhi. unfold slice, clamp_index, len in *.
  replace (lo <? 0) with false by lia. replace (hi <? 0) with false by lia.
  f_equal; [|f_equal]; lia.
Qed.

Lemma chunk_step_regular msgs cs mds (j : nat) :
  cs = [] \/ 4 <= len msgs - offset j ->
  chunk_step msgs 8 2 (cs, mds) (offset j) =
  (cs ++ [window msgs j],
   mds ++ [mkMeta (len cs) ((len msgs - 1) / (8 - 2) + 1) (offset j =? 0)
                  (Z.min (offset j + 8) (len msgs) =? len msgs)]).
Proof.
  intros H. unfold chunk_step, window.
  assert (E : (Z.min (offset j + 8) (len msgs) - offset j <? 8 / 2) && nonempty cs = false).
  { destruct H as [-> | H]; [apply andb_false_r|].
    apply andb_false_iff. left. change (8 / 2) with 4. lia. }
  rewrite E. f_equal. f_equal. f_equal. f_equal.
  unfold len. rewrite length_app. simpl. lia.
Qed.

Lemma fold_regular msgs (k : nat) :
  (forall j, (0 < j < k)%nat -> 4 <= len msgs - offset j) ->
  fold_left (chunk_step msgs 8 2) (map offset (seq 0 k)) ([], []) =
  (map (window msgs) (seq 0 k), map (window_meta msgs) (seq 0 k)).
Proof.
  induction k as [|k IH]; intros H; [reflexivity|].
  rewrite seq_S, !map_app, fold_left_app. cbn [map fold_left Nat.add].
  rewrite IH by (intros j Hj; apply H; lia).
  rewrite chunk_step_regular.
  - unfold window_meta, len. rewrite length_map, length_seq. reflexivity.
  - destruct k; [left; reflexivity | right; apply H; lia].
Qed.

Lemma range0_offsets msgs :
  range0 (len msgs) (8 - 2) = map offset (seq 0 (iterations msgs)).
Proof. reflexivity. Qed.

Lemma iterations_bounds msgs :
  8 < len msgs ->
  (2 <= iterations msgs)%nat /\ 1 <= tail_size msgs <= 6 /\
  tail_size msgs = (len msgs - 1) mod 6 + 1 /\
  Z.of_nat (iterations msgs) = (len msgs - 1) / (8 - 2) + 1.
Proof.
  intros Hn. unfold tail_size, offset, iterations. change (8 - 2) with 6.
  replace (len msgs + 6 - 1) with ((len msgs - 1) + 1 * 6) by lia.
  rewrite Z.div_add by lia.
  pose proof (Z.div_mod (len msgs - 1) 6 ltac:(lia)) as Hdm.
  pose proof (Z.mod_pos_bound (len msgs - 1) 6 ltac:(lia)) as Hb.
  assert (1 <= (len msgs - 1) / 6) by (apply Z.div_le_lower_bound; lia).
  split; [lia|].
  rewrite Nat2Z.inj_sub by lia. rewrite Z2Nat.id by lia.
  lia.
Qed.

(** The chunks of a history of more than 8 messages, in closed form:
    windows of 8 every 6 messages; a last window of fewer than 4 is
    appended to its predecessor. *)
Lemma chunks_closed_form msgs :
  8 < len msgs ->
  _create_overlapping_chunks msgs 8 2 =
  Ok (if tail_size msgs <? 4 then merged_tail msgs else kept_tail msgs).
Proof.
  intros Hn. destruct (iterations_bounds msgs Hn) as (Hq & Hr & _ & _).
  unfold _create_overlapping_chunks.
  replace (len msgs <=? 8) with false by lia.
  change (8 - 2 =? 0) with false. change (8 - 2 <? 0) with false. cbv iota.
  rewrite range0_offsets. f_equal.
  destruct (tail_size msgs <? 4) eqn:Et.
  - apply Z.ltb_lt in Et.
    replace (iterations msgs) with (S (iterations msgs - 1)) at 1 by lia.
    rewrite seq_S, map_app, fold_left_app. cbn [map fold_left Nat.add].
    rewrite fold_regular.
    + replace (iterations msgs - 1)%nat with (S (iterations msgs - 2)) at 1 2 by lia.
      rewrite seq_S, !map_app. cbn [map Nat.add].
      unfold chunk_step.
      assert (E : (Z.min (offset (iterations msgs - 1) + 8) (len msgs)
                   - offset (iterations msgs - 1) <? 8 / 2)
                  && nonempty (map (window msgs) (seq 0 (iterations msgs - 2))
                               ++ [window msgs (iterations msgs - 2)]) = true).
      { apply andb_true_iff. split.
        - change (8 / 2) with 4. unfold tail_size in *. lia.
        - destruct (map _ _); reflexivity. }
      rewrite E, !update_last_snoc. reflexivity.
    + intros j Hj. unfold tail_size, offset in *. lia.
  - apply Z.ltb_ge in Et. apply fold_regular.
    intros j Hj. unfold tail_size, offset in *. lia.
Qed.

End ChunkShapeFacts.

Module ChunkerExtras.
Import OllamaProcessor ChunkShape ChunkShapeFacts PipelineFacts.

Lemma lookup_map_seq {A} (f : nat -> A) (k i : nat) :
  (i < k)%nat -> map f (seq 0 k) !! i = Some (f i).
Proof.
  intros H. change (map f (seq 0 k)) with (f <$> seq 0 k).
  rewrite list_lookup_fmap, lookup_seq_lt by assumption. reflexivity.
Qed.

Lemma window_take_drop msgs (j : nat) :
  offset j <= len msgs ->
  window msgs j =
  take (Nat.min 8 (length msgs - 6 * j)) (drop (6 * j) msgs).
Proof.
  intros H. unfold window. rewrite slice_take_drop by (unfold offset in *; lia).
  unfold offset, len in *. f_equal; [|f_equal]; lia.
Qed.

Lemma length_window msgs (j : nat) :
  offset j <= len msgs ->
  length (window msgs j) = Nat.min 8 (length msgs - 6 * j).
Proof.
  intros H. rewrite window_take_drop by assumption.
  rewrite length_take, length_drop. lia.
Qed.

(** A full window, as the slice [messages[6j:6j+8]]. *)
Lemma window_full msgs (j : nat) :
  offset j + 8 <= len msgs ->
  window msgs j = slice msgs (6 * Z.of_nat j) (6 * Z.of_nat j + 8).
Proof.
  intros H. unfold window, offset in *. f_equal; lia.
Qed.

(** The shape of the result: all chunks but the last are full windows;
    the last is the last window, or the last two windows when the last
    has fewer than 4 messages. *)
Lemma chunks_shape msgs :
  8 < len msgs ->
  exists chunks metadata last_chunk,
    _create_overlapping_chunks msgs 8 2 = Ok (chunks, metadata) /\
    (chunks, metadata) =
      (if tail_size msgs <? 4 then merged_tail msgs else kept_tail msgs) /\
    length chunks =
      (iterations msgs - (if (tail_size msgs <? 4)%Z then 1 else 0))%nat /\
    (forall k, (S k < length chunks)%nat ->
       chunks !! k = Some (window msgs k) /\ offset k + 8 <= len msgs) /\
    chunks !! (length chunks - 1)%nat = Some last_chunk /\
    last_chunk =
      (if tail_size msgs <? 4
       then window msgs (iterations msgs - 2) ++ window msgs (iterations msgs - 1)
       else window msgs (iterations msgs - 1)).
Proof.
  intros Hn. rewrite (chunks_closed_form msgs Hn).
  destruct (iterations_bounds msgs Hn) as (Hq & Hr & _ & _).
  destruct (tail_size msgs <? 4) eqn:Et.
  - apply Z.ltb_lt in Et. unfold merged_tail.
    do 3 eexists. split; [reflexivity|]. split; [reflexivity|].
    assert (Hlen : length (map (window msgs) (seq 0 (iterations msgs - 2))
                           ++ [window msgs (iterations msgs - 2)
                               ++ window msgs (iterations msgs - 1)])
                   = (iterations msgs - 1)%nat).
    { rewrite length_app, length_map, length_seq. simpl. lia. }
    rewrite Hlen. split; [reflexivity|]. split; [|split; [|reflexivity]].
    + intros k Hk. split.
      * rewrite lookup_app_l by (rewrite length_map, length_seq; lia).
        apply lookup_map_seq. lia.
      * unfold tail_size, offset in *. lia.
    + rewrite lookup_app_r by (rewrite length_map, length_seq; lia).
      rewrite length_map, length_seq.
      replace (iterations msgs - 1 - 1 - (iterations msgs - 2))%nat with 0%nat by lia.
      reflexivity.
  - apply Z.ltb_ge in Et. unfold kept_tail.
    do 3 eexists. split; [reflexivity|]. split; [reflexivity|].
    rewrite length_map, length_seq, Nat.sub_0_r.
    split; [reflexivity|]. split; [|split; [|reflexivity]].
    + intros k Hk. split; [apply lookup_map_seq; lia|].
      unfold tail_size, offset in *. lia.
    + apply lookup_map_seq. lia.
Qed.

(** X5: for a history of more than 8 messages, every chunk but the last
    is the full window [messages[6k:6k+8]] of 8 messages.  With [r] the
    number of messages of the last window, [(n - 1) mod 6 + 1] for [n]
    messages, the last chunk holds [r] messages when [r] is 4, 5 or 6,
    and 8, 10 or 11 messages when [r] is 1, 2 or 3 (the last window is
    then appended to the one before): so the last chunk holds between 4
    and 11 messages, and it exceeds the chunk size exactly when [r] is
    2 or 3. *)
Theorem chunks_are_windows (msgs : list ChatMessage) :
  8 < len msgs ->
  exists chunks metadata,
    _create_overlapping_chunks msgs 8 2 = Ok (chunks, metadata) /\
    (1 <= length chunks)%nat /\
    forall k chunk, chunks !! k = Some chunk ->
      ((S k < length chunks)%nat ->
         chunk = slice msgs (6 * Z.of_nat k) (6 * Z.of_nat k + 8) /\
         length chunk = 8%nat) /\
      ((S k = length chunks)%nat ->
         (4 <= length chunk <= 11)%nat /\
         len chunk =
           (let r := (len msgs - 1) mod 6 + 1 in
            if r =? 1 then 8 else if r =? 2 then 10 else if r =? 3 then 11 else r) /\
         (8 < len chunk <->
          (len msgs - 1) mod 6 + 1 = 2 \/ (len msgs - 1) mod 6 + 1 = 3)).
Proof.
  intros Hn.
  destruct (chunks_shape msgs Hn) as (chunks & metadata & lc & E & _ & Hlen & Hreg & Hl & Hlc).
  destruct (iterations_bounds msgs Hn) as (Hq & Hr & Hts & Hit).
  exists chunks, metadata. split; [assumption|]. split.
  { rewrite Hlen. destruct (tail_size msgs <? 4); lia. }
  intros k chunk Hk. split.
  - intros Hlt. destruct (Hreg k Hlt) as [Hw Hfull].
    rewrite Hw in Hk. injection Hk as <-.
    split; [apply window_full, Hfull|].
    rewrite length_window by lia. unfold offset, len in *. lia.
  - intros Heq. replace (length chunks - 1)%nat with k in Hl by lia.
    rewrite Hl in Hk. injection Hk as <-. rewrite Hlc.
    cbv zeta. rewrite <- Hts.
    assert (Hsize : Z.of_nat (length msgs) = 6 * Z.of_nat (iterations msgs) - 6 + tail_size msgs).
    { unfold tail_size, offset, len in *. lia. }
    destruct (tail_size msgs <? 4) eqn:Et.
    + apply Z.ltb_lt in Et.
      assert (Hl2 : length (window msgs (iterations msgs - 2)
                            ++ window msgs (iterations msgs - 1))
                    = (Nat.min 8 (Z.to_nat (tail_size msgs) + 6)
                       + Z.to_nat (tail_size msgs))%nat).
      { rewrite length_app, !length_window by (unfold offset, len in *; lia). lia. }
      unfold len. rewrite Hl2.
      destruct (tail_size msgs =? 1) eqn:E1; [apply Z.eqb_eq in E1; rewrite E1; simpl; lia|].
      destruct (tail_size msgs =? 2) eqn:E2; [apply Z.eqb_eq in E2; rewrite E2; simpl; lia|].
      destruct (tail_size msgs =? 3) eqn:E3; [apply Z.eqb_eq in E3; rewrite E3; simpl; lia|].
      apply Z.eqb_neq in E1, E2, E3. lia.
    + apply Z.ltb_ge in Et.
      assert (Hl1 : length (window msgs (iterations msgs - 1))
                    = Z.to_nat (tail_size msgs)).
      { rewrite length_window by (unfold offset, len in *; lia). lia. }
      unfold len. rewrite Hl1.
      replace (tail_size msgs =? 1) with false by lia.
      replace (tail_size msgs =? 2) with false by lia.
      replace (tail_size msgs =? 3) with false by lia.
      lia.
Qed.

Lemma chunks_are_windows_witness :
  exists chunks metadata,
    _create_overlapping_chunks (Samples.transcript 15) 8 2 = Ok (chunks, metadata) /\
    (1 <= length chunks)%nat.
Proof.
  destruct (chunks_are_windows (Samples.transcript 15)) as (c & md & H & Hl & _).
  - reflexivity.
  - exists c, md. split; assumption.
Defined.

(** X6: two consecutive chunks overlap by two messages: the last two
    of the 8 messages of a chunk are the first two of the next. *)
Theorem consecutive_chunks_overlap (msgs : list ChatMessage) :
  8 < len msgs ->
  exists chunks metadata,
    _create_overlapping_chunks msgs 8 2 = Ok (chunks, metadata) /\
    forall k chunk next,
      chunks !! k = Some chunk -> chunks !! S k = Some next ->
      drop 6 chunk = take 2 next /\ length (take 2 next) = 2%nat.
Proof.
  intros Hn.
  destruct (chunks_shape msgs Hn) as (chunks & metadata & lc & E & _ & Hlen & Hreg & Hl & Hlc).
  destruct (iterations_bounds msgs Hn) as (Hq & Hr & _ & _).
  exists chunks, metadata. split; [assumption|].
  intros k chunk next Hk Hnext.
  assert (Hlt : (S k < length chunks)%nat) by (apply lookup_lt_Some in Hnext; lia).
  destruct (Hreg k Hlt) as [Hw Hfull].
  rewrite Hw in Hk. injection Hk as <-.
  assert (Hpre : exists more, next = window msgs (S k) ++ more /\
                              (2 <= length (window msgs (S k)))%nat).
  { destruct (decide (S (S k) < length chunks)%nat) as [Hlt2 | Hge].
    - destruct (Hreg (S k) Hlt2) as [Hw' Hfull'].
      rewrite Hw' in Hnext. injection Hnext as <-.
      exists []. rewrite app_nil_r. split; [reflexivity|].
      rewrite length_window by lia. unfold offset, len in *. lia.
    - replace (length chunks - 1)%nat with (S k) in Hl by lia.
      rewrite Hl in Hnext. injection Hnext as <-. rewrite Hlc.
      destruct (tail_size msgs <? 4) eqn:Et.
      + apply Z.ltb_lt in Et.
        replace (iterations msgs - 2)%nat with (S k) by lia.
        eexists. split; [reflexivity|].
        rewrite length_window; unfold tail_size, offset, len in *; lia.
      + apply Z.ltb_ge in Et.
        replace (iterations msgs - 1)%nat with (S k) by lia.
        exists []. rewrite app_nil_r. split; [reflexivity|].
        rewrite length_window; unfold tail_size, offset, len in *; lia. }
  destruct Hpre as (more & -> & Hlen2).
  rewrite take_app_le by assumption.
  assert (Hoff : offset (S k) <= len msgs) by (unfold offset in *; lia).
  split.
  - rewrite !window_take_drop by lia.
    rewrite take_take.
    replace (Nat.min 8 (length msgs - 6 * k)) with 8%nat
      by (unfold offset, len in *; lia).
    rewrite length_window in Hlen2 by assumption.
    replace (Nat.min 2 (Nat.min 8 (length msgs - 6 * S k))) with 2%nat by lia.
    rewrite skipn_firstn_comm, drop_drop.
    f_equal. f_equal. lia.
  - rewrite length_take. lia.
Qed.

Lemma consecutive_chunks_overlap_witness :
  exists chunks metadata,
    _create_overlapping_chunks (Samples.transcript 20) 8 2 = Ok (chunks, metadata) /\
    forall k chunk next,
      chunks !! k = Some chunk -> chunks !! S k = Some next ->
      drop 6 chunk = take 2 next /\ length (take 2 next) = 2%nat.
Proof.
  apply (consecutive_chunks_overlap (Samples.transcript 20)). reflexivity.
Defined.

(** X7: the metadata of a history of more than 8 messages: position [k]
    carries the ordinal [k]; only position 0 is marked first and only the
    final chunk is marked last; [total] is the number of windows, which
    is one more than the number of chunks when the last window was
    merged into its predecessor (a message count of 1, 2 or 3 modulo
    6). *)
Theorem chunk_metadata_spec (msgs : list ChatMessage) :
  8 < len msgs ->
  exists chunks metadata,
    _create_overlapping_chunks msgs 8 2 = Ok (chunks, metadata) /\
    length metadata = length chunks /\
    forall k md, metadata !! k = Some md ->
      index md = Z.of_nat k /\
      is_first md = (k =? 0)%nat /\
      is_last md = (S k =? length chunks)%nat /\
      total md = (len msgs - 1) / 6 + 1 /\
      total md = len chunks + (if (len msgs - 1) mod 6 <? 3 then 1 else 0).
Proof.
  intros Hn.
  destruct (chunks_shape msgs Hn) as (chunks & metadata & lc & E & Hcf & Hlen & _).
  destruct (iterations_bounds msgs Hn) as (Hq & Hr & Hmod & Htot).
  exists chunks, metadata. split; [assumption|].
  assert (Hcut : (if (len msgs - 1) mod 6 <? 3 then 1 else 0) =
                 (if tail_size msgs <? 4 then 1 else 0)).
  { rewrite Hmod. destruct ((len msgs - 1) mod 6 <? 3) eqn:E1;
      destruct ((len msgs - 1) mod 6 + 1 <? 4) eqn:E2; lia. }
  rewrite Hcut. clear Hcut.
  assert (Hlenz : len chunks = Z.of_nat (length chunks)) by reflexivity.
  rewrite Hlenz. clear Hlenz.
  destruct (tail_size msgs <? 4) eqn:Et.
  - apply Z.ltb_lt in Et. unfold merged_tail in Hcf.
    injection Hcf as -> ->.
    split; [rewrite !length_app, !length_map; reflexivity|].
    intros k md Hk.
    assert (Hkq : (k < iterations msgs - 1)%nat).
    { apply lookup_lt_Some in Hk.
      rewrite length_app, length_map, length_seq in Hk. simpl in Hk. lia. }
    rewrite Hlen.
    destruct (decide (k < iterations msgs - 2)%nat) as [Hlt | Hge].
    + rewrite lookup_app_l in Hk by (rewrite length_map, length_seq; lia).
      rewrite lookup_map_seq in Hk by lia. injection Hk as <-.
      cbn [window_meta index is_first is_last total]. change (8 - 2) with 6 in *.
      split; [reflexivity|].
      split; [unfold offset; destruct k; simpl; lia|].
      split; [|split; [reflexivity | lia]].
      replace (S k =? iterations msgs - 1)%nat with false
        by (symmetry; apply Nat.eqb_neq; lia).
      apply Z.eqb_neq. unfold tail_size, offset in *. lia.
    + rewrite lookup_app_r in Hk by (rewrite length_map, length_seq; lia).
      rewrite length_map, length_seq in Hk.
      replace (k - (iterations msgs - 2))%nat with 0%nat in Hk by lia.
      injection Hk as <-. cbn [index is_first is_last total]. change (8 - 2) with 6 in *.
      replace (iterations msgs - 2)%nat with k by lia.
      split; [reflexivity|].
      split; [unfold offset; destruct k; simpl; lia|].
      split; [|split; [reflexivity | lia]].
      symmetry. apply Nat.eqb_eq. lia.
  - apply Z.ltb_ge in Et. unfold kept_tail in Hcf.
    injection Hcf as -> ->.
    split; [rewrite !length_map; reflexivity|].
    intros k md Hk.
    assert (Hkq : (k < iterations msgs)%nat).
    { apply lookup_lt_Some in Hk. rewrite length_map, length_seq in Hk. lia. }
    rewrite lookup_map_seq in Hk by lia. injection Hk as <-.
    rewrite Hlen, Nat.sub_0_r.
    cbn [window_meta index is_first is_last total]. change (8 - 2) with 6 in *.
    split; [reflexivity|].
    split; [unfold offset; destruct k; simpl; lia|].
    split; [|split; [reflexivity | lia]].
    destruct (S k =? iterations msgs)%nat eqn:Ek.
    + apply Nat.eqb_eq in Ek. apply Z.eqb_eq. unfold tail_size, offset in *. lia.
    + apply Nat.eqb_neq in Ek. apply Z.eqb_neq. unfold tail_size, offset in *. lia.
Qed.

Lemma chunk_metadata_spec_witness :
  exists chunks metadata,
    _create_overlapping_chunks (Samples.transcript 20) 8 2 = Ok (chunks, metadata) /\
    length chunks = 3%nat /\
    forall k md, metadata !! k = Some md -> total md = 4.
Proof.
  destruct (chunk_metadata_spec (Samples.transcript 20)) as (c & md & H & Hl & Hm).
  - reflexivity.
  - exists c, md. split; [assumption|].
    assert (c = fst (merged_tail (Samples.transcript 20))) as ->.
    { vm_compute in H. injection H as <- _. vm_compute. reflexivity. }
    split; [reflexivity|].
    intros k m Hk. destruct (Hm k m Hk) as (_ & _ & _ & Ht & _). exact Ht.
Defined.

End ChunkerExtras.


Module ReduceFacts.
Import OllamaProcessor Spec ChunkShape ChunkShapeFacts ChunkerExtras PipelineFacts.

(** Cutting a list into slices of [step] elements loses nothing. *)
Lemma concat_slices_take {A} (l : list A) (step : Z) (k : nat) :
  0 < step ->
  concat (map (fun i => slice l i (i + step))
              (map (fun j => Z.of_nat j * step) (seq 0 k)))
  = take (Z.to_nat (Z.of_nat k * step)) l.
Proof.
  intros Hs. induction k as [|k IH]; [reflexivity|].
  rewrite seq_S, !map_app, concat_app, IH. cbn [map concat Nat.add].
  rewrite app_nil_r.
  unfold slice, clamp_index, len.
  assert (0 <= Z.of_nat k * step) by nia.
  replace (Z.of_nat k * step <? 0) with false by lia.
  replace (Z.of_nat k * step + step <? 0) with false by lia.
  destruct (decide (Z.of_nat k * step <= Z.of_nat (length l))) as [Hle | Hgt].
  - rewrite (Z.min_l (Z.of_nat k * step)) by lia.
    rewrite take_take_drop.
    destruct (decide (Z.of_nat k * step + step <= Z.of_nat (length l))) as [Hle2 | Hgt2].
    + rewrite Z.min_l by lia. f_equal. nia.
    + rewrite Z.min_r by lia.
      rewrite !take_ge; [reflexivity | nia | nia].
  - rewrite !Z.min_r by lia. rewrite Nat.sub_diag. cbn [take]. rewrite app_nil_r.
    rewrite !take_ge; [reflexivity | nia | nia].
Qed.

Lemma concat_slices {A} (l : list A) (step : Z) :
  0 < step ->
  concat (map (fun i => slice l i (i + step)) (range0 (len l) step)) = l.
Proof.
  intros Hs. unfold range0. rewrite concat_slices_take by assumption.
  apply take_ge. unfold len.
  assert (Z.of_nat (length l) <= (Z.of_nat (length l) + step - 1) / step * step).
  { pose proof (Z.div_mod (Z.of_nat (length l) + step - 1) step ltac:(lia)).
    pose proof (Z.mod_pos_bound (Z.of_nat (length l) + step - 1) step ltac:(lia)).
    nia. }
  assert (0 <= (Z.of_nat (length l) + step - 1) / step) by (apply Z.div_pos; lia).
  rewrite Z2Nat.id by lia. lia.
Qed.

Lemma slices_sizes {A} (l : list A) (step : Z) :
  0 < step ->
  Forall (fun g => (1 <= length g)%nat /\ Z.of_nat (length g) <= step)
         (map (fun i => slice l i (i + step)) (range0 (len l) step)).
Proof.
  intros Hs. apply Forall_map, Forall_forall. intros i Hi.
  unfold range0 in Hi. apply list_elem_of_fmap in Hi as (j & -> & Hj).
  apply elem_of_seq in Hj.
  assert (Hlt : Z.of_nat j * step < len l).
  { assert (Z.of_nat j < (len l + step - 1) / step).
    { destruct (Z_le_gt_dec ((len l + step - 1) / step) 0); lia. }
    pose proof (Z.div_mod (len l + step - 1) step ltac:(lia)).
    pose proof (Z.mod_pos_bound (len l + step - 1) step ltac:(lia)).
    nia. }
  unfold slice, clamp_index, len in *.
  assert (0 <= Z.of_nat j * step) by nia.
  replace (Z.of_nat j * step <? 0) with false by lia.
  replace (Z.of_nat j * step + step <? 0) with false by lia.
  rewrite length_take, length_drop. split; lia.
Qed.

Section Service.
Variable generate : call -> str -> options -> gen_result.
Variable order : nat -> list nat.
Hypothesis order_perm : forall n, Permutation (order n) (seq 0 n).

Lemma combine_groups_length groups : forall i,
  length (combine_groups generate i groups) = length groups.
Proof. induction groups; intros i; simpl; auto. Qed.

(** Whatever the path, the summary is the answer to the final reduce
    call. *)
Lemma hierarchical_summarize_inv msgs max_tokens max_workers s :
  _hierarchical_summarize generate order msgs max_tokens max_workers = Ok s ->
  exists parts, s = _combine_summaries (generate (ReduceCall true 0)) parts true.
Proof.
  unfold _hierarchical_summarize.
  destruct (_create_overlapping_chunks msgs 8 2) as [[chunks metadata]|]; [|discriminate].
  cbn [mbind res_bind Py.bind].
  destruct (_process_chunks_with_context _ _ _ _ _) as [summaries|]; [|discriminate].
  cbn [mbind res_bind Py.bind].
  destruct (len summaries <=? 3); intros [= <-]; eexists; reflexivity.
Qed.

(** The number of chunks of a history, by its size. *)
Lemma chunk_count msgs chunks metadata :
  _create_overlapping_chunks msgs 8 2 = Ok (chunks, metadata) ->
  (len msgs <= 21 -> (length chunks <= 3)%nat) /\
  (21 < len msgs -> (3 < length chunks)%nat).
Proof.
  intros E. destruct (decide (8 < len msgs)) as [Hn | Hn].
  - destruct (chunks_shape msgs Hn) as (c & md & lc & E' & _ & Hlen & _).
    rewrite E in E'. injection E' as <- <-.
    destruct (iterations_bounds msgs Hn) as (Hq & Hr & _ & Htot).
    unfold tail_size, offset in *. change (8 - 2) with 6 in *.
    pose proof (Z.div_mod (len msgs - 1) 6 ltac:(lia)).
    pose proof (Z.mod_pos_bound (len msgs - 1) 6 ltac:(lia)).
    rewrite Hlen.
    destruct (len msgs - Z.of_nat (iterations msgs - 1) * 6 <? 4) eqn:Et;
      [apply Z.ltb_lt in Et | apply Z.ltb_ge in Et]; split; intros; lia.
  - unfold _create_overlapping_chunks in E.
    replace (len msgs <=? 8) with true in E by lia.
    injection E as <- <-. simpl. split; intros; lia.
Qed.

End Service.

End ReduceFacts.

Module PipelineExtras.
Import OllamaProcessor Spec Samples ChunkShape ChunkShapeFacts ChunkerExtras.
Import PipelineFacts ReduceFacts CompressorFacts ContainsFacts FidelityFacts.

(** X8: a history of at most 21 messages is reduced by one call: the
    final reduce call receives the chunk summaries themselves, of which
    there are at most three. *)
Theorem short_history_has_one_reduce
    (generate : call -> str -> options -> gen_result) (order : nat -> list nat)
    (msgs : list ChatMessage) (max_tokens max_workers : Z) :
  (forall n, Permutation (order n) (seq 0 n)) ->
  0 < max_workers ->
  len msgs <= 21 ->
  exists chunks metadata summaries,
    _create_overlapping_chunks msgs 8 2 = Ok (chunks, metadata) /\
    _process_chunks_with_context generate order chunks metadata max_workers
      = Ok summaries /\
    (length summaries <= 3)%nat /\
    _hierarchical_summarize generate order msgs max_tokens max_workers
    = Ok (_combine_summaries (generate (ReduceCall true 0)) summaries true).
Proof.
  intros Hperm Hw Hn.
  destruct (create_chunks_spec msgs) as (chunks & metadata & E & Hwc).
  destruct (process_chunks_spec generate order Hperm chunks metadata max_workers Hw Hwc)
    as (summaries & Es & Hlen & _).
  exists chunks, metadata, summaries. split; [assumption|]. split; [assumption|].
  destruct (chunk_count msgs chunks metadata E) as [Hle _]. specialize (Hle Hn).
  split; [lia|].
  unfold _hierarchical_summarize. rewrite E. cbn [mbind res_bind Py.bind].
  rewrite Es. cbn [mbind res_bind Py.bind].
  replace (len summaries <=? 3) with true by (unfold len; lia).
  reflexivity.
Qed.

Lemma short_history_has_one_reduce_witness :
  exists chunks metadata summaries,
    _create_overlapping_chunks (transcript 20) 8 2 = Ok (chunks, metadata) /\
    _process_chunks_with_context unrelated reversed chunks metadata 3 = Ok summaries /\
    (length summaries <= 3)%nat /\
    _hierarchical_summarize unrelated reversed (transcript 20) 4000 3
    = Ok (_combine_summaries (unrelated (ReduceCall true 0)) summaries true).
Proof.
  apply (short_history_has_one_reduce unrelated reversed (transcript 20) 4000 3).
  - apply reversed_perm.
  - lia.
  - vm_compute. discriminate.
Defined.

(** X9: a history of more than 21 messages is reduced in two levels:
    the chunk summaries are cut, in order and without loss, into groups
    of three (the last group may hold one or two), each group is
    combined by an intermediate reduce call, and the final reduce call
    receives all the intermediate summaries at once. *)
Theorem long_history_has_two_reduce_levels
    (generate : call -> str -> options -> gen_result) (order : nat -> list nat)
    (msgs : list ChatMessage) (max_tokens max_workers : Z) :
  (forall n, Permutation (order n) (seq 0 n)) ->
  0 < max_workers ->
  21 < len msgs ->
  exists chunks metadata summaries groups,
    _create_overlapping_chunks msgs 8 2 = Ok (chunks, metadata) /\
    _process_chunks_with_context generate order chunks metadata max_workers
      = Ok summaries /\
    concat groups = summaries /\
    Forall (fun g => (1 <= length g <= 3)%nat) groups /\
    (2 <= length groups)%nat /\
    length (combine_groups generate 0 groups) = length groups /\
    _hierarchical_summarize generate order msgs max_tokens max_workers
    = Ok (_combine_summaries (generate (ReduceCall true 0))
            (combine_groups generate 0 groups) true).
Proof.
  intros Hperm Hw Hn.
  destruct (create_chunks_spec msgs) as (chunks & metadata & E & Hwc).
  destruct (process_chunks_spec generate order Hperm chunks metadata max_workers Hw Hwc)
    as (summaries & Es & Hlen & _).
  destruct (chunk_count msgs chunks metadata E) as [_ Hgt]. specialize (Hgt Hn).
  exists chunks, metadata, summaries,
    (map (fun i => slice summaries i (i + 3)) (range0 (len summaries) 3)).
  split; [assumption|]. split; [assumption|].
  split; [apply concat_slices; lia|].
  pose proof (slices_sizes summaries 3 ltac:(lia)) as Hsz.
  split; [eapply Forall_impl; [exact Hsz|]; cbn; intros; lia|].
  split.
  { rewrite length_map. unfold range0. rewrite length_map, length_seq.
    assert (2 <= (len summaries + 3 - 1) / 3); [|lia].
    apply Z.div_le_lower_bound; unfold len; lia. }
  split; [apply combine_groups_length|].
  unfold _hierarchical_summarize. rewrite E. cbn [mbind res_bind Py.bind].
  rewrite Es. cbn [mbind res_bind Py.bind].
  replace (len summaries <=? 3) with false by (unfold len; lia).
  reflexivity.
Qed.

Lemma long_history_has_two_reduce_levels_witness :
  exists chunks metadata summaries groups,
    _create_overlapping_chunks (transcript 26) 8 2 = Ok (chunks, metadata) /\
    _process_chunks_with_context unrelated in_order chunks metadata 3 = Ok summaries /\
    concat groups = summaries /\
    Forall (fun g => (1 <= length g <= 3)%nat) groups /\
    (2 <= length groups)%nat /\
    length (combine_groups unrelated 0 groups) = length groups /\
    _hierarchical_summarize unrelated in_order (transcript 26) 4000 3
    = Ok (_combine_summaries (unrelated (ReduceCall true 0))
            (combine_groups unrelated 0 groups) true).
Proof.
  apply (long_history_has_two_reduce_levels unrelated in_order (transcript 26) 4000 3).
  - intros n. reflexivity.
  - lia.
  - vm_compute. reflexivity.
Defined.

(** X10: a failure of the final reduce call is contained: with more
    than twelve historical messages and a positive number of workers,
    [process_conversation] still returns, and the history starts with
    the note "[Combination failed: <error>]" and a blank line. *)
Theorem failed_final_reduce_is_contained
    (generate : call -> str -> options -> gen_result) (order : nat -> list nat)
    (messages : list ChatMessage) (max_tokens max_workers preserve_recent : Z)
    (e : str) :
  (forall n, Permutation (order n) (seq 0 n)) ->
  0 < max_workers ->
  12 < len (historical_of messages preserve_recent) ->
  (forall prompt opts, generate (ReduceCall true 0) prompt opts = Failed e) ->
  exists h recent,
    process_conversation generate order messages max_tokens max_workers preserve_recent
    = Ok (h, recent) /\
    startswith h (lit "[Combination failed: " ++ e ++ lit "]" ++ NLNL) = true.
Proof.
  intros Hperm Hw Hh Hfail.
  destruct (process_conversation_returns generate order messages max_tokens
              max_workers preserve_recent Hperm Hw Hh) as (s & Hs & ->).
  do 2 eexists. split; [reflexivity|].
  destruct (hierarchical_summarize_inv generate order _ _ _ _ Hs) as (parts & ->).
  destruct (ensure_extends
              (_combine_summaries (generate (ReduceCall true 0)) parts true)
              (_extract_code_blocks (historical_of messages preserve_recent)))
    as (suffix & ->).
  unfold _combine_summaries. rewrite Hfail.
  rewrite <- !app_assoc.
  replace (lit "[Combination failed: " ++ e ++ lit "]" ++ NLNL ++ _)
    with ((lit "[Combination failed: " ++ e ++ lit "]" ++ NLNL) ++
          slice_to (join (NLNL ++ lit "---" ++ NLNL) parts) 1000 ++ lit "..." ++ suffix)
    by (rewrite <- !app_assoc; reflexivity).
  apply startswith_app.
Qed.

Lemma failed_final_reduce_is_contained_witness :
  exists h recent,
    process_conversation (fun c _ _ => match c with
                                       | ReduceCall true _ => Failed (lit "timeout")
                                       | _ => Generated (lit "summary")
                                       end)
      in_order (transcript 16) 4000 3 3 = Ok (h, recent) /\
    startswith h (lit "[Combination failed: " ++ lit "timeout" ++ lit "]" ++ NLNL) = true.
Proof.
  apply (failed_final_reduce_is_contained _ in_order (transcript 16) 4000 3 3
           (lit "timeout")).
  - intros n. reflexivity.
  - lia.
  - vm_compute. reflexivity.
  - reflexivity.
Defined.

(** X11: with more than twelve historical messages the number of
    workers decides: zero or a negative number makes
    [process_conversation] raise the [ValueError] of the thread pool,
    after the chunks have been built and before any request is made. *)
Theorem no_workers_raises
    (generate : call -> str -> options -> gen_result) (order : nat -> list nat)
    (messages : list ChatMessage) (max_tokens max_workers preserve_recent : Z) :
  max_workers <= 0 ->
  12 < len (historical_of messages preserve_recent) ->
  process_conversation generate order messages max_tokens max_workers preserve_recent
  = Raise (ValueError (lit "max_workers must be greater than 0")).
Proof.
  intros Hw Hh. unfold process_conversation.
  fold (historical_of messages preserve_recent).
  assert ((len messages <=? preserve_recent) = false) as ->.
  { apply Z.leb_gt. unfold historical_of in Hh.
    rewrite SliceFacts.len_slice_to in Hh by lia. lia. }
  replace (len (historical_of messages preserve_recent) <=? 12) with false by lia.
  unfold _hierarchical_summarize.
  destruct (create_chunks_spec (historical_of messages preserve_recent))
    as (chunks & metadata & -> & _).
  cbn [mbind res_bind Py.bind]. unfold _process_chunks_with_context.
  replace (max_workers <=? 0) with true by lia. reflexivity.
Qed.

Lemma no_workers_raises_witness :
  process_conversation unrelated in_order (transcript 16) 4000 0 3
  = Raise (ValueError (lit "max_workers must be greater than 0")).
Proof.
  apply (no_workers_raises unrelated in_order (transcript 16) 4000 0 3).
  - lia.
  - vm_compute. reflexivity.
Defined.

End PipelineExtras.

Module OccursFacts.
Import Vocabulary ContainsFacts.

Lemma occurs_contains (x s : str) : occurs x s -> contains x s = true.
Proof. intros (b & a & ->). apply contains_app. Qed.

Lemma occurs_refl {A} (x : list A) : occurs x x.
Proof. exists [], []. rewrite app_nil_r. reflexivity. Qed.

Lemma occurs_app_l {A} (x s t : list A) : occurs x s -> occurs x (s ++ t).
Proof.
  intros (b & a & ->). exists b, (a ++ t). rewrite <- !app_assoc. reflexivity.
Qed.

Lemma occurs_app_r {A} (x s t : list A) : occurs x t -> occurs x (s ++ t).
Proof.
  intros (b & a & ->). exists (s ++ b), a. rewrite <- !app_assoc. reflexivity.
Qed.

Lemma occurs_join (sep x : str) (parts : list str) :
  In x parts -> occurs x (join sep parts).
Proof.
  induction parts as [|p ps IH]; [intros []|].
  intros [-> | H].
  - destruct ps as [|p' ps']; cbn [join]; [apply occurs_refl|].
    apply occurs_app_l, occurs_refl.
  - specialize (IH H). destruct ps as [|p' ps']; [destruct H|].
    cbn [join] in *. apply occurs_app_r, occurs_app_r, IH.
Qed.

Lemma occurs_trans {A} (x y s : list A) : occurs x y -> occurs y s -> occurs x s.
Proof.
  intros (b & a & ->) (b' & a' & ->).
  exists (b' ++ b), (a ++ a'). rewrite <- !app_assoc. reflexivity.
Qed.

End OccursFacts.

Module FidelityExtras.
Import OllamaProcessor Spec Vocabulary OccursFacts TrimFacts FidelityFacts ContainsFacts.

Lemma block_of_message_wellformed msg block :
  In block (blocks_of_message msg) ->
  code block <> [] /\ strip (code block) = code block /\
  language block <> [] /\ strip (language block) = language block.
Proof.
  unfold blocks_of_message. intros H. apply in_app_or in H as [H | H].
  - apply in_flat_map in H as (mt & _ & H).
    destruct (nonempty (strip (group 2 (caps mt)))) eqn:Hc; [|destruct H].
    destruct H as [<- | []]. cbn [code language].
    split; [destruct (strip (group 2 (caps mt))); [discriminate Hc | discriminate]|].
    split; [apply strip_idem|].
    destruct (nonempty (strip (group 1 (caps mt)))) eqn:Hl.
    + split; [destruct (strip (group 1 (caps mt))); [discriminate Hl | discriminate]|].
      apply strip_idem.
    + split; [discriminate | reflexivity].
  - destruct (has_chr _ _); [|destruct H].
    apply in_flat_map in H as (mt & _ & H).
    destruct (is_some _ && nonempty (strip (group 1 (caps mt)))) eqn:Hc; [|destruct H].
    destruct H as [<- | []]. cbn [code language].
    apply andb_true_iff in Hc as [_ Hc].
    split; [destruct (strip (group 1 (caps mt))); [discriminate Hc | discriminate]|].
    split; [apply strip_idem|].
    split; [discriminate | reflexivity].
Qed.

(** X12: every code block extracted from the messages has a non-empty,
    stripped code and a non-empty, stripped language (the word after the
    fence, or "text"). *)
Theorem extracted_blocks_are_wellformed
    (messages : list ChatMessage) (block : code_block) :
  In block (_extract_code_blocks messages) ->
  code block <> [] /\ strip (code block) = code block /\
  language block <> [] /\ strip (language block) = language block.
Proof.
  unfold _extract_code_blocks. intros H.
  apply in_flat_map in H as (msg & _ & H).
  exact (block_of_message_wellformed msg block H).
Qed.

Lemma extracted_blocks_are_wellformed_witness :
  code Samples.the_block <> [] /\
  strip (code Samples.the_block) = code Samples.the_block /\
  language Samples.the_block <> [] /\
  strip (language Samples.the_block) = language Samples.the_block.
Proof.
  apply (extracted_blocks_are_wellformed Samples.code_transcript Samples.the_block).
  vm_compute. left. reflexivity.
Defined.

Lemma filter_nil_iff {A} (f : A -> bool) (l : list A) :
  List.filter f l = [] <-> forall x, In x l -> f x = false.
Proof.
  induction l as [|a l IH]; simpl.
  - split; [intros _ x [] | reflexivity].
  - destruct (f a) eqn:E.
    + split; [discriminate|]. intros H. specialize (H a (or_introl eq_refl)). congruence.
    + rewrite IH. split.
      * intros H x [<- | Hx]; auto.
      * intros H x Hx. apply H. right. assumption.
Qed.

(** X13: [_ensure_code_blocks_present] returns the summary unchanged
    exactly when the check declares no block missing; a block of fewer
    than 20 characters is never declared missing, so short blocks are
    never restored. *)
Theorem summary_is_unchanged_iff (summary : str) (blocks : list code_block) :
  (_ensure_code_blocks_present summary blocks = summary <->
   forall block, In block blocks -> is_missing summary block = false) /\
  ((forall block, In block blocks -> len (code block) < 20) ->
   _ensure_code_blocks_present summary blocks = summary).
Proof.
  assert (Hiff : _ensure_code_blocks_present summary blocks = summary <->
                 forall block, In block blocks -> is_missing summary block = false).
  { unfold _ensure_code_blocks_present.
    destruct blocks as [|b bs]; [cbn; split; [intros _ x [] | reflexivity]|].
    cbn [nonempty negb]. rewrite <- filter_nil_iff.
    destruct (List.filter (is_missing summary) (b :: bs)) as [|m ms]; cbn [nonempty].
    - split; reflexivity.
    - split; [|discriminate]. intros H. exfalso.
      apply (f_equal (@length ascii)) in H. rewrite length_app in H.
      cbn in H. lia. }
  split; [exact Hiff|].
  intros Hshort. apply Hiff. intros block Hb. unfold is_missing.
  replace (len (code block) <? 20) with true by (specialize (Hshort block Hb); lia).
  reflexivity.
Qed.

End FidelityExtras.

Module PromptExtras.
Import OllamaProcessor Vocabulary OccursFacts ContainsFacts.

Lemma create_summary_prompt_frame summarized_history recent_messages code_blocks
    target_llm :
  exists label after,
    create_summary_prompt summarized_history recent_messages code_blocks target_llm
    = label ++ instruction ++ NLNL
      ++ prompt_content summarized_history recent_messages ++ after.
Proof.
  unfold create_summary_prompt.
  destruct (startswith target_llm (lit "gpt-")).
  { exists (lit "System: "), (NLNL ++ lit "User: "). reflexivity. }
  destruct (startswith target_llm (lit "claude-")).
  { exists (lit "Human: "), (NLNL ++ lit "Human: "). reflexivity. }
  destruct (startswith target_llm (lit "gemini-")).
  { exists (lit "User: "), (NLNL ++ lit "User: "). reflexivity. }
  exists [], NLNL. reflexivity.
Qed.

(** X14: whatever the target model, the continuation prompt of the
    compressor holds the instruction, the summarized history and the
    content of every recent message verbatim. *)
Theorem prompt_holds_history_and_recent
    (summarized_history : str) (recent_messages : list ChatMessage)
    (code_blocks : list code_block) (target_llm : str) :
  let prompt := create_summary_prompt summarized_history recent_messages
                  code_blocks target_llm in
  contains instruction prompt = true /\
  contains summarized_history prompt = true /\
  forall msg, In msg recent_messages -> contains (content msg) prompt = true.
Proof.
  cbn zeta.
  destruct (create_summary_prompt_frame summarized_history recent_messages
              code_blocks target_llm) as (label & after & E).
  rewrite E. clear E.
  assert (Hc : forall x, occurs x (prompt_content summarized_history recent_messages) ->
               contains x (label ++ instruction ++ NLNL
                           ++ prompt_content summarized_history recent_messages
                           ++ after) = true).
  { intros x Hx. apply occurs_contains.
    apply occurs_app_r, occurs_app_r, occurs_app_r, occurs_app_l, Hx. }
  split; [|split].
  - apply occurs_contains.
    exists label, (NLNL ++ prompt_content summarized_history recent_messages ++ after).
    reflexivity.
  - apply Hc. unfold prompt_content. apply occurs_join. right. left. reflexivity.
  - intros msg Hm. apply Hc. unfold prompt_content.
    eapply occurs_trans; [|apply occurs_join].
    + apply occurs_app_r, occurs_refl.
    + apply in_or_app. right.
      destruct recent_messages as [|m0 ms]; [destruct Hm|]. cbn [nonempty].
      right. apply in_map_iff. exists msg. split; [reflexivity | exact Hm].
Qed.

(** X15: the prompt of the context preserver holds the compressed
    history, the content of every recent message and every code block
    verbatim. *)
Theorem preserver_prompt_holds_everything
    (compressed_history : str) (recent_messages : list ChatMessage)
    (code_blocks : list str) (target_llm : str) :
  let prompt := ContextPreserver.create_summary_prompt compressed_history
                  recent_messages code_blocks target_llm in
  contains compressed_history prompt = true /\
  (forall msg, In msg recent_messages -> contains (content msg) prompt = true) /\
  (forall block, In block code_blocks -> contains block prompt = true).
Proof.
  cbn zeta. unfold ContextPreserver.create_summary_prompt.
  set (sections := [lit "# Previous Conversation Summary"; compressed_history] ++ _).
  assert (Hc : forall x, In x sections \/ (exists y, occurs x y /\ In y sections) ->
               contains x (ContextPreserver.instruction ++ NLNL
                           ++ join NLNL sections ++ NLNL) = true).
  { intros x Hx. apply occurs_contains.
    apply occurs_app_r, occurs_app_r, occurs_app_l.
    destruct Hx as [Hx | (y & Hxy & Hy)].
    - apply occurs_join, Hx.
    - eapply occurs_trans; [exact Hxy | apply occurs_join, Hy]. }
  split; [|split].
  - apply Hc. left. subst sections. right. left. reflexivity.
  - intros msg Hm. apply Hc. right. eexists. split.
    + apply occurs_app_r, occurs_refl.
    + subst sections.
      apply in_or_app. right. apply in_or_app. right. apply in_or_app. left.
      apply in_map_iff. exists msg. split; [reflexivity | exact Hm].
  - intros block Hb. apply Hc. right. exists (join NL code_blocks). split.
    + apply occurs_join, Hb.
    + subst sections.
      apply in_or_app. right. apply in_or_app. right. apply in_or_app. right.
      destruct code_blocks as [|b0 bs]; [destruct Hb|]. cbn [nonempty].
      right. left. reflexivity.
Qed.

End PromptExtras.

Module SelectionFacts.
Import OllamaProcessor PyMore ContextSelection Vocabulary.

Lemma insert_by_perm {A} (key : A -> nat) x l :
  Permutation (insert_by key x l) (x :: l).
Proof.
  induction l as [|y l IH]; cbn [insert_by]; [reflexivity|].
  destruct (key x <? key y)%nat; [reflexivity|].
  rewrite IH. apply perm_swap.
Qed.

Lemma fold_insert_perm {A} (key : A -> nat) l : forall acc,
  Permutation (fold_left (fun acc x => insert_by key x acc) l acc) (acc ++ l).
Proof.
  induction l as [|x l IH]; intros acc; cbn [fold_left].
  - rewrite app_nil_r. reflexivity.
  - rewrite IH, insert_by_perm. apply Permutation_middle.
Qed.

Lemma sorted_by_perm {A} (key : A -> nat) (l : list A) :
  Permutation (sorted_by key l) l.
Proof. unfold sorted_by. apply (fold_insert_perm key l []). Qed.

(** The parts [select_essential_messages] cuts a list of more than ten
    messages into. *)
Lemma selection_parts (messages : list ChatMessage) :
  10 < len messages ->
  exists first middle last3,
    messages = first :: middle ++ last3 /\
    length last3 = 3%nat /\ (7 <= length middle)%nat /\
    py_index messages 0 = Ok first /\
    slice_from messages (-3) = last3 /\
    slice messages 1 (-3) = middle.
Proof.
  intros Hn. destruct messages as [|first rest]; [discriminate Hn|].
  unfold len in Hn. cbn [length] in Hn. rewrite Nat2Z.inj_succ in Hn.
  exists first, (take (length rest - 3) rest), (drop (length rest - 3) rest).
  split; [rewrite take_drop; reflexivity|].
  split; [rewrite length_drop; lia|].
  split; [rewrite length_take; lia|].
  split; [reflexivity|].
  unfold slice_from, slice, clamp_index, len. cbn [length].
  rewrite !Nat2Z.inj_succ.
  replace (-3 <? 0) with true by reflexivity.
  replace (Z.succ (Z.of_nat (length rest)) <? 0) with false
    by (symmetry; apply Z.ltb_ge; lia).
  replace (1 <? 0) with false by reflexivity.
  replace (Z.to_nat (Z.max (-3 + Z.succ (Z.of_nat (length rest))) 0))
    with (S (length rest - 3)) by lia.
  replace (Z.to_nat (Z.min 1 (Z.succ (Z.of_nat (length rest))))) with 1%nat by lia.
  cbn [drop]. rewrite drop_0. split.
  - apply take_ge. rewrite length_drop. lia.
  - f_equal. lia.
Qed.

Lemma select_unfold (messages : list ChatMessage) (token_budget : Z)
    first middle last3 :
  10 < len messages ->
  messages = first :: middle ++ last3 ->
  py_index messages 0 = Ok first ->
  slice_from messages (-3) = last3 ->
  slice messages 1 (-3) = middle ->
  (0 < length middle)%nat ->
  select_essential_messages messages token_budget =
  if Z.min 5 (token_budget / 100) =? 0 then Raises ZeroDivisionError
  else Returns (sorted_by (fun msg => index_of msg messages)
                  (([first] ++ last3)
                   ++ picked middle
                        (Z.max 1 (len middle / Z.min 5 (token_budget / 100))))).
Proof.
  intros Hn Hm H0 Hl Hmid Hpos. unfold select_essential_messages.
  replace (len messages <=? 10) with false by zbool.
  rewrite H0, Hl, Hmid. cbn [of_res mbind outcome_bind obind].
  replace (0 <? len middle) with true by (unfold len; zbool).
  destruct (Z.min 5 (token_budget / 100) =? 0); reflexivity.
Qed.

Lemma picked_all (middle : list ChatMessage) : picked middle 1 = middle.
Proof.
  unfold picked, range0.
  replace ((len middle + 1 - 1) / 1) with (len middle) by (rewrite Z.div_1_r; lia).
  unfold len. rewrite Nat2Z.id.
  assert (H : forall l pre : list ChatMessage,
    middle = pre ++ l ->
    flat_map (fun i => if i <? Z.of_nat (length middle)
                       then match middle !! Z.to_nat i with
                            | Some m => [m] | None => [] end
                       else [])
             (map (fun k => Z.of_nat k * 1) (seq (length pre) (length l))) = l).
  { induction l as [|x l IH]; intros pre E; [reflexivity|].
    cbn [length seq map flat_map]. rewrite Z.mul_1_r, Nat2Z.id.
    replace (Z.of_nat (length pre) <? Z.of_nat (length middle)) with true
      by (rewrite E, length_app; cbn [length]; zbool).
    replace (middle !! length pre) with (Some x).
    - cbn [app]. f_equal.
      specialize (IH (pre ++ [x])). rewrite <- app_assoc in IH. cbn [app] in IH.
      rewrite length_app, Nat.add_1_r in IH. exact (IH E).
    - rewrite E. symmetry. apply list_lookup_middle. reflexivity. }
  exact (H middle [] eq_refl).
Qed.

Lemma picked_first (middle : list ChatMessage) m ms :
  middle = m :: ms -> picked middle (len middle) = [m].
Proof.
  intros ->. unfold picked, range0.
  set (n := len (m :: ms)).
  assert (Hn : 0 < n) by (unfold n, len; cbn [length]; lia).
  replace ((n + n - 1) / n) with 1.
  - cbn. replace (0 <? n) with true by zbool. reflexivity.
  - apply Z.div_unique with (r := n - 1); lia.
Qed.

Lemma picked_In (middle : list ChatMessage) step m :
  In m (picked middle step) -> In m middle.
Proof.
  unfold picked. intros H. apply in_flat_map in H as (i & _ & H).
  destruct (i <? len middle); [|destruct H].
  destruct (middle !! Z.to_nat i) as [x|] eqn:E; [|destruct H].
  destruct H as [<- | []].
  apply list_elem_of_In. eapply list_elem_of_lookup_2. exact E.
Qed.

End SelectionFacts.

Module SelectionExtras.
Import OllamaProcessor PyMore ContextSelection Vocabulary SelectionFacts.

(** X16: with more than ten messages and a token budget from 0 to 99,
    [select_essential_messages] divides by zero: the stride is the
    number of middle messages over [min(5, token_budget // 100)]. *)
Theorem tiny_budget_divides_by_zero (messages : list ChatMessage) (token_budget : Z) :
  10 < len messages ->
  0 <= token_budget < 100 ->
  select_essential_messages messages token_budget = Raises ZeroDivisionError.
Proof.
  intros Hn Hb.
  destruct (selection_parts messages Hn) as (first & middle & last3 & Hm & _ & Hmid & H0 & Hl & Hs).
  rewrite (select_unfold messages token_budget first middle last3) by (auto; lia).
  rewrite Z.div_small by lia. reflexivity.
Qed.

Lemma tiny_budget_divides_by_zero_witness :
  select_essential_messages (Samples.transcript 11) 99 = Raises ZeroDivisionError.
Proof.
  apply (tiny_budget_divides_by_zero (Samples.transcript 11) 99).
  - reflexivity.
  - lia.
Defined.

(** X17: with more than ten messages and a budget that is negative or at
    least 100, [select_essential_messages] returns; what it returns are
    messages of the input, among them the first message and the last
    three, and no more messages than the input has. *)
Theorem selection_keeps_first_and_last (messages : list ChatMessage) (token_budget : Z) :
  10 < len messages ->
  token_budget < 0 \/ 100 <= token_budget ->
  exists selected,
    select_essential_messages messages token_budget = Returns selected /\
    (forall m, In m selected -> In m messages) /\
    (forall m, head messages = Some m -> In m selected) /\
    (forall m, In m (slice_from messages (-3)) -> In m selected) /\
    length (slice_from messages (-3)) = 3%nat /\
    (5 <= length selected)%nat.
Proof.
  intros Hn Hb.
  destruct (selection_parts messages Hn) as (first & middle & last3 & Hm & Hl3 & Hmid & H0 & Hl & Hs).
  rewrite (select_unfold messages token_budget first middle last3) by (auto; lia).
  assert (Hd : Z.min 5 (token_budget / 100) <> 0).
  { destruct Hb as [Hb | Hb].
    - assert (token_budget / 100 < 0) by (apply Z.div_lt_upper_bound; lia). lia.
    - assert (1 <= token_budget / 100) by (apply Z.div_le_lower_bound; lia). lia. }
  replace (Z.min 5 (token_budget / 100) =? 0) with false by zbool.
  eexists. split; [reflexivity|].
  set (step := Z.max 1 _).
  pose proof (sorted_by_perm (fun msg => index_of msg messages)
                (([first] ++ last3) ++ picked middle step)) as Hp.
  rewrite Hl.
  split; [|split; [|split; [|split]]].
  - intros m Hin. apply (Permutation_in _ Hp) in Hin.
    rewrite Hm. apply in_app_or in Hin as [Hin | Hin].
    + destruct Hin as [<- | Hin]; [left; reflexivity|].
      right. apply in_or_app. right. exact Hin.
    + right. apply in_or_app. left. eapply picked_In. exact Hin.
  - intros m Hh. rewrite Hm in Hh. injection Hh as <-.
    apply (Permutation_in _ (Permutation_sym Hp)). left. reflexivity.
  - intros m Hin. apply (Permutation_in _ (Permutation_sym Hp)).
    apply in_or_app. left. right. exact Hin.
  - exact Hl3.
  - rewrite (Permutation_length Hp), !length_app. cbn [length].
    assert (1 <= length (picked middle step))%nat; [|lia].
    destruct middle as [|m0 ms]; [cbn in Hmid; lia|].
    unfold picked, range0.
    assert (Hq : 1 <= (len (m0 :: ms) + step - 1) / step).
    { apply Z.div_le_lower_bound; unfold len, step; cbn [length]; lia. }
    destruct (Z.to_nat ((len (m0 :: ms) + step - 1) / step)) as [|q] eqn:Eq; [lia|].
    cbn [seq map flat_map]. change (Z.of_nat 0 * step) with 0.
    replace (0 <? len (m0 :: ms)) with true by reflexivity.
    change ((m0 :: ms) !! Z.to_nat 0) with (Some m0).
    rewrite length_app. cbn [length]. lia.
Qed.

Lemma selection_keeps_first_and_last_witness :
  exists selected,
    select_essential_messages (Samples.transcript 12) 250 = Returns selected /\
    (5 <= length selected)%nat.
Proof.
  destruct (selection_keeps_first_and_last (Samples.transcript 12) 250)
    as (s & H & _ & _ & _ & _ & Hl).
  - reflexivity.
  - right. lia.
  - exists s. split; assumption.
Defined.

(** X18: a negative budget selects everything: with more than ten
    messages and [token_budget < 0] the stride is 1 and the selection is
    a rearrangement of the whole input. *)
Theorem negative_budget_keeps_everything (messages : list ChatMessage) (token_budget : Z) :
  10 < len messages ->
  token_budget < 0 ->
  exists selected,
    select_essential_messages messages token_budget = Returns selected /\
    Permutation selected messages /\
    length selected = length messages.
Proof.
  intros Hn Hb.
  destruct (selection_parts messages Hn) as (first & middle & last3 & Hm & Hl3 & Hmid & H0 & Hl & Hs).
  rewrite (select_unfold messages token_budget first middle last3) by (auto; lia).
  assert (Hd : token_budget / 100 < 0) by (apply Z.div_lt_upper_bound; lia).
  replace (Z.min 5 (token_budget / 100) =? 0) with false by zbool.
  rewrite Z.min_r by lia.
  assert (Hq : len middle / (token_budget / 100) <= 0).
  { pose proof (Z.div_mod (len middle) (token_budget / 100) ltac:(lia)) as Hdm.
    pose proof (Z.mod_neg_bound (len middle) (token_budget / 100) ltac:(lia)) as Hmb.
    unfold len in *. nia. }
  rewrite Z.max_l by lia. rewrite picked_all.
  eexists. split; [reflexivity|].
  assert (Hp : Permutation (sorted_by (fun msg => index_of msg messages)
                              (([first] ++ last3) ++ middle)) messages).
  { rewrite sorted_by_perm, Hm. cbn [app]. constructor. apply Permutation_app_comm. }
  split; [exact Hp | exact (Permutation_length Hp)].
Qed.

Lemma negative_budget_keeps_everything_witness :
  exists selected,
    select_essential_messages (Samples.transcript 12) (-1) = Returns selected /\
    Permutation selected (Samples.transcript 12) /\
    length selected = 12%nat.
Proof.
  apply (negative_budget_keeps_everything (Samples.transcript 12) (-1)).
  - reflexivity.
  - lia.
Defined.

(** X19: a budget from 100 to 199 selects five messages, whatever the
    length of the input: the first two and the last three. *)
Theorem small_budget_selects_five (messages : list ChatMessage) (token_budget : Z) :
  10 < len messages ->
  100 <= token_budget < 200 ->
  exists selected first second,
    select_essential_messages messages token_budget = Returns selected /\
    messages !! 0%nat = Some first /\ messages !! 1%nat = Some second /\
    Permutation selected ([first; second] ++ slice_from messages (-3)) /\
    length selected = 5%nat.
Proof.
  intros Hn Hb.
  destruct (selection_parts messages Hn) as (first & middle & last3 & Hm & Hl3 & Hmid & H0 & Hl & Hs).
  rewrite (select_unfold messages token_budget first middle last3) by (auto; lia).
  assert (Hd : token_budget / 100 = 1).
  { symmetry. apply Z.div_unique with (r := token_budget - 100); lia. }
  rewrite Hd. cbn [Z.min Z.compare Pos.compare Pos.compare_cont Z.eqb].
  rewrite Z.div_1_r, Z.max_r by (unfold len; lia).
  destruct middle as [|second ms] eqn:Emid; [cbn in Hmid; lia|].
  rewrite (picked_first (second :: ms) second ms eq_refl).
  exists (sorted_by (fun msg => index_of msg messages) (([first] ++ last3) ++ [second])),
         first, second.
  split; [reflexivity|]. rewrite Hl.
  split; [rewrite Hm; reflexivity|]. split; [rewrite Hm; reflexivity|].
  assert (Hp : Permutation (sorted_by (fun msg => index_of msg messages)
                              (([first] ++ last3) ++ [second]))
                           ([first; second] ++ last3)).
  { rewrite sorted_by_perm. cbn [app]. constructor.
    rewrite Permutation_app_comm. reflexivity. }
  split; [exact Hp|].
  rewrite (Permutation_length Hp). cbn [app length]. lia.
Qed.

Lemma small_budget_selects_five_witness :
  exists selected first second,
    select_essential_messages (Samples.transcript 30) 150 = Returns selected /\
    Samples.transcript 30 !! 0%nat = Some first /\
    Samples.transcript 30 !! 1%nat = Some second /\
    Permutation selected ([first; second] ++ slice_from (Samples.transcript 30) (-3)) /\
    length selected = 5%nat.
Proof.
  apply (small_budget_selects_five (Samples.transcript 30) 150).
  - reflexivity.
  - lia.
Defined.

Section External.
Variable estimate_tokens_for : str -> str -> Z.

Lemma select_outcome (messages : list ChatMessage) (token_budget : Z) :
  (exists selected,
     select_essential_messages messages token_budget = Returns selected /\
     (messages <> [] -> selected <> [])) \/
  select_essential_messages messages token_budget = Raises ZeroDivisionError.
Proof.
  destruct (decide (10 < len messages)) as [Hn | Hn].
  - destruct (selection_parts messages Hn) as (first & middle & last3 & Hm & Hl3 & Hmid & H0 & Hl & Hs).
    rewrite (select_unfold messages token_budget first middle last3) by (auto; lia).
    destruct (Z.min 5 (token_budget / 100) =? 0); [right; reflexivity|].
    left. eexists. split; [reflexivity|]. intros _ Hnil.
    match type of Hnil with
    | sorted_by ?k ?l = [] => pose proof (sorted_by_perm k l) as Hp
    end.
    rewrite Hnil in Hp. apply Permutation_nil in Hp. discriminate Hp.
  - left. exists messages. unfold select_essential_messages.
    replace (len messages <=? 10) with true by zbool. auto.
Qed.

(** X20: [preserve_context] never returns a prompt.  It hands the first
    character of the formatted content to [create_summary_prompt] in the
    place of the recent messages, and reading [.role] on a string
    raises; with no message at all, taking that first character already
    raises; and a small budget divides by zero before. *)
Theorem preserve_context_never_returns
    (messages : list ChatMessage) (token_limit : Z) (target_llm : str) :
  (exists e,
     preserve_context estimate_tokens_for messages token_limit target_llm = Raises e /\
     (e = Base IndexError \/ e = ZeroDivisionError \/
      e = Base (AttributeError (lit "role")))) /\
  (messages = [] ->
   preserve_context estimate_tokens_for messages token_limit target_llm
   = Raises (Base IndexError)).
Proof.
  split.
  - unfold preserve_context.
    match goal with
    | |- context [select_essential_messages messages ?b] =>
        destruct (select_outcome messages b) as [(sel & -> & Hne) | ->]
    end; cbn [mbind outcome_bind obind].
    + match goal with
      | |- context [py_index ?c 0] => destruct c as [|c0 rest] eqn:Ec
      end.
      * eexists. split; [reflexivity | auto].
      * cbn. eexists. split; [reflexivity | auto].
    + eexists. split; [reflexivity | auto].
  - intros ->. reflexivity.
Qed.

End External.

End SelectionExtras.

Module HelperExtras.
Import Helpers ContainsFacts.

Lemma replace_absent (old new s : str) :
  contains old s = false -> replace old new s = s.
Proof.
  unfold replace. induction s as [|c s IH]; [reflexivity|].
  rewrite contains_unfold. intros H. apply orb_false_iff in H as [Hs Hc].
  cbn [replace_from]. rewrite Hs. f_equal. apply IH, Hc.
Qed.

(** X21: [format_for_llm] leaves a content as it is unless the target
    starts with "gemini-" and the content holds the label "Human:" or
    "Assistant:". *)
Theorem format_for_llm_only_rewrites_gemini_labels (text target_llm : str) :
  (startswith target_llm (lit "gemini-") = false ->
   format_for_llm text target_llm = text) /\
  (contains (lit "Human:") text = false ->
   contains (lit "Assistant:") text = false ->
   format_for_llm text target_llm = text).
Proof.
  unfold format_for_llm. split.
  - intros ->. destruct (startswith _ _); [|destruct (startswith _ _)]; reflexivity.
  - intros Hh Ha.
    destruct (startswith target_llm (lit "gpt-")); [reflexivity|].
    destruct (startswith target_llm (lit "claude-")); [reflexivity|].
    destruct (startswith target_llm (lit "gemini-")); [|reflexivity].
    rewrite (replace_absent (lit "Human:") _ text Hh).
    apply replace_absent, Ha.
Qed.

End HelperExtras.

Module EndpointExtras.
Import OllamaProcessor PyMore Main TokenCounter ParserFacts SliceFacts.
Import Vocabulary OccursFacts.

Section App.
Variable json_loads : str -> ChatParser.loads_result.
Variable estimate_tokens : str -> option str -> Z.
Variable generate : str -> list (string * Z) -> gen_result.
Variable float : Type.
Variable reduction : Z -> Z -> float.

(** [chat_parser.parse(text)] returns a parsed chat with at least one
    message, unless [json.loads] is reached and raises an exception that
    [_detect_format] does not catch. *)
Lemma chat_parser_parse_outcome (text : str) :
  (exists parsed,
     chat_parser_parse json_loads estimate_tokens text = Returns parsed /\
     raw_content parsed = text /\
     message_count parsed = len (messages parsed) /\
     (1 <= length (messages parsed))%nat /\
     forall e, ~ loads_escapes json_loads text None e) \/
  (exists e,
     chat_parser_parse json_loads estimate_tokens text = Raises (Base e) /\
     loads_escapes json_loads text None e).
Proof.
  unfold chat_parser_parse.
  destruct (parse_outcome json_loads (fun s => estimate_tokens s None) text None)
    as [(f & msgs & E & Hne & Hf & _) | (e & E & Hesc)].
  - left. rewrite E. eexists. split; [reflexivity|].
    cbn [raw_content message_count messages]. split; [reflexivity|].
    split; [reflexivity|]. split; [destruct msgs; [congruence | simpl; lia]|].
    intros e [Hr Hl]. specialize (Hf eq_refl).
    unfold ChatParser._detect_format in Hf. unfold reaches_json in Hr.
    cbn [truthy negb andb] in Hr. rewrite Hr, Hl in Hf. discriminate Hf.
  - right. rewrite E. exists e. split; [reflexivity | exact Hesc].
Qed.

(** X22: [/api/parse] answers 400 when it has no text: neither a file
    nor a non-empty [content] (an empty [content] counts as none), or a
    file that does not decode.  When it has a text (a file that decodes,
    even to the empty text, or a non-empty [content]) it answers with
    the parsed chat, of at least one message, unless [json.loads] is
    reached on that text and raises an exception other than
    [JSONDecodeError]: then it answers 400 with that exception. *)
Theorem parse_chat_spec (file : option (outcome str)) (content : option str) :
  match file, content with
  | Some (Raises e), _ =>
      parse_chat json_loads estimate_tokens file content
      = Raises (HTTPException 400 (StrOf e))
  | None, None | None, Some [] =>
      parse_chat json_loads estimate_tokens file content
      = Raises (HTTPException 400
                  (StrOf (HTTPException 400
                            (Text (lit "Either file or content must be provided")))))
  | Some (Returns text), _ | None, Some ((_ :: _) as text) =>
      ((forall e, ~ loads_escapes json_loads text None e) ->
       exists body,
         parse_chat json_loads estimate_tokens file content = Returns body /\
         pb_content body = text /\
         pb_message_count body = len (pb_messages body) /\
         1 <= pb_message_count body) /\
      (forall e, loads_escapes json_loads text None e ->
         parse_chat json_loads estimate_tokens file content
         = Raises (HTTPException 400 (StrOf (Base e))))
  end.
Proof.
  assert (Hok : forall text,
    ((forall e, ~ loads_escapes json_loads text None e) ->
     exists body,
       answer_400
         (parsed_chat ← chat_parser_parse json_loads estimate_tokens text;
          Returns (mkParseBody text (messages parsed_chat)
                     (message_count parsed_chat) (token_count parsed_chat)
                     (format_detected parsed_chat))) = Returns body /\
       pb_content body = text /\
       pb_message_count body = len (pb_messages body) /\
       1 <= pb_message_count body) /\
    (forall e, loads_escapes json_loads text None e ->
       answer_400
         (parsed_chat ← chat_parser_parse json_loads estimate_tokens text;
          Returns (mkParseBody text (messages parsed_chat)
                     (message_count parsed_chat) (token_count parsed_chat)
                     (format_detected parsed_chat)))
       = Raises (HTTPException 400 (StrOf (Base e))))).
  { intros text.
    destruct (chat_parser_parse_outcome text)
      as [(p & -> & _ & Hc & Hl & Hno) | (e & -> & Hesc)].
    - split.
      + intros _. eexists. split; [reflexivity|]. cbn. split; [reflexivity|].
        split; [exact Hc|]. rewrite Hc. unfold len. lia.
      + intros e He. destruct (Hno e He).
    - split.
      + intros Hno. destruct (Hno e Hesc).
      + intros e' [_ He']. destruct Hesc as [_ He]. rewrite He in He'.
        injection He' as <-. reflexivity. }
  destruct file as [[text | e] |]; [apply Hok | reflexivity |].
  destruct content as [[|c t] |]; [reflexivity | apply Hok | reflexivity].
Qed.

(** X23: [/api/upload] answers as [/api/parse] does for the same file,
    without the list of messages. *)
Theorem upload_agrees_with_parse (file : outcome str) (content : option str) :
  match parse_chat json_loads estimate_tokens (Some file) content,
        upload_file json_loads estimate_tokens file with
  | Returns body, Returns upload =>
      ub_content upload = pb_content body /\
      ub_message_count upload = pb_message_count body /\
      ub_token_count upload = pb_token_count body /\
      ub_format_detected upload = pb_format_detected body
  | Raises e, Raises e' => e = e'
  | _, _ => False
  end.
Proof.
  unfold parse_chat, upload_file. destruct file as [text | e]; [|reflexivity].
  cbn [mbind outcome_bind obind].
  destruct (chat_parser_parse json_loads estimate_tokens text) as [p | e];
    cbn; auto.
Qed.

(** X24: when the service does not answer the ping,
    [/api/compress-context] answers 400, never 503.  When the chat was
    parsed, the statement that raises the 503 reads the name [e] after
    the handler of the ping has unbound it, and the handler around the
    whole body turns that error into a 400 whose detail is not the error
    of the service; when [json.loads] raised while the chat was parsed,
    the 400 carries that exception. *)
Theorem unavailable_service_answers_400 (request : SummaryRequest) (msg : str) :
  generate (lit "Hello") [("num_predict"%string, 5)] = Failed msg ->
  (exists d,
     compress_context json_loads estimate_tokens generate float reduction request
     = Raises (HTTPException 400 d)) /\
  ((forall e, ~ loads_escapes json_loads (chat_content request) None e) ->
   compress_context json_loads estimate_tokens generate float reduction request
   = Raises (HTTPException 400 (StrOf (UnboundLocalError (lit "e"))))) /\
  (forall e, loads_escapes json_loads (chat_content request) None e ->
   compress_context json_loads estimate_tokens generate float reduction request
   = Raises (HTTPException 400 (StrOf (Base e)))).
Proof.
  intros Hping. unfold compress_context.
  destruct (chat_parser_parse_outcome (chat_content request))
    as [(p & -> & _ & _ & _ & Hno) | (e & -> & Hesc)];
    cbn [mbind outcome_bind obind]; rewrite ?Hping.
  - split; [eexists; reflexivity|]. split; [reflexivity|].
    intros e He. destruct (Hno e He).
  - split; [eexists; reflexivity|]. split.
    + intros Hno. destruct (Hno e Hesc).
    + intros e' [_ He']. destruct Hesc as [_ He]. rewrite He in He'.
      injection He' as <-. reflexivity.
Qed.

(** X25: when the chat is parsed ([json.loads] does not raise past
    [_detect_format]) and the service answers the ping,
    [/api/compress-context] cuts the parsed messages into a history and
    the recent messages (the last three when there are six or more, none
    when there are at most three) and asks for one compression of the
    history; if that request fails the answer is 400 with the error of
    the service, and otherwise the body holds the prompt of the context
    preserver over the answer, the recent messages and the code blocks
    of all messages. *)
Theorem compress_context_spec (request : SummaryRequest) (pong : str) :
  (forall e, ~ loads_escapes json_loads (chat_content request) None e) ->
  generate (lit "Hello") [("num_predict"%string, 5)] = Generated pong ->
  exists parsed historical recent,
    chat_parser_parse json_loads estimate_tokens (chat_content request)
      = Returns parsed /\
    messages parsed = historical ++ recent /\
    len recent = Z.max 0 (Z.min 3 (len (messages parsed) - 3)) /\
    match generate (ContextPreserver.compress_prompt (_format_messages historical)) [] with
    | Failed e =>
        compress_context json_loads estimate_tokens generate float reduction request
        = Raises (HTTPException 400 (StrOf (Base (Exception_ e))))
    | Generated compressed =>
        exists body,
          compress_context json_loads estimate_tokens generate float reduction
            request = Returns body /\
          compressed_content body =
            ContextPreserver.create_summary_prompt compressed recent
              (flat_map (fun m => Helpers.extract_code_blocks (content m) true)
                        (messages parsed))
              (target_llm request) /\
          original_content body = chat_content request /\
          original_tokens body = token_count parsed /\
          ollama_used body = true
    end.
Proof.
  intros Hno Hping.
  destruct (chat_parser_parse_outcome (chat_content request))
    as [(p & Hp & _ & _ & Hl & _) | (e & _ & Hesc)]; [|destruct (Hno e Hesc)].
  set (split_index := Z.max (len (messages p) - 3) 3).
  exists p, (slice_to (messages p) split_index), (slice_from (messages p) split_index).
  split; [exact Hp|].
  split; [symmetry; apply slice_to_from; unfold split_index; lia|].
  split.
  { rewrite slice_from_drop by (unfold split_index; lia).
    unfold len. rewrite length_drop. unfold split_index, len. lia. }
  unfold compress_context. rewrite Hp. cbn [mbind outcome_bind obind].
  rewrite Hping. fold split_index.
  unfold ContextPreserver.compress_with_llama.
  destruct (generate _ []) as [compressed | e]; [|reflexivity].
  cbn [of_res mbind outcome_bind obind answer_400].
  eexists. split; [reflexivity|]. cbn. auto.
Qed.

(** X28: [/api/compress-context] does not look at [max_tokens],
    [preserve_code] and [include_system_prompts]: the token limit it
    computes from the request is not used, and two requests with the
    same chat and target get the same answer. *)
Theorem compress_context_ignores_limits
    (chat target : str) (limit limit' : option Z)
    (keep_code keep_code' system_prompts system_prompts' : bool) :
  compress_context json_loads estimate_tokens generate float reduction
    (mkRequest chat target limit keep_code system_prompts) =
  compress_context json_loads estimate_tokens generate float reduction
    (mkRequest chat target limit' keep_code' system_prompts').
Proof. reflexivity. Qed.

End App.

Lemma parse_chat_spec_witness :
  (exists body,
     parse_chat Samples.refusing (fun _ _ => 0) None (Some (lit "[1, 2")) = Returns body /\
     pb_content body = lit "[1, 2") /\
  parse_chat Samples.overflowing (fun _ _ => 0) None (Some (lit "[1, 2"))
  = Raises (HTTPException 400
              (StrOf (Base (Exception_ (lit "maximum recursion depth exceeded"))))).
Proof.
  pose proof (parse_chat_spec Samples.refusing (fun _ _ => 0) None
                (Some (lit "[1, 2"))) as [Hok _].
  pose proof (parse_chat_spec Samples.overflowing (fun _ _ => 0) None
                (Some (lit "[1, 2"))) as [_ Hraise].
  split.
  - destruct Hok as (body & Hb & Hc & _).
    + intros e [_ H]. discriminate H.
    + exists body. split; assumption.
  - apply Hraise. split; reflexivity.
Defined.

Lemma unavailable_service_answers_400_witness :
  compress_context Samples.refusing (fun _ _ => 0)
    (fun _ _ => Failed (lit "connection refused")) Q (fun _ _ => 0%Q)
    (mkRequest (lit "User: hi") (lit "gpt-4") None true true)
  = Raises (HTTPException 400 (StrOf (UnboundLocalError (lit "e")))).
Proof.
  apply (unavailable_service_answers_400 Samples.refusing (fun _ _ => 0)
           (fun _ _ => Failed (lit "connection refused")) Q (fun _ _ => 0%Q)
           (mkRequest (lit "User: hi") (lit "gpt-4") None true true)
           (lit "connection refused")).
  - reflexivity.
  - intros e [_ H]. discriminate H.
Defined.

Lemma compress_context_spec_witness :
  exists body,
    compress_context Samples.refusing (fun _ _ => 0)
      (fun _ _ => Generated (lit "summary")) Q (fun _ _ => 0%Q)
      (mkRequest (lit "User: hi") (lit "gpt-4") None true true) = Returns body /\
    ollama_used body = true.
Proof.
  destruct (compress_context_spec Samples.refusing (fun _ _ => 0)
              (fun _ _ => Generated (lit "summary")) Q (fun _ _ => 0%Q)
              (mkRequest (lit "User: hi") (lit "gpt-4") None true true)
              (lit "summary"))
    as (p & h & r & _ & _ & _ & H).
  - intros e [_ H]. discriminate H.
  - reflexivity.
  - cbv beta in H. destruct H as (body & Hb & _ & _ & _ & Hu).
    exists body. split; assumption.
Defined.

End EndpointExtras.

Module RequestExtras.
Import OllamaProcessor Vocabulary OccursFacts ContainsFacts.

Lemma format_messages_occurs (messages : list ChatMessage) (msg : ChatMessage) :
  In msg messages -> occurs (content msg) (_format_messages messages).
Proof.
  intros H. unfold _format_messages.
  eapply occurs_trans; [|apply occurs_join; apply in_map_iff; exists msg; split;
                          [reflexivity | exact H]].
  apply occurs_app_r, occurs_app_r, occurs_refl.
Qed.

(** X26: the requests hold their inputs verbatim: the prompt of a map
    task holds the context description and the content of every message
    of its chunk, the prompt of a reduce call holds every summary it
    combines, and the prompt of [compress_with_llama] holds the content
    of every message. *)
Theorem requests_hold_their_inputs :
  (forall (messages : list ChatMessage) (context_desc : str) (meta : chunk_meta),
     contains context_desc
       (map_prompt (_format_messages messages) context_desc meta) = true /\
     forall msg, In msg messages ->
       contains (content msg)
         (map_prompt (_format_messages messages) context_desc meta) = true) /\
  (forall (summaries : list str) (is_final : bool) (summary : str),
     In summary summaries ->
     contains summary
       (combine_prompt (join (NLNL ++ lit "---" ++ NLNL) summaries) is_final) = true) /\
  (forall (messages : list ChatMessage) (msg : ChatMessage),
     In msg messages ->
     contains (content msg)
       (ContextPreserver.compress_prompt (_format_messages messages)) = true).
Proof.
  split; [|split].
  - intros messages context_desc meta. split.
    + apply occurs_contains. unfold map_prompt.
      apply occurs_app_r, occurs_app_l, occurs_refl.
    + intros msg Hm. apply occurs_contains. unfold map_prompt.
      do 7 apply occurs_app_r. apply occurs_app_l.
      apply format_messages_occurs, Hm.
  - intros summaries is_final summary Hs. apply occurs_contains.
    unfold combine_prompt.
    do 8 apply occurs_app_r. apply occurs_app_l.
    apply occurs_join, Hs.
  - intros messages msg Hm. apply occurs_contains.
    unfold ContextPreserver.compress_prompt.
    apply occurs_app_r, occurs_app_l.
    apply format_messages_occurs, Hm.
Qed.

End RequestExtras.


Module LineFacts.
Import ChatParser Spec Vocabulary OccursFacts TrimFacts ParserFacts.

Lemma occurs_nil {A} (s : list A) : occurs [] s.
Proof. exists [], s. reflexivity. Qed.

Lemma occurs_rev {A} (l s : list A) : occurs l s -> occurs (rev l) (rev s).
Proof.
  intros (b & a & ->). exists (rev a), (rev b).
  rewrite !rev_app_distr, <- app_assoc. reflexivity.
Qed.

Lemma occurs_lstrip (c : ascii) (t s : str) :
  isspace c = false -> occurs (c :: t) s -> occurs (c :: t) (lstrip s).
Proof.
  intros Hc. induction s as [|x s IH]; intros H; [exact H|].
  cbn [lstrip]. destruct (isspace x) eqn:Hx; [|exact H].
  apply IH. destruct H as (b & a & E). destruct b as [|y b].
  - cbn in E. injection E as -> _. congruence.
  - cbn in E. injection E as _ ->. exists b, a. reflexivity.
Qed.

Lemma lstrip_strip (s : str) : lstrip (strip s) = strip s.
Proof.
  unfold strip, rstrip.
  destruct (lstrip_cases s) as [-> | (c & a & -> & Hc)]; [reflexivity|].
  cbn [rev]. destruct (lstrip_snoc (rev a) c Hc) as (t & ->).
  rewrite rev_app_distr. simpl. rewrite Hc. reflexivity.
Qed.

(** A stripped, non-empty string starts and ends with a character that
    is not whitespace. *)
Lemma stripped_ends (l : str) :
  stripped l -> l <> [] ->
  (exists c t, l = c :: t /\ isspace c = false) /\
  (exists c t, rev l = c :: t /\ isspace c = false).
Proof.
  intros Hl Hne. unfold stripped in Hl. split.
  - pose proof (lstrip_strip l) as H. rewrite Hl in H.
    destruct (lstrip_cases l) as [E | (c & t & E & Hc)]; rewrite H in E;
      [congruence | eauto].
  - unfold strip, rstrip in Hl.
    destruct (lstrip_cases (rev (lstrip l))) as [E | (c & t & E & Hc)].
    + rewrite E in Hl. cbn in Hl. congruence.
    + exists c, t. split; [|exact Hc].
      rewrite <- Hl at 1. rewrite rev_involutive. exact E.
Qed.

Lemma occurs_strip (l s : str) : stripped l -> occurs l s -> occurs l (strip s).
Proof.
  intros Hl H. destruct l as [|c0 t0] eqn:El; [apply occurs_nil|].
  rewrite <- El in *.
  destruct (stripped_ends l Hl) as ((c & t & E1 & Hc) & (c' & t' & E2 & Hc'));
    [congruence|].
  unfold strip, rstrip.
  assert (H1 : occurs l (lstrip s)) by (rewrite E1 in *; apply occurs_lstrip; assumption).
  apply occurs_rev in H1. rewrite E2 in H1.
  apply (occurs_lstrip c' t' _ Hc') in H1. rewrite <- E2 in H1.
  apply occurs_rev in H1. rewrite rev_involutive in H1. exact H1.
Qed.

Lemma kept_line_stripped (raw : str) : stripped (kept_line (strip raw)).
Proof.
  unfold kept_line, stripped.
  destruct (truthy _); [|apply strip_idem].
  destruct (re_match _ _); apply strip_idem.
Qed.

(** Flushing the buffer into a message loses no line. *)
Lemma held_flush st r role' l :
  Forall stripped (current_content st) ->
  held st l ->
  held (mkState (st_messages st
                 ++ [mkMsg r (strip (join NL (current_content st)))]) role' []) l.
Proof.
  intros Hs [(m & Hm & Ho) | Hin]; left.
  - exists m. split; [apply in_or_app; left; exact Hm | exact Ho].
  - eexists. split; [apply in_or_app; right; left; reflexivity|].
    cbn [content]. apply occurs_strip.
    + rewrite Forall_forall in Hs. apply Hs. apply list_elem_of_In. exact Hin.
    + apply occurs_join, Hin.
Qed.

Lemma held_push st role' l x :
  held st l -> held (mkState (st_messages st) role' (current_content st ++ [x])) l.
Proof.
  intros [H | H]; [left; exact H | right]. apply in_or_app. left. exact H.
Qed.

Lemma held_new st role' x :
  held (mkState (st_messages st) role' (current_content st ++ [x])) x.
Proof. right. apply in_or_app. right. left. reflexivity. Qed.

(** The line loop holds every line it has read. *)
Lemma process_lines_keeps lines : forall st st',
  process_lines lines st = Ok st' ->
  Forall stripped (current_content st) ->
  Forall stripped (current_content st') /\
  (forall l, held st l -> held st' l) /\
  (forall raw, In raw lines -> strip raw <> [] -> held st' (kept_line (strip raw))).
Proof.
  induction lines as [|raw rest IH]; intros st st' Hrun Hs.
  - injection Hrun as <-. split; [assumption|]. split; [auto | intros raw []].
  - cbn [process_lines] in Hrun.
    destruct (nonempty (strip raw)) eqn:Hblank; cbn [negb] in Hrun.
    + (* a line with text *)
      assert (Hstep : exists role' msgs' cc',
        process_lines rest
          (mkState msgs' role' (cc' ++ [kept_line (strip raw)])) = Ok st' /\
        Forall stripped cc' /\
        (forall l, held st l -> held (mkState msgs' role' cc') l)).
      { unfold kept_line.
        destruct (truthy (detect_role_change (strip raw))).
        - destruct (truthy (current_role st) && nonempty (current_content st)).
          + destruct (current_role st) as [r|]; [|discriminate].
            cbn [new_message mbind res_bind Py.bind mret res_ret] in Hrun.
            cbn [st_messages current_role current_content] in Hrun.
            do 3 eexists. split; [exact Hrun|]. split; [constructor|].
            intros l Hl. apply held_flush; assumption.
          + cbn [mbind res_bind Py.bind mret res_ret] in Hrun.
            cbn [st_messages current_role current_content] in Hrun.
            do 3 eexists. split; [exact Hrun|]. split; [exact Hs|].
            intros l [H | H]; [left | right]; exact H.
        - cbn [mbind res_bind Py.bind mret res_ret] in Hrun.
          do 3 eexists. split; [exact Hrun|]. split; [exact Hs|].
          intros l [H | H]; [left | right]; exact H. }
      destruct Hstep as (role' & msgs' & cc' & Hrun' & Hs' & Hkeep).
      apply IH in Hrun' as (Hs'' & Hheld & Hnew).
      * split; [exact Hs''|]. split.
        -- intros l Hl. apply Hheld.
           apply (held_push (mkState msgs' role' cc')), Hkeep, Hl.
        -- intros raw' [<- | Hin] Hne; [|apply Hnew; assumption].
           apply Hheld. apply (held_new (mkState msgs' role' cc')).
      * cbn [current_content]. apply Forall_app. split; [exact Hs'|].
        constructor; [apply kept_line_stripped | constructor].
    + (* a blank line *)
      assert (Hb : strip raw = []) by (destruct (strip raw); [reflexivity | discriminate]).
      destruct ((2 <=? length (List.filter is_blank (take 3 rest)))%nat
                && nonempty (current_content st)).
      * destruct (current_role st) as [r|]; [|discriminate].
        cbn [new_message mbind res_bind Py.bind] in Hrun.
        apply IH in Hrun as (Hs'' & Hheld & Hnew); [|constructor].
        split; [exact Hs''|]. split.
        -- intros l Hl. apply Hheld, held_flush; assumption.
        -- intros raw' [<- | Hin] Hne; [congruence | apply Hnew; assumption].
      * apply IH in Hrun as (Hs'' & Hheld & Hnew); [|exact Hs].
        split; [exact Hs''|]. split; [exact Hheld|].
        intros raw' [<- | Hin] Hne; [congruence | apply Hnew; assumption].
Qed.

Lemma validate_order_contents ms : forall prev m,
  In m ms -> exists m', In m' (validate_order prev ms) /\ content m' = content m.
Proof.
  induction ms as [|x ms IH]; intros prev m; [intros []|].
  cbn [validate_order]. intros [<- | H].
  - eexists. split; [left; reflexivity|]. destruct (str_eqb _ _); reflexivity.
  - match goal with
    | |- context [validate_order ?p ms] => destruct (IH p m H) as (m' & Hin & E)
    end.
    exists m'. split; [right; exact Hin | exact E].
Qed.

Lemma repaired_contents msgs m :
  In m msgs -> exists m', In m' (repaired msgs) /\ content m' = content m.
Proof.
  unfold repaired. destruct (2 <=? length msgs)%nat; [|eauto].
  destruct msgs as [|m0 ms]; [intros []|]. intros [<- | H].
  - eexists. split; [left; reflexivity | reflexivity].
  - destruct (validate_order_contents ms (role m0) m H) as (m' & Hin & E).
    exists m'. split; [right; exact Hin | exact E].
Qed.

End LineFacts.

Module LineExtras.
Import ChatParser Spec Vocabulary OccursFacts TrimFacts ParserFacts LineFacts.

(** X27: the generic strategy loses no line: every line of the input
    that is not blank occurs, stripped and without its explicit role
    prefix if a role was detected on it, in the content of one of the
    messages returned. *)
Theorem generic_parse_keeps_every_line (text : str) :
  exists msgs,
    _parse_generic_format text = Ok msgs /\
    forall raw, In raw (split_nl text) -> strip raw <> [] ->
      exists m, In m msgs /\ contains (kept_line (strip raw)) (content m) = true.
Proof.
  unfold _parse_generic_format.
  destruct (process_lines_ok (split_nl text) _ initial_state_ok)
    as (st & Hrun & [Hm Hr Hc]).
  destruct (process_lines_keeps _ _ _ Hrun) as (Hs & _ & Hnew); [constructor|].
  rewrite Hrun. cbn [mbind res_bind Py.bind].
  assert (exists msgs0,
    (if truthy (current_role st) && nonempty (current_content st)
     then msg ← new_message (current_role st)
                  (strip (join NL (current_content st)));
          mret (st_messages st ++ [msg])
     else mret (st_messages st)) = Ok msgs0 /\
    forall l, held st l -> exists m, In m msgs0 /\ occurs l (content m))
    as (msgs0 & -> & Hheld).
  { destruct (current_content st) as [|l0 cc] eqn:Ecc.
    - rewrite andb_false_r. eexists. split; [reflexivity|].
      intros l Hl. unfold held in Hl. rewrite Ecc in Hl.
      destruct Hl as [H | []]. exact H.
    - destruct Hr as [Hr | (r & Hr & Hk)]; [exfalso; apply Hc; congruence|].
      rewrite Hr, (truthy_known _ Hk). cbn [nonempty andb new_message].
      cbn [mbind res_bind Py.bind mret res_ret].
      eexists. split; [reflexivity|]. intros l Hl.
      pose proof (held_flush st r None l) as Hf. rewrite Ecc in Hf.
      destruct (Hf Hs Hl) as [H | []]. exact H. }
  cbn [mbind res_bind Py.bind]. fold (repaired msgs0).
  assert (Hall : forall raw, In raw (split_nl text) -> strip raw <> [] ->
            exists m, In m (repaired msgs0) /\
                      contains (kept_line (strip raw)) (content m) = true).
  { intros raw Hin Hne.
    destruct (Hheld _ (Hnew raw Hin Hne)) as (m & Hmin & Ho).
    destruct (repaired_contents msgs0 m Hmin) as (m' & Hin' & E).
    exists m'. split; [exact Hin'|]. rewrite E. apply occurs_contains, Ho. }
  destruct (repaired msgs0) as [|m1 ms1]; cbn [nonempty negb].
  - eexists. split; [reflexivity|]. intros raw Hin Hne.
    destruct (Hall raw Hin Hne) as (m & [] & _).
  - eexists. split; [reflexivity | exact Hall].
Qed.

End LineExtras.
